(** * E-commerce data ingestion (ingest.py): model and verification

    The script reads five JSON documents and loads them into a fresh SQLite
    store, one table per document.  This file embeds the script: Python
    values and the operations the script applies to them, the part of the
    [sqlite3] module and of SQLite the script relies on, and the script's
    functions, written in a state-and-exception monad.  The theorems about
    the script follow the definitions. *)

From Stdlib Require Import ZArith Ascii String List SpecFloat Lia.
From stdpp Require Import base option list gmap strings.

Set Warnings "-register-all".
Local Open Scope Z_scope.
Local Open Scope string_scope.

(** ** Python values *)

(** The objects [json.load] builds (None, bool, int, float, str, list, dict)
    and the tuples the script builds from them.  A dict is kept as its items
    in insertion order; [json.load] yields distinct keys.  A float is an IEEE
    754 double.  A str is held as the bytes of its UTF-8 encoding, one
    [ascii] each; a lone surrogate, which a JSON escape such as "\ud800"
    puts in a str and which has no UTF-8 encoding, is held as the three
    bytes ED, A0..BF, 80..BF that the scheme of UTF-8 gives its code
    point. *)
Inductive pyval : Type :=
  | PNone
  | PBool (b : bool)
  | PInt (z : Z)
  | PFloat (f : spec_float)
  | PStr (s : string)
  | PList (items : list pyval)
  | PDict (items : list (string * pyval))
  | PTuple (items : list pyval).

(** What a violated constraint says. *)
Inductive violation : Type :=
  | DatatypeMismatch
  | NotNullFailed (table column : string)
  | UniqueFailed (table column : string)
  | ForeignKeyFailed.

(** The exceptions that can reach the script, all of them subclasses of
    [Exception].  [OSError] stands for the errors of [open] other than the
    three named ones. *)
Inductive exn : Type :=
  | KeyError (key : string)
  | TypeError
  | AttributeError
  | OverflowError
  | RecursionError
  | FileNotFoundError
  | PermissionError
  | IsADirectoryError
  | OSError
  | JSONDecodeError (detail : string)
  | UnicodeDecodeError
  | UnicodeEncodeError
  | ProgrammingError
  | OperationalError
  | IntegrityError (v : violation).

Inductive result (A : Type) : Type :=
  | Ok (a : A)
  | Raise (e : exn).
Arguments Ok {A} a.
Arguments Raise {A} e.

Definition rbind {A B} (r : result A) (k : A -> result B) : result B :=
  match r with
  | Ok a => k a
  | Raise e => Raise e
  end.

#[global] Instance result_ret : MRet result := @Ok.
#[global] Instance result_bind : MBind result :=
  fun A B k r => rbind r k.

Fixpoint rmap {A B} (f : A -> result B) (l : list A) : result (list B) :=
  match l with
  | [] => Ok []
  | a :: l' => b ← f a; bs ← rmap f l'; Ok (b :: bs)
  end.

Fixpoint assoc (key : string) (items : list (string * pyval)) : option pyval :=
  match items with
  | [] => None
  | (k, v) :: rest => if decide (k = key) then Some v else assoc key rest
  end.

Definition float_is_zero (f : spec_float) : bool :=
  match f with S754_zero _ => true | _ => false end.

Definition float_is_nan (f : spec_float) : bool :=
  match f with S754_nan => true | _ => false end.

Definition nonempty {A} (l : list A) : bool :=
  match l with [] => false | _ => true end.

(** [bool(v)], as [if v:] and [not v] test it. *)
Definition truthy (v : pyval) : bool :=
  match v with
  | PNone => false
  | PBool b => b
  | PInt z => negb (Z.eqb z 0)
  | PFloat f => negb (float_is_zero f)
  | PStr s => negb (String.eqb s "")
  | PList l => nonempty l
  | PDict d => nonempty d
  | PTuple l => nonempty l
  end.

(** A byte 10xxxxxx, which continues the encoding of a character. *)
Definition continuation (c : ascii) : bool :=
  let n := N_of_ascii c in N.leb 128 n && N.ltb n 192.

(** The characters of a str: each leading byte with the continuation bytes
    that follow it. *)
Fixpoint characters (s : string) : list string :=
  match s with
  | EmptyString => []
  | String c rest =>
      match characters rest with
      | String c' p :: more =>
          if continuation c' then String c (String c' p) :: more
          else String c EmptyString :: String c' p :: more
      | more => String c EmptyString :: more
      end
  end.

(** A str that UTF-8 can encode: it holds no surrogate, that is, no byte ED
    followed by a byte from A0 up. *)
Fixpoint encodable (s : string) : bool :=
  match s with
  | String c (String c' _ as rest) =>
      negb (N.eqb (N_of_ascii c) 237 && N.leb 160 (N_of_ascii c'))
      && encodable rest
  | _ => true
  end.

(** [len(v)]; the length of a str is the number of its characters. *)
Definition len (v : pyval) : result nat :=
  match v with
  | PStr s => Ok (length (characters s))
  | PList l => Ok (length l)
  | PDict d => Ok (length d)
  | PTuple l => Ok (length l)
  | PNone | PBool _ | PInt _ | PFloat _ => Raise TypeError
  end.

Definition chars (s : string) : list pyval := map PStr (characters s).

(** The items [for x in v] runs through: a dict gives its keys, a string
    its characters. *)
Definition iter (v : pyval) : result (list pyval) :=
  match v with
  | PList l => Ok l
  | PTuple l => Ok l
  | PDict d => Ok (map (fun kv => PStr (fst kv)) d)
  | PStr s => Ok (chars s)
  | PNone | PBool _ | PInt _ | PFloat _ => Raise TypeError
  end.

(** [v[key]] for a string key: only a dict can be indexed by a string. *)
Definition getitem (v : pyval) (key : string) : result pyval :=
  match v with
  | PDict d =>
      match assoc key d with
      | Some x => Ok x
      | None => Raise (KeyError key)
      end
  | _ => Raise TypeError
  end.

(** [v.get(key, default)]. *)
Definition get (v : pyval) (key : string) (default : pyval) : result pyval :=
  match v with
  | PDict d =>
      match assoc key d with
      | Some x => Ok x
      | None => Ok default
      end
  | _ => Raise AttributeError
  end.

(** ** Row tuples

    The tuple each loader builds from one record; the elements are
    evaluated from left to right. *)

Definition user_row (user : pyval) : result pyval :=
  (id ← getitem user "id";
   name ← getitem user "name";
   email ← getitem user "email";
   phone ← get user "phone" (PStr "");
   address ← get user "address" (PStr "");
   created_at ← get user "created_at" (PStr "");
   Ok (PTuple [id; name; email; phone; address; created_at])).

Definition product_row (product : pyval) : result pyval :=
  (id ← getitem product "id";
   name ← getitem product "name";
   description ← get product "description" (PStr "");
   price ← getitem product "price";
   category ← get product "category" (PStr "");
   stock ← get product "stock" (PInt 0);
   image_url ← get product "image_url" (PStr "");
   created_at ← get product "created_at" (PStr "");
   Ok (PTuple [id; name; description; price; category; stock; image_url;
               created_at])).

Definition order_row (order : pyval) : result pyval :=
  (id ← getitem order "id";
   user_id ← getitem order "user_id";
   order_date ← getitem order "order_date";
   total_amount ← getitem order "total_amount";
   status ← get order "status" (PStr "");
   shipping_address ← get order "shipping_address" (PStr "");
   Ok (PTuple [id; user_id; order_date; total_amount; status;
               shipping_address])).

Definition order_item_row (item : pyval) : result pyval :=
  (id ← getitem item "id";
   order_id ← getitem item "order_id";
   product_id ← getitem item "product_id";
   quantity ← getitem item "quantity";
   price ← getitem item "price";
   subtotal ← getitem item "subtotal";
   Ok (PTuple [id; order_id; product_id; quantity; price; subtotal])).

Definition payment_row (payment : pyval) : result pyval :=
  (id ← getitem payment "id";
   order_id ← getitem payment "order_id";
   payment_method ← get payment "payment_method" (PStr "");
   amount ← getitem payment "amount";
   payment_status ← get payment "payment_status" (PStr "");
   transaction_id ← get payment "transaction_id" (PStr "");
   payment_date ← get payment "payment_date" PNone;
   Ok (PTuple [id; order_id; payment_method; amount; payment_status;
               transaction_id; payment_date])).

(** ** SQLite values and tables *)

Inductive sqlval : Type :=
  | SNull
  | SInt (z : Z)
  | SReal (f : spec_float)
  | SText (s : string).

#[global] Instance spec_float_eq_dec : EqDecision spec_float.
Proof. solve_decision. Defined.
#[global] Instance sqlval_eq_dec : EqDecision sqlval.
Proof. solve_decision. Defined.

(** The affinities of the declared column types INTEGER, REAL and TEXT. *)
Inductive affinity : Type := AffInteger | AffReal | AffText.

(** A column; [col_pk] marks the INTEGER PRIMARY KEY column, which is the
    table's rowid. *)
Record column : Type := Column {
  col_name : string;
  col_type : affinity;
  col_notnull : bool;
  col_pk : bool
}.

(** FOREIGN KEY (fk_column) REFERENCES fk_table(fk_parent). *)
Record foreign_key : Type := ForeignKey {
  fk_column : string;
  fk_table : string;
  fk_parent : string
}.

(** A table: its declaration and its rows, oldest first.  A row is its
    rowid and one cell per column, the primary-key cell holding the rowid. *)
Record table : Type := Table {
  tbl_columns : list column;
  tbl_fks : list foreign_key;
  tbl_rows : list (Z * list sqlval)
}.

Inductive sql : Type :=
  | CreateTableIfNotExists (name : string) (columns : list column)
      (fks : list foreign_key)
  | InsertInto (name : string) (columns : list string)
  | SelectCountFrom (name : string).

Definition max_rowid : Z := 9223372036854775807.
Definition min_int64 : Z := -9223372036854775808.

(** How [sqlite3] hands a Python object to SQLite as a parameter.  A bool is
    an int; an int outside 64 bits overflows; SQLite takes a NaN as NULL; a
    str is passed in UTF-8, which a str with a lone surrogate does not
    have; lists, dicts and tuples are not supported. *)
Definition adapt (v : pyval) : result sqlval :=
  match v with
  | PNone => Ok SNull
  | PBool b => Ok (SInt (if b then 1 else 0))
  | PInt z =>
      if Z.leb min_int64 z && Z.leb z max_rowid then Ok (SInt z)
      else Raise OverflowError
  | PFloat f => Ok (if float_is_nan f then SNull else SReal f)
  | PStr s => if encodable s then Ok (SText s) else Raise UnicodeEncodeError
  | PList _ | PDict _ | PTuple _ => Raise ProgrammingError
  end.

(** The parameters of one execution: a sequence with one element per
    placeholder. *)
Definition bind_parameters (placeholders : nat) (parameters : pyval)
  : result (list sqlval) :=
  match parameters with
  | PTuple vs | PList vs =>
      if decide (length vs = placeholders) then rmap adapt vs
      else Raise ProgrammingError
  | _ => Raise ProgrammingError
  end.

Fixpoint supplied (columns : list string) (values : list sqlval)
    (c : string) : sqlval :=
  match columns, values with
  | k :: columns', v :: values' =>
      if decide (k = c) then v else supplied columns' values' c
  | _, _ => SNull
  end.

Fixpoint check_not_null (name : string) (declared : list column)
    (value_of : string -> sqlval) : result unit :=
  match declared with
  | [] => Ok tt
  | c :: rest =>
      if col_notnull c && negb (col_pk c)
         && bool_decide (value_of (col_name c) = SNull)
      then Raise (IntegrityError (NotNullFailed name (col_name c)))
      else check_not_null name rest value_of
  end.

Definition pk_value (declared : list column) (value_of : string -> sqlval)
  : sqlval :=
  match filter (fun c => col_pk c = true) declared with
  | c :: _ => value_of (col_name c)
  | [] => SNull
  end.

Definition rowids (t : table) : list Z := map fst (tbl_rows t).

(** The cell of column [c] in a stored row of [t]. *)
Fixpoint cell_at (declared : list column) (cells : list sqlval) (c : string)
  : option sqlval :=
  match declared, cells with
  | d :: declared', v :: cells' =>
      if decide (col_name d = c) then Some v else cell_at declared' cells' c
  | _, _ => None
  end.

Definition cell (t : table) (row : Z * list sqlval) (c : string)
  : option sqlval :=
  cell_at (tbl_columns t) (snd row) c.

Definition count_rows (db : gmap string table) (name : string) : option nat :=
  t ← db !! name; Some (length (tbl_rows t)).

(** Stand-ins for the two parts of SQLite that the model takes as given:
    a conversion that leaves every value as it is, for the sample runs
    below, which have no value to convert, and a random search that finds
    no key. *)
Definition no_convert : affinity -> sqlval -> sqlval := fun _ v => v.
Definition no_random : string -> list Z -> option Z := fun _ _ => None.

(** A random search that settles on [z]. *)
Definition pick (z : Z) : string -> list Z -> option Z := fun _ _ => Some z.

Section Ingest.

(** Two parts of SQLite are taken as given.  [convert a v] is the value a
    column of affinity [a] stores for a non-NULL value [v] of another
    storage class (a number put in a TEXT column becomes its text, text
    that reads as a number put in a numeric column becomes that number, and
    so on).  [random_rowid name used] is the key that SQLite's random
    search settles on, if it finds one, when a row of table [name] needs a
    key and the largest key is taken, [used] being the keys in use.  The
    search differs from run to run: these are the choices of one run, in
    which the search is never made twice for the same table with the same
    keys in use. *)
Variable convert : affinity -> sqlval -> sqlval.
Variable random_rowid : string -> list Z -> option Z.

(** A REAL column keeps a float, but for the sign of zero: SQLite writes a
    float that is a whole number as an integer and reads it back as a
    float, so that -0.0 comes back as 0.0. *)
Definition stored_real (f : spec_float) : spec_float :=
  match f with
  | S754_zero _ => S754_zero false
  | _ => f
  end.

Definition store_cell (a : affinity) (v : sqlval) : sqlval :=
  match a, v with
  | _, SNull => SNull
  | AffInteger, SInt _ => v
  | AffReal, SReal f => SReal (stored_real f)
  | AffText, SText _ => v
  | _, _ => convert a v
  end.

(** The rowid a NULL primary key receives in table [name]: one more than
    the largest in use, 1 in an empty table. *)
Definition new_rowid (name : string) (used : list Z) : result Z :=
  match used with
  | [] => Ok 1
  | k :: rest =>
      let largest := fold_right Z.max k rest in
      if Z.ltb largest max_rowid then Ok (largest + 1)
      else match random_rowid name used with
           | Some r => if bool_decide (r ∈ used) then Raise OperationalError
                       else Ok r
           | None => Raise OperationalError
           end
  end.

(** The rowid of a new row of table [name] from the value given for the
    primary key. *)
Definition rowid_of (name : string) (used : list Z) (v : sqlval) : result Z :=
  match v with
  | SNull => new_rowid name used
  | SInt z => Ok z
  | _ => match convert AffInteger v with
         | SInt z => Ok z
         | _ => Raise (IntegrityError DatatypeMismatch)
         end
  end.

Definition stored_cells (declared : list column)
    (value_of : string -> sqlval) (rowid : Z) : list sqlval :=
  map (fun c => if col_pk c then SInt rowid
                else store_cell (col_type c) (value_of (col_name c)))
      declared.

Definition has_parent (db : gmap string table) (fk : foreign_key)
    (v : sqlval) : bool :=
  match db !! fk_table fk with
  | Some parent =>
      existsb (fun row => bool_decide (cell parent row (fk_parent fk) = Some v))
              (tbl_rows parent)
  | None => false
  end.

(** Foreign keys of the new row, checked only when enforcement is on. *)
Fixpoint check_foreign_keys (db : gmap string table) (t : table)
    (fks : list foreign_key) (cells : list sqlval) : result unit :=
  match fks with
  | [] => Ok tt
  | fk :: rest =>
      match cell_at (tbl_columns t) cells (fk_column fk) with
      | Some SNull | None => check_foreign_keys db t rest cells
      | Some v =>
          if has_parent db fk v then check_foreign_keys db t rest cells
          else Raise (IntegrityError ForeignKeyFailed)
      end
  end.

(** The statement is compiled before any row is bound: the table and the
    named columns must exist. *)
Definition prepare_insert (db : gmap string table) (name : string)
    (columns : list string) : result table :=
  match db !! name with
  | None => Raise OperationalError
  | Some t =>
      if forallb (fun c => bool_decide (c ∈ map col_name (tbl_columns t)))
                 columns
      then Ok t
      else Raise OperationalError
  end.

(** INSERT INTO name (columns) VALUES (values), one row. *)
Definition insert_row (enforce_fk : bool) (db : gmap string table)
    (name : string) (columns : list string) (values : list sqlval)
  : result (gmap string table) :=
  (t ← prepare_insert db name columns;
   let value_of := supplied columns values in
   rowid ← rowid_of name (rowids t) (pk_value (tbl_columns t) value_of);
   _ ← check_not_null name (tbl_columns t) value_of;
   _ ← (if bool_decide (rowid ∈ rowids t)
         then Raise (IntegrityError (UniqueFailed name "id"))
         else Ok tt);
   let cells := stored_cells (tbl_columns t) value_of rowid in
   _ ← (if enforce_fk then check_foreign_keys db t (tbl_fks t) cells
         else Ok tt);
   Ok (<[name := Table (tbl_columns t) (tbl_fks t)
                       (tbl_rows t ++ [(rowid, cells)])]> db)).

(** The rows of one [executemany], bound and inserted one after the other;
    the rows before a failing one stay in the database the connection
    sees. *)
Fixpoint insert_rows (enforce_fk : bool) (db : gmap string table)
    (name : string) (columns : list string) (rows : list pyval)
  : result unit * gmap string table :=
  match rows with
  | [] => (Ok tt, db)
  | r :: rest =>
      match bind_parameters (length columns) r with
      | Raise e => (Raise e, db)
      | Ok values =>
          match insert_row enforce_fk db name columns values with
          | Raise e => (Raise e, db)
          | Ok db' => insert_rows enforce_fk db' name columns rest
          end
      end
  end.


(** ** Files, connection and console *)

(** Why [open] refuses a file that is there. *)
Inductive refusal : Type :=
  | NoPermission
  | IsDirectory
  | OtherRefusal.

(** A source file as [open] and [json.load] find it: one that [open]
    refuses, bytes that are not UTF-8 text, text that is not JSON, JSON
    nested deeper than the interpreter recurses, or a JSON document, given
    by the object it parses to. *)
Inductive source : Type :=
  | Unopenable (why : refusal)
  | Undecodable
  | InvalidJson (detail : string)
  | TooDeep
  | Json (data : pyval).

Definition refused (why : refusal) : exn :=
  match why with
  | NoPermission => PermissionError
  | IsDirectory => IsADirectoryError
  | OtherRefusal => OSError
  end.

(** The lines the script prints, one constructor per format string. *)
Inductive output : Type :=
  | Text (line : string)
  | RemovedDatabase (db_name : string)
  | CreatedDatabase (db_name : string)
  | LoadedRecords (n : nat) (file_path : string)
  | FileNotFound (file_path : string)
  | InvalidJsonIn (file_path detail : string)
  | Inserted (n : nat) (what : string)
  | TableCount (name : string) (count : sqlval)
  | IngestionError (e : exn).

Inductive call : Type :=
  | Execute (q : sql)
  | ExecuteMany (q : sql) (rows : nat)
  | Commit
  | Rollback
  | Close.

(** A [sqlite3] connection: the database its statements see, whether a
    transaction is open, whether foreign keys are enforced, and the calls
    made on it, oldest first. *)
Record connection : Type := Connection {
  db_name : string;
  view : gmap string table;
  in_txn : bool;
  foreign_keys : bool;
  closed : bool;
  calls : list call
}.

(** The source files and the store files of the working directory, by
    name, each store file with its committed content, and the console.  A
    store file is never read as a source. *)
Record world : Type := World {
  sources : gmap string source;
  stores : gmap string (gmap string table);
  stdout : list output
}.

Record state : Type := State {
  env : world;
  conn : connection
}.

Definition M (A : Type) : Type := state -> result A * state.

#[global] Instance M_ret : MRet M := fun A a s => (Ok a, s).
#[global] Instance M_bind : MBind M := fun A B k m s =>
  match m s with
  | (Ok a, s') => k a s'
  | (Raise e, s') => (Raise e, s')
  end.

Definition raise {A} (e : exn) : M A := fun s => (Raise e, s).

Definition lift {A} (r : result A) : M A := fun s => (r, s).

(** try: body / except Exception as e: handler e *)
Definition try_except {A} (body : M A) (handler : exn -> M A) : M A :=
  fun s =>
    match body s with
    | (Ok a, s') => (Ok a, s')
    | (Raise e, s') => handler e s'
    end.

(** try: body / finally: final *)
Definition try_finally {A} (body : M A) (final : M unit) : M A :=
  fun s =>
    match body s with
    | (r, s') =>
        match final s' with
        | (Ok _, s'') => (r, s'')
        | (Raise e, s'') => (Raise e, s'')
        end
    end.

Fixpoint for_each {A} (l : list A) (body : A -> M unit) : M unit :=
  match l with
  | [] => mret tt
  | a :: l' => body a;; for_each l' body
  end.

Definition say (o : output) (w : world) : world :=
  World (sources w) (stores w) (stdout w ++ [o]).

Definition print (o : output) : M unit :=
  fun s => (Ok tt, State (say o (env s)) (conn s)).

Definition called (c : call) (k : connection) : connection :=
  Connection (db_name k) (view k) (in_txn k) (foreign_keys k) (closed k)
             (calls k ++ [c]).

Definition set_view (v : gmap string table) (txn : bool) (k : connection)
  : connection :=
  Connection (db_name k) v txn (foreign_keys k) (closed k) (calls k).

Definition write_store (name : string) (db : gmap string table) (w : world)
  : world :=
  World (sources w) (<[name := db]> (stores w)) (stdout w).

(** The committed content of the connection's store file. *)
Definition committed (s : state) : gmap string table :=
  default ∅ (stores (env s) !! db_name (conn s)).

(** [conn.cursor()]: refused on a closed connection. *)
Definition cursor : M unit :=
  fun s => if closed (conn s) then (Raise ProgrammingError, s) else (Ok tt, s).

(** [cursor.execute(q)] without parameters; the result is the rows to
    fetch.  Outside a transaction a CREATE TABLE is committed at once. *)
Definition execute (q : sql) : M (list (list sqlval)) :=
  fun s =>
    let k := conn s in
    if closed k then (Raise ProgrammingError, s)
    else
      let k := called (Execute q) k in
      match q with
      | CreateTableIfNotExists name columns fks =>
          let v := match view k !! name with
                   | Some _ => view k
                   | None => <[name := Table columns fks []]> (view k)
                   end in
          (Ok [],
           State (if in_txn k then env s else write_store (db_name k) v (env s))
                 (set_view v (in_txn k) k))
      | SelectCountFrom name =>
          match count_rows (view k) name with
          | Some n => (Ok [[SInt (Z.of_nat n)]], State (env s) k)
          | None => (Raise OperationalError, State (env s) k)
          end
      | InsertInto _ _ => (Raise ProgrammingError, State (env s) k)
      end.

(** [cursor.fetchone()[0]] on the rows of the last [execute]. *)
Definition fetchone_0 (rows : list (list sqlval)) : result sqlval :=
  match rows with
  | (v :: _) :: _ => Ok v
  | _ => Raise TypeError
  end.

(** [cursor.executemany(q, rows)]: the statement is compiled, a transaction
    is opened if none is, and the rows are inserted in order. *)
Definition executemany (q : sql) (rows : list pyval) : M unit :=
  fun s =>
    let k := conn s in
    if closed k then (Raise ProgrammingError, s)
    else
      let k := called (ExecuteMany q (length rows)) k in
      match q with
      | InsertInto name columns =>
          match prepare_insert (view k) name columns with
          | Raise e => (Raise e, State (env s) k)
          | Ok _ =>
              let (r, v) := insert_rows (foreign_keys k) (view k) name columns
                                        rows in
              (r, State (env s) (set_view v true k))
          end
      | _ => (Raise ProgrammingError, State (env s) k)
      end.

(** [conn.commit()] *)
Definition commit : M unit :=
  fun s =>
    let k := conn s in
    if closed k then (Raise ProgrammingError, s)
    else
      (Ok tt,
       State (if in_txn k then write_store (db_name k) (view k) (env s)
              else env s)
             (set_view (view k) false (called Commit k))).

(** [conn.rollback()] *)
Definition rollback : M unit :=
  fun s =>
    let k := conn s in
    if closed k then (Raise ProgrammingError, s)
    else
      (Ok tt,
       State (env s)
             (set_view (if in_txn k then committed s else view k) false
                       (called Rollback k))).

(** [conn.close()]: what was not committed is lost. *)
Definition close : M unit :=
  fun s =>
    let k := called Close (conn s) in
    (Ok tt,
     State (env s)
           (Connection (db_name k) (if in_txn k then committed s else view k)
                       false (foreign_keys k) true (calls k))).

(** [sqlite3.connect(db_name)]: a connection to the store file, created
    empty when there is none; foreign keys are not enforced unless the
    connection asks for it. *)
Definition connect (name : string) (w : world) : connection * world :=
  let db := default ∅ (stores w !! name) in
  (Connection name db false false false [], write_store name db w).

(** ** The script *)

Definition nl : string := String (ascii_of_nat 10) "".

(** ["=" * 50] and the like. *)
Definition times (c : string) (n : nat) : string :=
  String.concat "" (replicate n c).

(** Create SQLite database and return connection. *)
Definition create_database (db_name : string) (w : world)
  : connection * world :=
  let w :=
    if bool_decide (is_Some (stores w !! db_name)) then
      say (RemovedDatabase db_name)
          (World (sources w) (delete db_name (stores w)) (stdout w))
    else w in
  let (conn, w) := connect db_name w in
  (conn, say (CreatedDatabase db_name) w).

Definition users_columns : list column :=
  [ Column "id" AffInteger false true;
    Column "name" AffText true false;
    Column "email" AffText true false;
    Column "phone" AffText false false;
    Column "address" AffText false false;
    Column "created_at" AffText false false ].

Definition products_columns : list column :=
  [ Column "id" AffInteger false true;
    Column "name" AffText true false;
    Column "description" AffText false false;
    Column "price" AffReal true false;
    Column "category" AffText false false;
    Column "stock" AffInteger false false;
    Column "image_url" AffText false false;
    Column "created_at" AffText false false ].

Definition orders_columns : list column :=
  [ Column "id" AffInteger false true;
    Column "user_id" AffInteger true false;
    Column "order_date" AffText true false;
    Column "total_amount" AffReal true false;
    Column "status" AffText false false;
    Column "shipping_address" AffText false false ].

Definition order_items_columns : list column :=
  [ Column "id" AffInteger false true;
    Column "order_id" AffInteger true false;
    Column "product_id" AffInteger true false;
    Column "quantity" AffInteger true false;
    Column "price" AffReal true false;
    Column "subtotal" AffReal true false ].

Definition payments_columns : list column :=
  [ Column "id" AffInteger false true;
    Column "order_id" AffInteger true false;
    Column "payment_method" AffText false false;
    Column "amount" AffReal true false;
    Column "payment_status" AffText false false;
    Column "transaction_id" AffText false false;
    Column "payment_date" AffText false false ].

(** Create all required tables in the database. *)
Definition create_tables : M unit :=
  cursor;;
  execute (CreateTableIfNotExists "users" users_columns []);;
  execute (CreateTableIfNotExists "products" products_columns []);;
  execute (CreateTableIfNotExists "orders" orders_columns
             [ForeignKey "user_id" "users" "id"]);;
  execute (CreateTableIfNotExists "order_items" order_items_columns
             [ForeignKey "order_id" "orders" "id";
              ForeignKey "product_id" "products" "id"]);;
  execute (CreateTableIfNotExists "payments" payments_columns
             [ForeignKey "order_id" "orders" "id"]);;
  commit;;
  print (Text "Created all tables successfully").

(** [with open(file_path, 'r', encoding='utf-8') as f: json.load(f)] *)
Definition json_load (file_path : string) : M pyval :=
  fun s =>
    match sources (env s) !! file_path with
    | None => (Raise FileNotFoundError, s)
    | Some (Unopenable why) => (Raise (refused why), s)
    | Some Undecodable => (Raise UnicodeDecodeError, s)
    | Some (InvalidJson detail) => (Raise (JSONDecodeError detail), s)
    | Some TooDeep => (Raise RecursionError, s)
    | Some (Json data) => (Ok data, s)
    end.

(** Load and return data from a JSON file. *)
Definition load_json_file (file_path : string) : M pyval :=
  try_except
    (data ← json_load file_path;
     n ← lift (len data);
     print (LoadedRecords n file_path);;
     mret data)
    (fun e =>
       match e with
       | FileNotFoundError =>
           print (FileNotFound file_path);;
           mret PNone
       | JSONDecodeError detail =>
           print (InvalidJsonIn file_path detail);;
           mret PNone
       | _ => raise e
       end).

(** [[row(x) for x in data]] *)
Definition comprehension (row : pyval -> result pyval) (data : pyval)
  : result (list pyval) :=
  items ← iter data; rmap row items.

(** Insert users data into the users table. *)
Definition insert_users (users_data : pyval) : M unit :=
  if negb (truthy users_data) then mret tt
  else
    cursor;;
    rows ← lift (comprehension user_row users_data);
    executemany
      (InsertInto "users"
         ["id"; "name"; "email"; "phone"; "address"; "created_at"])
      rows;;
    commit;;
    n ← lift (len users_data);
    print (Inserted n "users").

(** Insert products data into the products table. *)
Definition insert_products (products_data : pyval) : M unit :=
  if negb (truthy products_data) then mret tt
  else
    cursor;;
    rows ← lift (comprehension product_row products_data);
    executemany
      (InsertInto "products"
         ["id"; "name"; "description"; "price"; "category"; "stock";
          "image_url"; "created_at"])
      rows;;
    commit;;
    n ← lift (len products_data);
    print (Inserted n "products").

(** Insert orders data into the orders table. *)
Definition insert_orders (orders_data : pyval) : M unit :=
  if negb (truthy orders_data) then mret tt
  else
    cursor;;
    rows ← lift (comprehension order_row orders_data);
    executemany
      (InsertInto "orders"
         ["id"; "user_id"; "order_date"; "total_amount"; "status";
          "shipping_address"])
      rows;;
    commit;;
    n ← lift (len orders_data);
    print (Inserted n "orders").

(** Insert order items data into the order_items table. *)
Definition insert_order_items (order_items_data : pyval) : M unit :=
  if negb (truthy order_items_data) then mret tt
  else
    cursor;;
    rows ← lift (comprehension order_item_row order_items_data);
    executemany
      (InsertInto "order_items"
         ["id"; "order_id"; "product_id"; "quantity"; "price"; "subtotal"])
      rows;;
    commit;;
    n ← lift (len order_items_data);
    print (Inserted n "order items").

(** Insert payments data into the payments table. *)
Definition insert_payments (payments_data : pyval) : M unit :=
  if negb (truthy payments_data) then mret tt
  else
    cursor;;
    rows ← lift (comprehension payment_row payments_data);
    executemany
      (InsertInto "payments"
         ["id"; "order_id"; "payment_method"; "amount"; "payment_status";
          "transaction_id"; "payment_date"])
      rows;;
    commit;;
    n ← lift (len payments_data);
    print (Inserted n "payments").

Definition tables : list string :=
  ["users"; "products"; "orders"; "order_items"; "payments"].

(** Verify the data was inserted correctly by counting records. *)
Definition verify_data : M unit :=
  cursor;;
  print (Text (nl ++ times "=" 50));;
  print (Text "Data Verification:");;
  print (Text (times "=" 50));;
  for_each tables (fun table =>
    rows ← execute (SelectCountFrom table);
    count ← lift (fetchone_0 rows);
    print (TableCount table count));;
  print (Text (times "=" 50)).

Definition json_files : list (string * string) :=
  [ ("users", "users.json");
    ("products", "products.json");
    ("orders", "orders.json");
    ("order_items", "order_items.json");
    ("payments", "payments.json") ].

(** [json_files[key]] for the keys of the dict. *)
Fixpoint file_in (files : list (string * string)) (key : string) : string :=
  match files with
  | [] => ""
  | (k, f) :: rest => if decide (k = key) then f else file_in rest key
  end.

(** The body of the [try] of [main]. *)
Definition main_try : M unit :=
  print (Text (nl ++ "Creating database tables..."));;
  create_tables;;
  print (Text (nl ++ "Loading and inserting data..."));;
  print (Text (times "-" 50));;
  users_data ← load_json_file (file_in json_files "users");
  (if truthy users_data then insert_users users_data else mret tt);;
  products_data ← load_json_file (file_in json_files "products");
  (if truthy products_data then insert_products products_data else mret tt);;
  orders_data ← load_json_file (file_in json_files "orders");
  (if truthy orders_data then insert_orders orders_data else mret tt);;
  order_items_data ← load_json_file (file_in json_files "order_items");
  (if truthy order_items_data then insert_order_items order_items_data
   else mret tt);;
  payments_data ← load_json_file (file_in json_files "payments");
  (if truthy payments_data then insert_payments payments_data else mret tt);;
  verify_data;;
  print (Text (nl ++ times "=" 50));;
  print (Text "Data ingestion completed successfully!");;
  print (Text (times "=" 50)).

(** The [except Exception as e] clause of [main]. *)
Definition main_except (e : exn) : M unit :=
  print (IngestionError e);;
  rollback;;
  raise e.

(** The [finally] clause of [main]. *)
Definition main_finally : M unit :=
  close;;
  print (Text (nl ++ "Database connection closed.")).

(** Main function to orchestrate the data ingestion process. *)
Definition main (w : world) : result unit * state :=
  let w := say (Text (times "=" 50)) w in
  let w := say (Text "E-commerce Data Ingestion Script") w in
  let w := say (Text (times "=" 50)) w in
  let w := say (Text "") w in
  let (conn, w) := create_database "ecom.db" w in
  try_finally (try_except main_try main_except) main_finally (State w conn).



(** ** The five loaders as one

    The loaders differ in the table, the fields they read and the word they
    print.  [table_loader] is their common shape; the lemmas below show that
    each loader is an instance of it. *)

(** [record[name]] or [record.get(name, default)]. *)
Inductive field : Type :=
  | Required (name : string)
  | Optional (name : string) (default : pyval).

Definition field_name (f : field) : string :=
  match f with
  | Required name => name
  | Optional name _ => name
  end.

Definition read_field (record : pyval) (f : field) : result pyval :=
  match f with
  | Required name => getitem record name
  | Optional name default => get record name default
  end.

Definition row_of (fields : list field) (record : pyval) : result pyval :=
  vs ← rmap (read_field record) fields; Ok (PTuple vs).

(** A loader: the key of its file in [json_files], its table with the
    declaration [create_tables] gives it, the fields of its tuple and the
    word of its report. *)
Record loader : Type := Loader {
  ld_key : string;
  ld_table : string;
  ld_columns : list column;
  ld_fks : list foreign_key;
  ld_fields : list field;
  ld_what : string
}.

Definition ld_names (L : loader) : list string :=
  map field_name (ld_fields L).

Definition table_loader (L : loader) (data : pyval) : M unit :=
  if negb (truthy data) then mret tt
  else
    cursor;;
    rows ← lift (comprehension (row_of (ld_fields L)) data);
    executemany (InsertInto (ld_table L) (ld_names L)) rows;;
    commit;;
    n ← lift (len data);
    print (Inserted n (ld_what L)).

Definition users_loader : loader :=
  Loader "users" "users" users_columns []
    [ Required "id"; Required "name"; Required "email";
      Optional "phone" (PStr ""); Optional "address" (PStr "");
      Optional "created_at" (PStr "") ]
    "users".

Definition products_loader : loader :=
  Loader "products" "products" products_columns []
    [ Required "id"; Required "name"; Optional "description" (PStr "");
      Required "price"; Optional "category" (PStr "");
      Optional "stock" (PInt 0); Optional "image_url" (PStr "");
      Optional "created_at" (PStr "") ]
    "products".

Definition orders_loader : loader :=
  Loader "orders" "orders" orders_columns
    [ForeignKey "user_id" "users" "id"]
    [ Required "id"; Required "user_id"; Required "order_date";
      Required "total_amount"; Optional "status" (PStr "");
      Optional "shipping_address" (PStr "") ]
    "orders".

Definition order_items_loader : loader :=
  Loader "order_items" "order_items" order_items_columns
    [ForeignKey "order_id" "orders" "id";
     ForeignKey "product_id" "products" "id"]
    [ Required "id"; Required "order_id"; Required "product_id";
      Required "quantity"; Required "price"; Required "subtotal" ]
    "order items".

Definition payments_loader : loader :=
  Loader "payments" "payments" payments_columns
    [ForeignKey "order_id" "orders" "id"]
    [ Required "id"; Required "order_id"; Optional "payment_method" (PStr "");
      Required "amount"; Optional "payment_status" (PStr "");
      Optional "transaction_id" (PStr ""); Optional "payment_date" PNone ]
    "payments".

(** Each loader of the script with its description. *)
Definition loaders : list (loader * (pyval -> M unit)) :=
  [ (users_loader, insert_users);
    (products_loader, insert_products);
    (orders_loader, insert_orders);
    (order_items_loader, insert_order_items);
    (payments_loader, insert_payments) ].

(** The five descriptions, in the order of [main]. *)
Definition descriptions : list loader :=
  [ users_loader; products_loader; orders_loader; order_items_loader;
    payments_loader ].

(** The file a loader's records come from. *)
Definition ld_file (L : loader) : string := file_in json_files (ld_key L).

(** One numbered step of [main]: load the file, insert if there is data. *)
Definition load_and_insert (L : loader) (insert : pyval -> M unit) : M unit :=
  data ← load_json_file (ld_file L);
  if truthy data then insert data else mret tt.

(** The table as [create_tables] declares it, with the given rows. *)
Definition declared (L : loader) (rows : list (Z * list sqlval)) : table :=
  Table (ld_columns L) (ld_fks L) rows.

(** The database once [create_tables] has run on an empty store. *)
Definition schema : gmap string table :=
  <["payments" := declared payments_loader []]>
  (<["order_items" := declared order_items_loader []]>
  (<["orders" := declared orders_loader []]>
  (<["products" := declared products_loader []]>
  (<["users" := declared users_loader []]> ∅)))).

(** ** Records the store accepts *)

(** A value [sqlite3] can bind: None, a bool, an int of the 64-bit range, a
    float, a str without a lone surrogate. *)
Definition scalar (v : pyval) : bool :=
  match adapt v with
  | Ok _ => true
  | Raise _ => false
  end.

(** A value bound as something other than NULL: a bool, an int of the
    64-bit range, a float other than NaN, a str without a lone surrogate. *)
Definition filled (v : pyval) : bool :=
  match adapt v with
  | Ok SNull => false
  | Ok _ => true
  | Raise _ => false
  end.

(** An integer of the 64-bit range. *)
Definition int64 (v : pyval) : option Z :=
  match v with
  | PInt z => if Z.leb min_int64 z && Z.leb z max_rowid then Some z else None
  | _ => None
  end.

Definition is_record (record : pyval) : bool :=
  match record with
  | PDict _ => true
  | _ => false
  end.

Definition present (items : list (string * pyval)) (key : string) : bool :=
  bool_decide (is_Some (assoc key items)).

(** The record is an object with all the required fields of the loader. *)
Definition has_required (L : loader) (record : pyval) : bool :=
  match record with
  | PDict d =>
      forallb (fun f => match f with
                        | Required name => present d name
                        | Optional _ _ => true
                        end) (ld_fields L)
  | _ => false
  end.

Definition field_ok (items : list (string * pyval)) (f : field) : bool :=
  match f, assoc (field_name f) items with
  | Required _, Some v => filled v
  | Required _, None => false
  | Optional _ _, Some v => scalar v
  | Optional _ _, None => true
  end.

Definition record_id (record : pyval) : option Z :=
  match record with
  | PDict d => assoc "id" d ≫= int64
  | _ => None
  end.

(** The record is an object whose required fields are there and bound as
    something other than NULL, whose optional fields, where given, can be
    bound, and whose id is an integer of the 64-bit range. *)
Definition well_formed (L : loader) (record : pyval) : bool :=
  match record with
  | PDict d =>
      forallb (field_ok d) (ld_fields L)
      && bool_decide (is_Some (record_id record))
  | _ => false
  end.

(** Well-formed records with pairwise different ids. *)
Definition well_formed_file (L : loader) (records : list pyval) : Prop :=
  Forall (fun r => well_formed L r = true) records
  /\ NoDup (map record_id records).

(** What [load_json_file] makes of a file. *)
Definition loaded (file : option source) : result pyval :=
  match file with
  | None => Ok PNone
  | Some (InvalidJson _) => Ok PNone
  | Some (Unopenable why) => Raise (refused why)
  | Some Undecodable => Raise UnicodeDecodeError
  | Some TooDeep => Raise RecursionError
  | Some (Json data) => _ ← len data; Ok data
  end.

(** A file the run gets through: missing or not JSON, and then skipped, or
    an array of well-formed records, and then inserted. *)
Definition usable (L : loader) (file : option source) (records : list pyval)
  : Prop :=
  (file = None /\ records = [])
  \/ (exists detail, file = Some (InvalidJson detail) /\ records = [])
  \/ (file = Some (Json (PList records)) /\ well_formed_file L records).

(** ** Assertions on states *)

(** What no call of the script changes while the connection is open. *)
Definition inv (src : gmap string source) (s : state) : Prop :=
  sources (env s) = src
  /\ db_name (conn s) = "ecom.db"
  /\ closed (conn s) = false
  /\ foreign_keys (conn s) = false.

(** No transaction is open and the store file holds what the connection
    sees. *)
Definition synced (s : state) : Prop :=
  in_txn (conn s) = false
  /\ stores (env s) !! db_name (conn s) = Some (view (conn s)).

(** The committed table [name] has no rows. *)
Definition clean (name : string) (s : state) : Prop :=
  exists t, committed s !! name = Some t /\ tbl_rows t = [].

(** A triple with a postcondition for each way out. *)
Definition hoare {A} (P : state -> Prop) (m : M A)
    (Q : A -> state -> Prop) (R : exn -> state -> Prop) : Prop :=
  forall s, P s ->
    match m s with
    | (Ok a, s') => Q a s'
    | (Raise e, s') => R e s'
    end.

(** Two states the script cannot tell apart: they differ in the console,
    in the other store files and in the calls recorded. *)
Definition alike (s1 s2 : state) : Prop :=
  sources (env s1) = sources (env s2)
  /\ stores (env s1) !! db_name (conn s1) = stores (env s2) !! db_name (conn s2)
  /\ db_name (conn s1) = db_name (conn s2)
  /\ view (conn s1) = view (conn s2)
  /\ in_txn (conn s1) = in_txn (conn s2)
  /\ foreign_keys (conn s1) = foreign_keys (conn s2)
  /\ closed (conn s1) = closed (conn s2).

(** [m] gives like results in like states. *)
Definition blind {A} (m : M A) : Prop :=
  forall s1 s2, alike s1 s2 ->
    fst (m s1) = fst (m s2) /\ alike (snd (m s1)) (snd (m s2)).

(** ** The tuple of a complete record and its fate in the store *)

Definition field_read (items : list (string * pyval)) (f : field) : pyval :=
  match f with
  | Required name => default PNone (assoc name items)
  | Optional name d => default d (assoc name items)
  end.

(** The tuple a loader builds from an object that has the required
    fields. *)
Definition tuple_of (L : loader) (record : pyval) : pyval :=
  match record with
  | PDict d => PTuple (map (field_read d) (ld_fields L))
  | _ => PNone
  end.

(** The key of the row a tuple becomes, when the tuple goes past binding
    and the NOT NULL columns with an integer for the primary key. *)
Definition accepted (L : loader) (tuple : pyval) : option Z :=
  match bind_parameters (length (ld_names L)) tuple with
  | Ok values =>
      let value_of := supplied (ld_names L) values in
      match pk_value (ld_columns L) value_of,
            check_not_null (ld_table L) (ld_columns L) value_of with
      | SInt z, Ok _ => Some z
      | _, _ => None
      end
  | Raise _ => None
  end.

Definition required_name (name : string) (f : field) : bool :=
  match f with
  | Required k => bool_decide (k = name)
  | Optional _ _ => false
  end.

(** The loader and the declaration of its table go together: the statement
    names the columns in their order, no name twice, the primary key is
    [id], the defaults are scalars and the NOT NULL columns are required
    fields. *)
Definition fits (L : loader) : bool :=
  bool_decide (map col_name (ld_columns L) = ld_names L)
  && bool_decide (NoDup (ld_names L))
  && bool_decide
       (col_name <$> head (filter (fun c => col_pk c = true) (ld_columns L))
        = Some "id")
  && existsb (required_name "id") (ld_fields L)
  && forallb (fun f => match f with
                       | Required _ => true
                       | Optional _ d => scalar d
                       end) (ld_fields L)
  && forallb (fun c => implb (col_notnull c && negb (col_pk c))
                             (existsb (required_name (col_name c))
                                      (ld_fields L)))
             (ld_columns L).

(** The cells a tuple is stored as, under the key [z]. *)
Definition row_for (L : loader) (tuple : pyval) (z : Z) : Z * list sqlval :=
  match bind_parameters (length (ld_names L)) tuple with
  | Ok values => (z, stored_cells (ld_columns L) (supplied (ld_names L) values) z)
  | Raise _ => (z, [])
  end.

(** What [load_json_file] prints for a file. *)
Definition load_says (file_path : string) (file : option source)
  : list output :=
  match file with
  | None => [FileNotFound file_path]
  | Some (InvalidJson detail) => [InvalidJsonIn file_path detail]
  | Some (Unopenable _) | Some Undecodable | Some TooDeep => []
  | Some (Json data) =>
      match len data with
      | Ok n => [LoadedRecords n file_path]
      | Raise _ => []
      end
  end.

Definition says (lines : list output) (w : world) : world :=
  World (sources w) (stores w) (stdout w ++ lines).

(** [len(data)] where it is known to succeed. *)
Definition size (data : pyval) : nat :=
  match len data with
  | Ok n => n
  | Raise _ => 0%nat
  end.

(** The state a loader leaves when its batch went in: the rows committed
    and the report printed. *)
Definition inserted (L : loader) (data : pyval) (rows : nat)
    (v : gmap string table) (s : state) : state :=
  let k := conn s in
  State (say (Inserted (size data) (ld_what L))
             (write_store (db_name k) v (env s)))
        (Connection (db_name k) v false (foreign_keys k) (closed k)
           (calls k ++ [ExecuteMany (InsertInto (ld_table L) (ld_names L)) rows;
                        Commit])).

(** [P] is kept by [m], whichever way [m] ends. *)
Definition keeps {A} (P : state -> Prop) (m : M A) : Prop :=
  hoare P m (fun _ => P) (fun _ => P).

(** [P] does not look at the console. *)
Definition quiet (P : state -> Prop) : Prop :=
  forall s lines, P s -> P (State (says lines (env s)) (conn s)).

(** The open connection sees [db], which is also what the store file
    holds. *)
Definition steady (src : gmap string source) (db : gmap string table)
    (s : state) : Prop :=
  inv src s /\ synced s /\ view (conn s) = db.

(** The state in which the [try] of [main] starts. *)
Definition started (w : world) : state :=
  let w := say (Text (times "=" 50)) w in
  let w := say (Text "E-commerce Data Ingestion Script") w in
  let w := say (Text (times "=" 50)) w in
  let w := say (Text "") w in
  let (conn, w) := create_database "ecom.db" w in
  State w conn.

(** The state the [except] clause leaves. *)
Definition rolled_back (e : exn) (s : state) : state :=
  let k := conn s in
  State (say (IngestionError e) (env s))
        (Connection (db_name k) (if in_txn k then committed s else view k)
           false (foreign_keys k) (closed k) (calls k ++ [Rollback])).

(** The state the [finally] clause leaves. *)
Definition finished (s : state) : state :=
  let k := conn s in
  State (say (Text (nl ++ "Database connection closed.")) (env s))
        (Connection (db_name k) (if in_txn k then committed s else view k)
           false (foreign_keys k) true (calls k ++ [Close])).

(** The step of a loader raises whatever the connection holds, leaving the
    state as it was but for the console. *)
Definition dies (L : loader) (insert : pyval -> M unit)
    (src : gmap string source) : Prop :=
  forall s, inv src s ->
    exists e lines,
      load_and_insert L insert s
      = (Raise e, State (says lines (env s)) (conn s)).

(** Between the steps of an aborted run: table [name] still has no rows. *)
Definition untouched (src : gmap string source) (name : string) (s : state)
  : Prop :=
  inv src s /\ synced s /\ clean name s.

(** Part of the way through a run: the tables in [counts] hold that many
    rows, those of the loaders in [pending] are as declared, empty. *)
Definition progress (src : gmap string source) (counts : list (string * nat))
    (pending : list loader) (s : state) : Prop :=
  exists db,
    steady src db s
    /\ Forall (fun c => count_rows db (fst c) = Some (snd c)) counts
    /\ Forall (fun L => db !! ld_table L = Some (declared L [])) pending.

(** The verification has printed [n] for table [name]. *)
Definition reported (name : string) (n : nat) (s : state) : Prop :=
  TableCount name (SInt (Z.of_nat n)) ∈ stdout (env s).

Fixpoint count_of (counts : list (string * nat)) (name : string) : nat :=
  match counts with
  | [] => 0%nat
  | (k, n) :: rest => if decide (k = name) then n else count_of rest name
  end.



(** The step of a loader raises [e] whatever the connection holds. *)
Definition dies_with (e : exn) (L : loader) (insert : pyval -> M unit)
    (src : gmap string source) : Prop :=
  forall s, inv src s ->
    exists lines,
      load_and_insert L insert s
      = (Raise e, State (says lines (env s)) (conn s)).

(** A JSON document that is null, a boolean or a number. *)
Definition unsized (data : pyval) : bool :=
  match data with
  | PNone | PBool _ | PInt _ | PFloat _ => true
  | _ => false
  end.

(** The counts the verification printed, in order. *)
Definition table_counts (lines : list output) : list (string * sqlval) :=
  omap (fun o => match o with
                 | TableCount name count => Some (name, count)
                 | _ => None
                 end) lines.

(** ** Sample inputs *)

Definition file_of (records : list pyval) : source := Json (PList records).

(** The double nearest to 9.99. *)
Definition price_9_99 : pyval :=
  PFloat (S754_finite false 5623870034678907 (-49)).

(** users.json = [{"id":1,"name":"A","email":"a@x.com"}],
    products.json = [{"id":1,"name":"Widget","price":9.99}], the other three
    files [[]], and no store file. *)
Definition example_world : world :=
  World
    (list_to_map
       [ ("users.json",
          file_of [PDict [("id", PInt 1); ("name", PStr "A");
                          ("email", PStr "a@x.com")]]);
         ("products.json",
          file_of [PDict [("id", PInt 1); ("name", PStr "Widget");
                          ("price", price_9_99)]]);
         ("orders.json", file_of []);
         ("order_items.json", file_of []);
         ("payments.json", file_of []) ])
    ∅ [].

(** ** The documented defaults *)

(** The stored value the specification gives for each optional field left
    out of a record: the empty string, but 0 for [stock] and NULL for
    [payment_date]. *)
Definition documented_defaults : list (string * sqlval) :=
  [ ("phone", SText ""); ("address", SText ""); ("created_at", SText "");
    ("description", SText ""); ("category", SText "");
    ("image_url", SText ""); ("status", SText "");
    ("shipping_address", SText ""); ("payment_method", SText "");
    ("payment_status", SText ""); ("transaction_id", SText "");
    ("stock", SInt 0); ("payment_date", SNull) ].

(** The cell the default of an optional field is stored as, in the column
    of that name. *)
Definition default_cell (L : loader) (f : field) : option sqlval :=
  match f with
  | Required _ => None
  | Optional name d =>
      match adapt d,
            find (fun c => bool_decide (col_name c = name)) (ld_columns L) with
      | Ok sv, Some c =>
          if col_pk c then None else Some (store_cell (col_type c) sv)
      | _, _ => None
      end
  end.

(** The defaults of a loader are stored as documented. *)
Definition documents (L : loader) : bool :=
  forallb (fun f => match f with
                    | Required _ => true
                    | Optional name _ =>
                        match default_cell L f with
                        | Some sv =>
                            bool_decide ((name, sv) ∈ documented_defaults)
                        | None => false
                        end
                    end) (ld_fields L).

(** One user, twice over: two records with the id 1. *)
Definition user_a : pyval :=
  PDict [("id", PInt 1); ("name", PStr "A"); ("email", PStr "a@x.com")].
Definition user_b : pyval :=
  PDict [("id", PInt 1); ("name", PStr "B"); ("email", PStr "b@x.com")].

Definition widget : pyval :=
  PDict [("id", PInt 1); ("name", PStr "Widget"); ("price", price_9_99)].

(** A product without its price and a user without an email. *)
Definition widget_no_price : pyval :=
  PDict [("id", PInt 1); ("name", PStr "Widget")].
Definition user_no_email : pyval :=
  PDict [("id", PInt 1); ("name", PStr "A")].

(** An order of user 42, who need not exist. *)
Definition order_of_42 : pyval :=
  PDict [("id", PInt 1); ("user_id", PInt 42);
         ("order_date", PStr "2024-01-01"); ("total_amount", price_9_99)].

Definition world_of (files : list (string * source)) : world :=
  World (list_to_map files) ∅ [].

(** users.json holds the two users of id 1; the other files are [[]]. *)
Definition twin_world : world :=
  world_of [ ("users.json", file_of [user_a; user_b]);
             ("products.json", file_of []);
             ("orders.json", file_of []);
             ("order_items.json", file_of []);
             ("payments.json", file_of []) ].

(** users.json holds a user without an email; the other files are [[]]. *)
Definition no_email_world : world :=
  world_of [ ("users.json", file_of [user_no_email]);
             ("products.json", file_of []);
             ("orders.json", file_of []);
             ("order_items.json", file_of []);
             ("payments.json", file_of []) ].



(** users.json holds the JSON document [null]. *)
Definition null_users_world : world :=
  world_of [ ("users.json", Json PNone);
             ("products.json", file_of []);
             ("orders.json", file_of []);
             ("order_items.json", file_of []);
             ("payments.json", file_of []) ].

(** An open connection on a store that holds the five empty tables. *)
Definition schema_state : state :=
  State (World ∅ {["ecom.db" := schema]} [])
        (Connection "ecom.db" schema false false false []).

(** A JSON document that is a non-empty object or a non-empty string: it
    has a length and is truthy, but iterating it gives strings. *)
Definition misshapen (data : pyval) : bool :=
  match data with
  | PDict (_ :: _) => true
  | PStr (String _ _) => true
  | _ => false
  end.

(** What the store file holds when a run stops part of the way: the rows of
    the tables in [counts], and no row in the tables of [pending]. *)
Definition kept (counts : list (string * nat)) (pending : list loader)
    (s : state) : Prop :=
  Forall (fun c => count_rows (committed s) (fst c) = Some (snd c)) counts
  /\ Forall (fun L => count_rows (committed s) (ld_table L) = Some 0%nat)
            pending.

(** A value whose storage class is that of the column's affinity, other
    than the float -0.0, or NULL: the column stores it as it is. *)
Definition fits_column (a : affinity) (v : sqlval) : bool :=
  match a, v with
  | _, SNull => true
  | AffInteger, SInt _ => true
  | AffReal, SReal (S754_zero true) => false
  | AffReal, SReal _ => true
  | AffText, SText _ => true
  | _, _ => false
  end.

(** The declared affinity of the column [name] of a loader's table. *)
Definition column_type (L : loader) (name : string) : option affinity :=
  col_type <$> find (fun c => bool_decide (col_name c = name)) (ld_columns L).

(** [id] is the only primary-key column of the loader's table. *)
Definition single_key (L : loader) : bool :=
  forallb (fun c => bool_decide (col_pk c = true <-> col_name c = "id"))
          (ld_columns L).

(** The store files other than the connection's are as in [st0]. *)
Definition others_as (st0 : gmap string (gmap string table)) (s : state)
  : Prop :=
  forall other, other <> db_name (conn s) ->
                stores (env s) !! other = st0 !! other.

(** The five tables are there as declared, in what the connection sees and
    in the store file. *)
Definition shaped (s : state) : Prop :=
  Forall (fun L =>
            (exists rows, view (conn s) !! ld_table L = Some (declared L rows))
            /\ (exists rows, committed s !! ld_table L = Some (declared L rows)))
         descriptions.

(** The files and what the connection holds are as in [s0]; the console and
    the record of calls may differ. *)
Definition same_data (s0 s : state) : Prop :=
  sources (env s) = sources (env s0)
  /\ stores (env s) = stores (env s0)
  /\ db_name (conn s) = db_name (conn s0)
  /\ view (conn s) = view (conn s0)
  /\ in_txn (conn s) = in_txn (conn s0)
  /\ foreign_keys (conn s) = foreign_keys (conn s0)
  /\ closed (conn s) = closed (conn s0).

(** The console holds what it held in [out], and possibly more after it. *)
Definition grown (out : list output) (s : state) : Prop :=
  exists more, stdout (env s) = (out ++ more)%list.

(** The connection is open on its store file, no transaction is pending,
    and the five tables are there. *)
Definition tabled (src : gmap string source) (s : state) : Prop :=
  exists db,
    steady src db s /\ Forall (fun name => is_Some (db !! name)) tables.

(** The console holds, for each table, a line with the number of rows the
    store file has in it. *)
Definition truthful (s : state) : Prop :=
  forall name, name ∈ tables ->
    exists n, count_rows (committed s) name = Some n /\ reported name n s.

(** A user whose email is given as null. *)
Definition user_null_email : pyval :=
  PDict [("id", PInt 2); ("name", PStr "C"); ("email", PNone)].

(** users.json is well-formed and products.json holds a product without
    its price. *)
Definition user_then_no_price_world : world :=
  world_of [ ("users.json", file_of [user_a]);
             ("products.json", file_of [widget_no_price]);
             ("orders.json", file_of []);
             ("order_items.json", file_of []);
             ("payments.json", file_of []) ].

(** users.json holds one user, not in an array. *)
Definition object_users_world : world :=
  world_of [ ("users.json", Json user_a);
             ("products.json", file_of []);
             ("orders.json", file_of []);
             ("order_items.json", file_of []);
             ("payments.json", file_of []) ].

(** The number of records of a file, as [len] counts them; none for a file
    that is skipped. *)
Definition records_in (file : option source) : nat :=
  match file with
  | Some (Json data) => size data
  | _ => 0%nat
  end.

(** The counts a complete run leaves, table by table. *)
Definition file_counts (src : gmap string source) : list (string * nat) :=
  map (fun L => (ld_table L, records_in (src !! ld_file L))) descriptions.

(** [m0] does as [m] does, or else raises OperationalError. *)
Definition tame {A} (m0 m : M A) : Prop :=
  forall s, m0 s = m s \/ exists s', m0 s = (Raise OperationalError, s').

(** A user with the largest key there is, and one whose id is null. *)
Definition user_max : pyval :=
  PDict [("id", PInt max_rowid); ("name", PStr "A");
         ("email", PStr "a@x.com")].
Definition user_null_id : pyval :=
  PDict [("id", PNone); ("name", PStr "B"); ("email", PStr "b@x.com")].

(** users.json holds the user with the largest key, then the user whose id
    is null; the other files are [[]]. *)
Definition max_then_null_world : world :=
  world_of [ ("users.json", file_of [user_max; user_null_id]);
             ("products.json", file_of []);
             ("orders.json", file_of []);
             ("order_items.json", file_of []);
             ("payments.json", file_of []) ].


(** A user whose name is the lone surrogate U+D800, as the JSON text
    "\ud800" gives it, and a product whose price is -0.0. *)
Definition user_surrogate : pyval :=
  PDict [("id", PInt 1);
         ("name", PStr (String (ascii_of_nat 237)
                          (String (ascii_of_nat 160)
                             (String (ascii_of_nat 128) EmptyString))));
         ("email", PStr "a@x.com")].
Definition widget_minus_zero : pyval :=
  PDict [("id", PInt 1); ("name", PStr "Widget");
         ("price", PFloat (S754_zero true))].

(** The record gives an id that is bound as something other than NULL, or
    gives none. *)
Definition keyed (record : pyval) : bool :=
  match record with
  | PDict d =>
      match assoc "id" d with
      | Some v => match adapt v with
                  | Ok SNull => false
                  | _ => true
                  end
      | None => true
      end
  | _ => true
  end.

(** No record of a file gives its id as null or NaN. *)
Definition null_free (src : gmap string source) : Prop :=
  forall file data items,
    src !! file = Some (Json data) ->
    iter data = Ok items ->
    Forall (fun r => keyed r = true) items.

(** The connection is open on its store file, no transaction is pending,
    and the five tables are there as declared. *)
Definition laid_out (src : gmap string source) (s : state) : Prop :=
  exists db,
    steady src db s
    /\ Forall (fun L => exists rows, db !! ld_table L = Some (declared L rows))
              descriptions.

(** ** Lemmas on values and rows *)

Lemma rmap_ext {A B} (f g : A -> result B) l :
  (forall a, f a = g a) -> rmap f l = rmap g l.
Proof.
  intros Hfg. induction l as [|a l IH]; simpl; [done|].
  by rewrite Hfg, IH.
Qed.

Lemma rmap_length {A B} (f : A -> result B) l l' :
  rmap f l = Ok l' -> length l' = length l.
Proof.
  revert l'. induction l as [|a l IH]; simpl; intros l' H.
  - by inversion H.
  - destruct (f a) as [b|]; simpl in H; [|done].
    destruct (rmap f l) as [bs|]; simpl in H; [|done].
    inversion H; subst. simpl. f_equal. by apply IH.
Qed.

Lemma user_row_eq r : user_row r = row_of (ld_fields users_loader) r.
Proof.
  destruct r; try reflexivity.
  unfold user_row, row_of; simpl.
  repeat (destruct (assoc _ items); simpl; try reflexivity).
Qed.

Lemma product_row_eq r : product_row r = row_of (ld_fields products_loader) r.
Proof.
  destruct r; try reflexivity.
  unfold product_row, row_of; simpl.
  repeat (destruct (assoc _ items); simpl; try reflexivity).
Qed.

Lemma order_row_eq r : order_row r = row_of (ld_fields orders_loader) r.
Proof.
  destruct r; try reflexivity.
  unfold order_row, row_of; simpl.
  repeat (destruct (assoc _ items); simpl; try reflexivity).
Qed.

Lemma order_item_row_eq r :
  order_item_row r = row_of (ld_fields order_items_loader) r.
Proof.
  destruct r; try reflexivity.
  unfold order_item_row, row_of; simpl.
  repeat (destruct (assoc _ items); simpl; try reflexivity).
Qed.

Lemma payment_row_eq r : payment_row r = row_of (ld_fields payments_loader) r.
Proof.
  destruct r; try reflexivity.
  unfold payment_row, row_of; simpl.
  repeat (destruct (assoc _ items); simpl; try reflexivity).
Qed.

Lemma comprehension_ext f g data :
  (forall r, f r = g r) -> comprehension f data = comprehension g data.
Proof.
  intros Hfg. unfold comprehension.
  destruct (iter data) as [items|]; simpl; [|done].
  by apply rmap_ext.
Qed.

(** Each loader of the script is the common loader at its description. *)
Lemma loaders_table_loader L insert data :
  (L, insert) ∈ loaders -> insert data = table_loader L data.
Proof.
  unfold loaders. rewrite !elem_of_cons, elem_of_nil.
  intros [H|[H|[H|[H|[H|[]]]]]]; inversion H; subst; clear H;
    unfold table_loader; simpl.
  - unfold insert_users.
    by rewrite (comprehension_ext _ _ data user_row_eq).
  - unfold insert_products.
    by rewrite (comprehension_ext _ _ data product_row_eq).
  - unfold insert_orders.
    by rewrite (comprehension_ext _ _ data order_row_eq).
  - unfold insert_order_items.
    by rewrite (comprehension_ext _ _ data order_item_row_eq).
  - unfold insert_payments.
    by rewrite (comprehension_ext _ _ data payment_row_eq).
Qed.

Lemma rmap_read_present d fs :
  forallb (fun f => match f with
                    | Required name => present d name
                    | Optional _ _ => true
                    end) fs = true ->
  rmap (read_field (PDict d)) fs = Ok (map (field_read d) fs).
Proof.
  induction fs as [|f fs IH]; simpl; [done|].
  rewrite andb_true_iff. intros [Hf Hfs]. rewrite (IH Hfs). clear IH Hfs.
  destruct f as [k|k dflt]; simpl.
  - unfold present in Hf. apply bool_decide_eq_true in Hf as [v Hv].
    by rewrite Hv.
  - by destruct (assoc k d).
Qed.

Lemma rmap_read_missing d fs :
  forallb (fun f => match f with
                    | Required name => present d name
                    | Optional _ _ => true
                    end) fs = false ->
  exists k, Required k ∈ fs /\ assoc k d = None
            /\ rmap (read_field (PDict d)) fs = Raise (KeyError k).
Proof.
  induction fs as [|f fs IH]; simpl; [done|].
  rewrite andb_false_iff. intros Hf.
  destruct f as [k|k dflt]; simpl.
  - destruct (assoc k d) as [v|] eqn:Hk; simpl.
    + destruct Hf as [Hf|Hf].
      { unfold present in Hf. rewrite Hk in Hf.
        apply bool_decide_eq_false in Hf. destruct Hf. by eexists. }
      destruct (IH Hf) as (k' & Hin & Hnone & Hr).
      exists k'. split; [by right|]. split; [done|]. by rewrite Hr.
    + exists k. split; [by left|]. done.
  - destruct Hf as [Hf|Hf]; [done|].
    destruct (IH Hf) as (k' & Hin & Hnone & Hr).
    exists k'. split; [by right|]. split; [done|].
    rewrite Hr. by destruct (assoc k d).
Qed.

Lemma row_of_present L d :
  has_required L (PDict d) = true ->
  row_of (ld_fields L) (PDict d) = Ok (tuple_of L (PDict d)).
Proof.
  intros H. unfold row_of. simpl in H. by rewrite (rmap_read_present _ _ H).
Qed.

Lemma row_of_missing L d :
  has_required L (PDict d) = false ->
  exists k, Required k ∈ ld_fields L /\ assoc k d = None
            /\ row_of (ld_fields L) (PDict d) = Raise (KeyError k).
Proof.
  intros H. destruct (rmap_read_missing _ _ H) as (k & Hin & Hnone & Hr).
  exists k. unfold row_of. by rewrite Hr.
Qed.

(** A batch in which every record is an object and one lacks a required
    field: the comprehension raises the KeyError of a required field. *)
Lemma comprehension_key_error L records :
  Forall (fun r => is_record r = true) records ->
  Exists (fun r => has_required L r = false) records ->
  exists k, Required k ∈ ld_fields L
            /\ comprehension (row_of (ld_fields L)) (PList records)
               = Raise (KeyError k).
Proof.
  unfold comprehension; simpl.
  induction 1 as [|r records Hr Hrs IH]; intros Hex.
  - by apply Exists_nil in Hex.
  - destruct r; try done. simpl.
    destruct (has_required L (PDict items)) eqn:Hreq.
    + rewrite (row_of_present _ _ Hreq). simpl.
      apply Exists_cons in Hex as [Hex|Hex]; [congruence|].
      destruct (IH Hex) as (k & Hin & Hk). exists k. split; [done|].
      by rewrite Hk.
    + destruct (row_of_missing _ _ Hreq) as (k & Hin & _ & Hk).
      exists k. split; [done|]. by rewrite Hk.
Qed.

Lemma comprehension_present L records :
  Forall (fun r => has_required L r = true) records ->
  comprehension (row_of (ld_fields L)) (PList records)
  = Ok (map (tuple_of L) records).
Proof.
  unfold comprehension; simpl.
  induction 1 as [|r records Hr Hrs IH]; simpl; [done|].
  destruct r; try done.
  rewrite (row_of_present _ _ Hr), IH. done.
Qed.

(** ** Lemmas on the store *)

Lemma rmap_adapt_cons v vs svs :
  rmap adapt (v :: vs) = Ok svs ->
  exists sv svs', adapt v = Ok sv /\ rmap adapt vs = Ok svs' /\ svs = sv :: svs'.
Proof.
  simpl. destruct (adapt v) as [sv|]; simpl; [|done].
  destruct (rmap adapt vs) as [svs'|]; simpl; [|done].
  intros H; inversion H; subst. by exists sv, svs'.
Qed.

(** The value the statement supplies for the column of a field is the
    field's value as bound. *)
Lemma supplied_read d fs svs f :
  NoDup (map field_name fs) ->
  rmap adapt (map (field_read d) fs) = Ok svs ->
  f ∈ fs ->
  adapt (field_read d f) = Ok (supplied (map field_name fs) svs (field_name f)).
Proof.
  revert svs. induction fs as [|g fs IH]; intros svs Hnd Hr Hin.
  - by apply elem_of_nil in Hin.
  - simpl in Hr. apply rmap_adapt_cons in Hr as (sv & svs' & Hsv & Hr & ->).
    simpl in Hnd. apply NoDup_cons in Hnd as [Hg Hnd].
    apply elem_of_cons in Hin as [->|Hin]; simpl.
    + by rewrite decide_True.
    + rewrite decide_False; [by apply IH|].
      intros Heq. apply Hg. rewrite Heq. apply list_elem_of_fmap.
      by exists f.
Qed.

Lemma check_not_null_ok name cs (value_of : string -> sqlval) :
  (forall c, c ∈ cs -> col_notnull c = true -> col_pk c = false ->
             value_of (col_name c) <> SNull) ->
  check_not_null name cs value_of = Ok tt.
Proof.
  induction cs as [|c cs IH]; intros H; simpl; [done|].
  destruct (col_notnull c) eqn:Hn; simpl.
  - destruct (col_pk c) eqn:Hp; simpl.
    + apply IH. intros c' Hc'. apply H. by right.
    + rewrite bool_decide_eq_false_2.
      * apply IH. intros c' Hc'. apply H. by right.
      * apply H; [by left|done|done].
  - apply IH. intros c' Hc'. apply H. by right.
Qed.

Lemma existsb_required_name name fs :
  existsb (required_name name) fs = true -> Required name ∈ fs.
Proof.
  induction fs as [|f fs IH]; simpl; [done|].
  rewrite orb_true_iff. intros [H|H].
  - destruct f as [k|]; simpl in H; [|done].
    apply bool_decide_eq_true in H as ->. by left.
  - right. by apply IH.
Qed.

Lemma filled_adapt v :
  filled v = true -> exists sv, adapt v = Ok sv /\ sv <> SNull.
Proof.
  unfold filled. destruct (adapt v) as [sv|]; [|done].
  intros H. exists sv. split; [done|]. by intros ->.
Qed.

Lemma scalar_adapt v : scalar v = true -> exists sv, adapt v = Ok sv.
Proof.
  unfold scalar. destruct (adapt v) as [sv|]; [|done]. by exists sv.
Qed.

Lemma int64_adapt v z : int64 v = Some z -> v = PInt z /\ adapt v = Ok (SInt z).
Proof.
  destruct v; simpl; try done.
  destruct (_ && _); [|done]. intros H; by inversion H.
Qed.

(** Every field of a well-formed record is read as a scalar. *)
Lemma field_ok_adapt fs d :
  forallb (fun f => match f with
                    | Required _ => true
                    | Optional _ dflt => scalar dflt
                    end) fs = true ->
  forallb (field_ok d) fs = true ->
  exists svs, rmap adapt (map (field_read d) fs) = Ok svs.
Proof.
  induction fs as [|f fs IH]; simpl; [by exists []|].
  rewrite !andb_true_iff. intros [Hd Hds] [Hf Hfs].
  destruct (IH Hds Hfs) as [svs Hsvs]. rewrite Hsvs.
  assert (exists sv, adapt (field_read d f) = Ok sv) as [sv Hsv].
  { unfold field_ok in Hf. destruct f as [k|k dflt]; simpl in *.
    - destruct (assoc k d) as [v|]; [|done]. simpl.
      destruct (filled_adapt _ Hf) as (sv & ? & _). by exists sv.
    - destruct (assoc k d) as [v|]; simpl; by apply scalar_adapt. }
  rewrite Hsv. by eexists.
Qed.

Lemma fits_parts L :
  fits L = true ->
  map col_name (ld_columns L) = ld_names L
  /\ NoDup (ld_names L)
  /\ (forall value_of, pk_value (ld_columns L) value_of = value_of "id")
  /\ Required "id" ∈ ld_fields L
  /\ forallb (fun f => match f with
                       | Required _ => true
                       | Optional _ d => scalar d
                       end) (ld_fields L) = true
  /\ (forall c, c ∈ ld_columns L -> col_notnull c = true -> col_pk c = false ->
                Required (col_name c) ∈ ld_fields L).
Proof.
  unfold fits. rewrite !andb_true_iff, !bool_decide_eq_true.
  intros [[[[[Hn Hd] Hpk] Hid] Hsc] Hnn].
  repeat split; try done.
  - intros value_of. unfold pk_value.
    destruct (filter _ (ld_columns L)) as [|c ?]; simpl in Hpk; [done|].
    by inversion Hpk.
  - by apply existsb_required_name.
  - intros c Hc Hnotnull Hnopk.
    rewrite forallb_forall in Hnn. apply list_elem_of_In in Hc.
    specialize (Hnn c Hc). rewrite Hnotnull, Hnopk in Hnn. simpl in Hnn.
    by apply existsb_required_name.
Qed.

(** The tuple of a well-formed record is accepted under the record's id. *)
Lemma well_formed_accepted L r :
  fits L = true ->
  well_formed L r = true ->
  has_required L r = true
  /\ exists z, record_id r = Some z /\ accepted L (tuple_of L r) = Some z.
Proof.
  intros Hfits Hwf. destruct r as [| | | | | |d|]; try done.
  destruct (fits_parts L Hfits) as (Hcols & Hnd & Hpk & Hid & Hsc & Hnn).
  simpl in Hwf. apply andb_true_iff in Hwf as [Hok Hsome].
  apply bool_decide_eq_true in Hsome as [z Hz].
  destruct (field_ok_adapt _ d Hsc Hok) as [svs Hsvs].
  assert (forall k, Required k ∈ ld_fields L ->
            exists v sv, assoc k d = Some v /\ adapt v = Ok sv /\ sv <> SNull
                         /\ supplied (ld_names L) svs k = sv) as Hreq.
  { intros k Hk. rewrite forallb_forall in Hok.
    pose proof (Hok _ (proj1 (list_elem_of_In _ _) Hk)) as Hf.
    unfold field_ok in Hf. simpl in Hf.
    destruct (assoc k d) as [v|] eqn:Hv; [|done].
    destruct (filled_adapt _ Hf) as (sv & Hsv & Hne).
    exists v, sv. repeat split; try done.
    pose proof (supplied_read d _ svs _ Hnd Hsvs Hk) as Hs.
    simpl in Hs. rewrite Hv in Hs. simpl in Hs.
    unfold ld_names. congruence. }
  split.
  - simpl. apply forallb_forall. intros f Hf. destruct f as [k|]; [|done].
    apply list_elem_of_In in Hf. destruct (Hreq k Hf) as (v & _ & Hv & _).
    unfold present. rewrite Hv. by apply bool_decide_eq_true.
  - exists z. split; [done|].
    unfold accepted, tuple_of, bind_parameters.
    rewrite decide_True by (unfold ld_names; by rewrite !length_map).
    rewrite Hsvs, Hpk.
    destruct (Hreq "id" Hid) as (v & sv & Hv & Hsv & _ & Hsup).
    simpl in Hz. rewrite Hv in Hz. simpl in Hz.
    apply int64_adapt in Hz as [-> Hz]. rewrite Hsup.
    assert (sv = SInt z) as -> by congruence.
    rewrite check_not_null_ok; [done|].
    intros c Hc Hnotnull Hnopk.
    destruct (Hreq _ (Hnn c Hc Hnotnull Hnopk)) as (? & ? & _ & _ & ? & ->).
    done.
Qed.

Lemma prepare_insert_fits L db rows :
  fits L = true ->
  db !! ld_table L = Some (declared L rows) ->
  prepare_insert db (ld_table L) (ld_names L) = Ok (declared L rows).
Proof.
  intros Hfits Hdb. unfold prepare_insert. rewrite Hdb. simpl.
  destruct (fits_parts L Hfits) as (Hcols & _).
  rewrite Hcols.
  assert (forallb (fun c => bool_decide (c ∈ ld_names L)) (ld_names L) = true)
    as ->; [|done].
  apply forallb_forall. intros c Hc. apply bool_decide_eq_true.
  by apply list_elem_of_In.
Qed.

(** Without foreign-key enforcement an accepted tuple with a fresh key is
    stored, whatever the other tables hold. *)
Lemma insert_row_accepted L db rows tuple values z :
  fits L = true ->
  db !! ld_table L = Some (declared L rows) ->
  bind_parameters (length (ld_names L)) tuple = Ok values ->
  accepted L tuple = Some z ->
  z ∉ map fst rows ->
  insert_row false db (ld_table L) (ld_names L) values
  = Ok (<[ld_table L :=
            declared L (rows ++ [(z, stored_cells (ld_columns L)
                                       (supplied (ld_names L) values) z)])]>
          db).
Proof.
  intros Hfits Hdb Hbind Hacc Hfresh. unfold insert_row.
  rewrite (prepare_insert_fits L db rows Hfits Hdb). simpl.
  unfold accepted in Hacc. rewrite Hbind in Hacc.
  destruct (pk_value _ _) as [|z'| |]; try done.
  destruct (check_not_null _ _ _) as [[]|]; [|done].
  inversion Hacc; subst z'. simpl.
  unfold rowids. simpl. rewrite bool_decide_eq_false_2 by done. done.
Qed.

Lemma accepted_bound L tuple z :
  accepted L tuple = Some z ->
  exists values, bind_parameters (length (ld_names L)) tuple = Ok values.
Proof.
  unfold accepted. destruct (bind_parameters _ _) as [values|]; [|done].
  by exists values.
Qed.

(** Accepted tuples whose keys are new and pairwise different are all
    stored, in order. *)
Lemma insert_rows_accepted L tuples : forall db rows keys,
  fits L = true ->
  db !! ld_table L = Some (declared L rows) ->
  Forall2 (fun tuple z => accepted L tuple = Some z) tuples keys ->
  NoDup (map fst rows ++ keys) ->
  insert_rows false db (ld_table L) (ld_names L) tuples
  = (Ok tt,
     <[ld_table L := declared L (rows ++ zip_with (row_for L) tuples keys)]> db).
Proof.
  induction tuples as [|tuple tuples IH]; intros db rows keys Hfits Hdb Hall Hnd.
  - inversion Hall; subst. simpl. rewrite app_nil_r.
    by rewrite insert_id.
  - inversion Hall as [|? z ? keys' Hacc Hall']; subst. simpl.
    destruct (accepted_bound _ _ _ Hacc) as [values Hbind].
    rewrite Hbind.
    assert (z ∉ map fst rows) as Hfresh.
    { apply NoDup_app in Hnd as (_ & Hdisj & _). intros Hin.
      apply (Hdisj _ Hin). by left. }
    rewrite (insert_row_accepted L db rows tuple values z) by done.
    rewrite (IH _ (rows ++ [(z, stored_cells (ld_columns L)
                                  (supplied (ld_names L) values) z)])%list
                keys').
    + rewrite insert_insert_eq. unfold row_for at 2. rewrite Hbind.
      by rewrite <- app_assoc.
    + done.
    + by rewrite lookup_insert_eq.
    + done.
    + rewrite map_app. simpl. rewrite <- app_assoc. simpl.
      apply NoDup_app in Hnd as (Hr & Hdisj & Hk).
      apply NoDup_cons in Hk as [Hz Hk].
      apply NoDup_app. split; [done|]. split; [|by apply NoDup_cons].
      intros x Hx Hx'. apply elem_of_cons in Hx' as [->|Hx'].
      * done.
      * apply (Hdisj _ Hx). by right.
Qed.

Lemma table_eta t : Table (tbl_columns t) (tbl_fks t) (tbl_rows t) = t.
Proof. by destruct t. Qed.

Lemma insert_row_inv fk db name columns values db' :
  insert_row fk db name columns values = Ok db' ->
  exists t z,
    db !! name = Some t
    /\ db' = <[name := Table (tbl_columns t) (tbl_fks t)
                 (tbl_rows t ++ [(z, stored_cells (tbl_columns t)
                                       (supplied columns values) z)])]> db.
Proof.
  unfold insert_row, prepare_insert.
  destruct (db !! name) as [t|] eqn:Ht; simpl; [|done].
  destruct (forallb _ columns); simpl; [|done].
  destruct (rowid_of _ _ _) as [z|]; simpl; [|done].
  destruct (check_not_null _ _ _); simpl; [|done].
  destruct (bool_decide _); simpl; [done|].
  destruct fk; simpl.
  - destruct (check_foreign_keys _ _ _ _); simpl; [|done].
    intros H; inversion H; subst. by exists t, z.
  - intros H; inversion H; subst. by exists t, z.
Qed.

(** The rows a tuple list adds to the table it is inserted in: one per
    tuple up to the first that fails, each with the cells of its tuple; the
    other tables stay as they are. *)
Lemma insert_rows_inv fk tuples : forall db name columns t r db',
  db !! name = Some t ->
  insert_rows fk db name columns tuples = (r, db') ->
  exists new,
    db' = <[name := Table (tbl_columns t) (tbl_fks t) (tbl_rows t ++ new)]> db
    /\ (r = Ok tt ->
        Forall2 (fun tuple row =>
                   exists values,
                     bind_parameters (length columns) tuple = Ok values
                     /\ snd row = stored_cells (tbl_columns t)
                                    (supplied columns values) (fst row))
                tuples new).
Proof.
  induction tuples as [|tuple tuples IH]; intros db name columns t r db' Ht H.
  - simpl in H. inversion H; subst. exists []. split; [|by constructor].
    rewrite app_nil_r, table_eta. by rewrite insert_id.
  - simpl in H.
    destruct (bind_parameters _ tuple) as [values|] eqn:Hbind.
    2:{ inversion H; subst. exists []. split; [|done].
        rewrite app_nil_r, table_eta. by rewrite insert_id. }
    destruct (insert_row fk db name columns values) as [db1|] eqn:Hrow.
    2:{ inversion H; subst. exists []. split; [|done].
        rewrite app_nil_r, table_eta. by rewrite insert_id. }
    apply insert_row_inv in Hrow as (t' & z & Ht' & ->).
    assert (t' = t) as -> by congruence.
    eapply IH in H as (new & -> & Hnew); [|by rewrite lookup_insert_eq].
    simpl. exists ((z, stored_cells (tbl_columns t) (supplied columns values) z)
                   :: new).
    split.
    + rewrite insert_insert_eq. by rewrite <- app_assoc.
    + intros Hr. constructor; [|by apply Hnew].
      exists values. by split.
Qed.

(** ** The calls, run *)

Lemma load_json_file_run file_path s :
  load_json_file file_path s
  = (loaded (sources (env s) !! file_path),
     State (says (load_says file_path (sources (env s) !! file_path)) (env s))
           (conn s)).
Proof.
  destruct s as [[src sto out] k].
  unfold load_json_file, try_except, json_load, loaded, load_says, says.
  simpl. unfold mbind, M_bind. simpl.
  destruct (src !! file_path) as [[why| |detail| |data]|]; simpl.
  - destruct why; simpl; by rewrite app_nil_r.
  - by rewrite app_nil_r.
  - done.
  - by rewrite app_nil_r.
  - unfold lift. destruct (len data) as [n|e] eqn:Hlen; simpl; [done|].
    destruct data; simpl in Hlen; inversion Hlen; subst; simpl;
      by rewrite app_nil_r.
  - done.
Qed.

Lemma comprehension_len f data rows :
  comprehension f data = Ok rows -> len data = Ok (size data).
Proof.
  unfold comprehension, size. by destruct data.
Qed.

(** A loader, case by case. *)
Lemma table_loader_run L data s :
  table_loader L data s
  = if negb (truthy data) then (Ok tt, s)
    else if closed (conn s) then (Raise ProgrammingError, s)
    else
      match comprehension (row_of (ld_fields L)) data with
      | Raise e => (Raise e, s)
      | Ok rows =>
          let q := InsertInto (ld_table L) (ld_names L) in
          let k := called (ExecuteMany q (length rows)) (conn s) in
          match prepare_insert (view k) (ld_table L) (ld_names L) with
          | Raise e => (Raise e, State (env s) k)
          | Ok _ =>
              match insert_rows (foreign_keys k) (view k) (ld_table L)
                                (ld_names L) rows with
              | (Raise e, v) => (Raise e, State (env s) (set_view v true k))
              | (Ok _, v) => (Ok tt, inserted L data (length rows) v s)
              end
          end
      end.
Proof.
  destruct s as [w k]. unfold table_loader.
  destruct (truthy data); simpl; [|done].
  unfold mbind, M_bind, cursor, lift, executemany, commit, print. simpl.
  destruct (closed k) eqn:Hclosed; simpl; [done|].
  destruct (comprehension _ data) as [rows|e] eqn:Hrows; simpl; [|done].
  rewrite Hclosed.
  destruct (prepare_insert _ _ _) as [t|e]; simpl; [|done].
  destruct (insert_rows _ _ _ _ rows) as [[[]|e] v]; simpl; [|done].
  rewrite Hclosed. simpl.
  rewrite (comprehension_len _ _ _ Hrows). simpl.
  unfold inserted, set_view, called. simpl.
  by rewrite <- (assoc_L (++)).
Qed.

(** ** Rules for triples *)

Lemma hoare_bind {A B} P (m : M A) (k : A -> M B) Q' Q R :
  hoare P m Q' R -> (forall a, hoare (Q' a) (k a) Q R) ->
  hoare P (m ≫= k) Q R.
Proof.
  intros Hm Hk s HP. specialize (Hm s HP).
  unfold mbind, M_bind. destruct (m s) as [[a|e] s']; [|done].
  by apply Hk.
Qed.

Lemma hoare_weaken {A} (P P' : state -> Prop) (m : M A)
    (Q Q' : A -> state -> Prop) (R R' : exn -> state -> Prop) :
  hoare P m Q R ->
  (forall s, P' s -> P s) ->
  (forall a s, Q a s -> Q' a s) ->
  (forall e s, R e s -> R' e s) ->
  hoare P' m Q' R'.
Proof.
  intros Hm HP HQ HR s Hs. specialize (Hm s (HP s Hs)).
  destruct (m s) as [[a|e] s']; auto.
Qed.

Lemma hoare_mret {A} (P : state -> Prop) (a : A) Q R :
  (forall s, P s -> Q a s) -> hoare P (mret a) Q R.
Proof. intros H s Hs. by apply H. Qed.

Lemma hoare_try_except {A} P (body : M A) handler Q R R' :
  hoare P body Q R' -> (forall e, hoare (R' e) (handler e) Q R) ->
  hoare P (try_except body handler) Q R.
Proof.
  intros Hb Hh s HP. specialize (Hb s HP). unfold try_except.
  destruct (body s) as [[a|e] s']; [done|]. by apply Hh.
Qed.

Lemma hoare_if {A} P (b : bool) (m1 m2 : M A) Q R :
  (b = true -> hoare P m1 Q R) -> (b = false -> hoare P m2 Q R) ->
  hoare P (if b then m1 else m2) Q R.
Proof. destruct b; auto. Qed.

Lemma keeps_mret {A} P (a : A) : keeps P (mret a).
Proof. by intros s Hs. Qed.

Lemma keeps_raise {A} P e : keeps P (raise e : M A).
Proof. by intros s Hs. Qed.

Lemma keeps_lift {A} P (r : result A) : keeps P (lift r).
Proof. intros s Hs. unfold lift. by destruct r. Qed.

Lemma keeps_bind {A B} P (m : M A) (k : A -> M B) :
  keeps P m -> (forall a, keeps P (k a)) -> keeps P (m ≫= k).
Proof. intros Hm Hk. by apply hoare_bind with (Q' := fun _ => P). Qed.

Lemma keeps_try_except {A} P (body : M A) handler :
  keeps P body -> (forall e, keeps P (handler e)) ->
  keeps P (try_except body handler).
Proof. intros Hb Hh. by apply hoare_try_except with (R' := fun _ => P). Qed.

Lemma keeps_if {A} P (b : bool) (m1 m2 : M A) :
  keeps P m1 -> keeps P m2 -> keeps P (if b then m1 else m2).
Proof. by destruct b. Qed.

Lemma keeps_for_each {A} P (l : list A) body :
  (forall a, keeps P (body a)) -> keeps P (for_each l body).
Proof.
  intros Hb. induction l as [|a l IH]; simpl.
  - apply keeps_mret.
  - apply keeps_bind; [apply Hb|]. by intros _.
Qed.

Lemma keeps_cursor P : keeps P cursor.
Proof. intros s Hs. unfold cursor. by destruct (closed (conn s)). Qed.

Lemma keeps_json_load P file_path : keeps P (json_load file_path).
Proof.
  intros s Hs. unfold json_load.
  by destruct (sources (env s) !! file_path) as [[]|].
Qed.

Lemma keeps_print P o : quiet P -> keeps P (print o).
Proof. intros HP s Hs. unfold print. simpl. apply (HP s [o] Hs). Qed.

Lemma keeps_load_json_file P file_path :
  quiet P -> keeps P (load_json_file file_path).
Proof.
  intros HP s Hs. rewrite load_json_file_run.
  destruct (loaded _); by apply HP.
Qed.

Lemma quiet_inv src : quiet (inv src).
Proof. by intros [[] ?] lines. Qed.

Lemma quiet_and P Q : quiet P -> quiet Q -> quiet (fun s => P s /\ Q s).
Proof. intros HP HQ s lines [? ?]. split; [by apply HP|by apply HQ]. Qed.

Lemma quiet_synced : quiet synced.
Proof. by intros [[] ?] lines. Qed.

Lemma quiet_clean name : quiet (clean name).
Proof. by intros [[] ?] lines. Qed.

Lemma quiet_steady src db : quiet (steady src db).
Proof. by intros [[] ?] lines. Qed.

Lemma inv_execute src q : keeps (inv src) (execute q).
Proof.
  intros [w k] (Hsrc & Hname & Hclosed & Hfk). simpl in *. unfold execute.
  simpl. rewrite Hclosed.
  destruct q as [name columns fks|name columns|name]; simpl.
  - unfold inv. simpl. by destruct (in_txn k).
  - done.
  - by destruct (count_rows (view k) name).
Qed.

Lemma inv_executemany src q rows : keeps (inv src) (executemany q rows).
Proof.
  intros [w k] (Hsrc & Hname & Hclosed & Hfk). simpl in *. unfold executemany.
  simpl. rewrite Hclosed.
  destruct q as [name columns fks|name columns|name]; simpl; try done.
  destruct (prepare_insert _ _ _); simpl; [|done].
  by destruct (insert_rows _ _ _ _ _) as [[[]|e] v].
Qed.

Lemma inv_commit src : keeps (inv src) commit.
Proof.
  intros [w k] (Hsrc & Hname & Hclosed & Hfk). simpl in *. unfold commit.
  simpl. rewrite Hclosed. unfold inv. simpl. by destruct (in_txn k).
Qed.

Lemma inv_rollback src : keeps (inv src) rollback.
Proof.
  intros [w k] (Hsrc & Hname & Hclosed & Hfk). simpl in *. unfold rollback.
  simpl. by rewrite Hclosed.
Qed.

Create HintDb keeps.
#[local] Hint Resolve keeps_mret keeps_raise keeps_lift keeps_cursor
  keeps_json_load keeps_print keeps_load_json_file quiet_inv quiet_synced
  quiet_clean quiet_steady quiet_and inv_execute inv_executemany inv_commit
  inv_rollback : keeps.

Ltac keeps_step :=
  first [ solve [eauto with keeps]
        | apply keeps_bind; [|intros ?]
        | apply keeps_if
        | apply keeps_for_each; intros ?
        | apply keeps_try_except; [|intros ?] ].

Lemma inv_table_loader src L data : keeps (inv src) (table_loader L data).
Proof. unfold table_loader. repeat keeps_step. Qed.

Lemma inv_loaders src L insert data :
  (L, insert) ∈ loaders -> keeps (inv src) (insert data).
Proof.
  intros Hin. rewrite (loaders_table_loader _ _ data Hin).
  apply inv_table_loader.
Qed.

Lemma inv_create_tables src : keeps (inv src) create_tables.
Proof. unfold create_tables. repeat keeps_step. Qed.

Lemma inv_verify_data src : keeps (inv src) verify_data.
Proof. unfold verify_data. repeat keeps_step. Qed.

Ltac in_loaders :=
  unfold loaders;
  repeat first [ apply list_elem_of_here | apply list_elem_of_further ].

Lemma inv_main_try src : keeps (inv src) main_try.
Proof.
  unfold main_try.
  repeat first [ apply inv_create_tables
               | apply inv_verify_data
               | match goal with
                 | |- keeps _ (?f ?d) =>
                     eapply (inv_loaders src _ f d); in_loaders
                 end
               | keeps_step ].
Qed.

(** ** The frame of [main] *)

Lemma main_started w :
  main w = try_finally (try_except main_try main_except) main_finally
             (started w).
Proof.
  unfold main, started. by destruct (create_database _ _).
Qed.

Lemma started_steady w : steady (sources w) ∅ (started w).
Proof.
  destruct w as [src sto out]. unfold started, create_database, connect.
  simpl. destruct (bool_decide _) eqn:Hex; simpl.
  - rewrite lookup_delete_eq. simpl.
    repeat split; simpl; by rewrite ?lookup_insert_eq.
  - apply bool_decide_eq_false in Hex.
    destruct (sto !! "ecom.db") as [db|] eqn:Hdb.
    { destruct Hex. by exists db. }
    simpl. repeat split; simpl; by rewrite ?lookup_insert_eq.
Qed.

Lemma main_finally_run s : main_finally s = (Ok tt, finished s).
Proof. by destruct s as [w k]. Qed.

Lemma main_except_run e s :
  closed (conn s) = false -> main_except e s = (Raise e, rolled_back e s).
Proof.
  destruct s as [w k]. simpl. intros Hclosed.
  unfold main_except, mbind, M_bind, print, rollback, raise. simpl.
  by rewrite Hclosed.
Qed.

(** [main], by the way its [try] ends. *)
Lemma main_run w :
  main w = match main_try (started w) with
           | (Ok _, s) => (Ok tt, finished s)
           | (Raise e, s) => (Raise e, finished (rolled_back e s))
           end.
Proof.
  rewrite main_started. unfold try_finally, try_except.
  pose proof (inv_main_try (sources w) (started w)) as Hinv.
  destruct (started_steady w) as (Hstart & _).
  specialize (Hinv Hstart).
  destruct (main_try (started w)) as [[[]|e] s].
  - by rewrite main_finally_run.
  - destruct Hinv as (_ & _ & Hclosed & _).
    rewrite (main_except_run e s Hclosed). by rewrite main_finally_run.
Qed.

(** C7.  Whatever the files hold: when a step of the [try] of [main] raises,
    [main] calls [rollback] on the connection and then [close], and raises
    the same exception; when no step raises, [main] calls [close] and
    returns; in both cases [close] is the last call on the connection and
    the connection is closed when [main] ends. *)
Theorem main_rollback_and_close w :
  closed (conn (snd (main w))) = true
  /\ last (calls (conn (snd (main w)))) = Some Close
  /\ match main_try (started w) with
     | (Ok _, s) =>
         fst (main w) = Ok tt
         /\ calls (conn (snd (main w))) = (calls (conn s) ++ [Close])%list
     | (Raise e, s) =>
         fst (main w) = Raise e
         /\ calls (conn (snd (main w)))
            = (calls (conn s) ++ [Rollback; Close])%list
     end.
Proof.
  rewrite main_run.
  destruct (main_try (started w)) as [[[]|e] s]; simpl.
  - split; [done|]. split; [by rewrite last_snoc|done].
  - split; [done|]. split; [by rewrite last_snoc|].
    split; [done|]. by rewrite <- (assoc_L (++)).
Qed.

(** ** The steps of [main] on usable files *)

Lemma loaders_fit L insert : (L, insert) ∈ loaders -> fits L = true.
Proof.
  unfold loaders. rewrite !elem_of_cons, elem_of_nil.
  intros [H|[H|[H|[H|[H|[]]]]]]; inversion H; subst; by vm_compute.
Qed.

Lemma steady_print src db o :
  hoare (steady src db) (print o) (fun _ => steady src db) (fun _ _ => False).
Proof. intros [[] ?] Hs. exact Hs. Qed.

Lemma steady_cursor src db :
  hoare (steady src db) cursor (fun _ => steady src db) (fun _ _ => False).
Proof.
  intros s Hs. unfold cursor.
  destruct Hs as ((? & ? & Hclosed & ?) & ?). by rewrite Hclosed.
Qed.

Lemma steady_commit src db :
  hoare (steady src db) commit (fun _ => steady src db) (fun _ _ => False).
Proof.
  intros [w k] ((? & ? & Hclosed & ?) & (Htxn & ?) & ?). simpl in *.
  unfold commit. simpl. rewrite Hclosed, Htxn. by repeat split.
Qed.

Lemma steady_create src db name columns fks :
  db !! name = None ->
  hoare (steady src db) (execute (CreateTableIfNotExists name columns fks))
        (fun _ => steady src (<[name := Table columns fks []]> db))
        (fun _ _ => False).
Proof.
  intros Hnone [w k] ((? & ? & Hclosed & ?) & (Htxn & ?) & Hview).
  simpl in *. unfold execute. simpl. rewrite Hclosed, Htxn, Hview, Hnone.
  repeat split; simpl; try done. by rewrite lookup_insert_eq.
Qed.

Lemma create_tables_steady src :
  hoare (steady src ∅) create_tables (fun _ => steady src schema)
        (fun _ _ => False).
Proof.
  unfold create_tables, schema.
  eapply hoare_bind; [apply steady_cursor|intros ?; cbv beta].
  do 5 (eapply hoare_bind; [by apply steady_create|intros ?; cbv beta]).
  eapply hoare_bind; [apply steady_commit|intros ?; cbv beta].
  apply steady_print.
Qed.

(** The ids of well-formed records are the keys their tuples are accepted
    under. *)
Lemma well_formed_keys L records :
  fits L = true ->
  Forall (fun r => well_formed L r = true) records ->
  Forall (fun r => has_required L r = true) records
  /\ exists keys,
       map record_id records = map Some keys
       /\ Forall2 (fun tuple z => accepted L tuple = Some z)
                  (map (tuple_of L) records) keys.
Proof.
  intros Hfits. induction 1 as [|r records Hr Hrs [IH1 (keys & IH2 & IH3)]].
  - split; [done|]. by exists [].
  - destruct (well_formed_accepted L r Hfits Hr) as (Hreq & z & Hz & Hacc).
    split; [by constructor|]. exists (z :: keys). simpl.
    split; [by rewrite Hz, IH2|]. by constructor.
Qed.

(** A batch of well-formed records with pairwise different ids, not empty,
    goes into the empty table of its loader, one row per record. *)
Lemma table_loader_well_formed L src db records s :
  fits L = true ->
  well_formed_file L records ->
  records <> [] ->
  db !! ld_table L = Some (declared L []) ->
  steady src db s ->
  exists rows,
    length rows = length records
    /\ table_loader L (PList records) s
       = (Ok tt, inserted L (PList records) (length records)
                   (<[ld_table L := declared L rows]> db) s).
Proof.
  intros Hfits [Hwf Hnd] Hne Hdb ((Hsrc & Hname & Hclosed & Hfk) & _ & Hview).
  destruct (well_formed_keys L records Hfits Hwf) as (Hreq & keys & Hids & Hacc).
  exists (zip_with (row_for L) (map (tuple_of L) records) keys).
  assert (length keys = length records) as Hlen.
  { apply Forall2_length in Hacc. by rewrite length_map in Hacc. }
  split.
  { rewrite length_zip_with, length_map. lia. }
  rewrite table_loader_run.
  destruct records as [|r records].
  { done. }
  change (negb (truthy (PList (r :: records)))) with false. cbv iota.
  rewrite Hclosed, (comprehension_present L _ Hreq). cbv zeta.
  change (view (called _ (conn s))) with (view (conn s)).
  change (foreign_keys (called _ (conn s))) with (foreign_keys (conn s)).
  rewrite Hview, Hfk, (prepare_insert_fits L db [] Hfits Hdb).
  rewrite (insert_rows_accepted L _ db [] keys Hfits Hdb Hacc).
  - by rewrite length_map.
  - simpl. rewrite Hids in Hnd. change (NoDup (Some <$> keys)) in Hnd.
    by apply (NoDup_fmap_1 Some).
Qed.

Lemma steady_inserted L data n src db v s :
  steady src db s -> steady src v (inserted L data n v s).
Proof.
  destruct s as [[] k]. intros ((? & ? & ? & ?) & ? & ?). simpl in *.
  repeat split; simpl; try done. by rewrite lookup_insert_eq.
Qed.

Lemma usable_step L insert src db records :
  (L, insert) ∈ loaders ->
  usable L (src !! ld_file L) records ->
  db !! ld_table L = Some (declared L []) ->
  hoare (steady src db) (load_and_insert L insert)
        (fun _ s => exists rows,
             length rows = length records
             /\ steady src (<[ld_table L := declared L rows]> db) s)
        (fun _ _ => False).
Proof.
  intros Hin Hus Hdb s Hs. unfold load_and_insert, mbind, M_bind.
  rewrite load_json_file_run.
  pose proof (quiet_steady src db s
                (load_says (ld_file L) (sources (env s) !! ld_file L)) Hs)
    as Hs'.
  destruct Hs as ((Hsrc & _) & _). rewrite Hsrc in *.
  destruct Hus as [[-> ->]|[(d & -> & ->)|[-> Hwf]]]; simpl in *.
  - exists []. split; [done|]. by rewrite insert_id.
  - exists []. split; [done|]. by rewrite insert_id.
  - destruct records as [|r records]; simpl.
    + exists []. split; [done|]. by rewrite insert_id.
    + rewrite (loaders_table_loader _ _ _ Hin).
      edestruct (table_loader_well_formed L src db (r :: records))
        as (rows & Hlen & ->); [by eapply loaders_fit|done|done|done|exact Hs'|].
      exists rows. split; [done|]. by eapply steady_inserted.
Qed.

Lemma prepare_insert_inv db name columns t :
  prepare_insert db name columns = Ok t -> db !! name = Some t.
Proof.
  unfold prepare_insert. destruct (db !! name); [|done].
  destruct (forallb _ _); [|done]. by intros [= ->].
Qed.

(** A loader leaves the tables of the others alone, however it ends. *)
Lemma untouched_table_loader L data src name :
  ld_table L <> name ->
  hoare (untouched src name) (table_loader L data)
        (fun _ => untouched src name)
        (fun _ s => inv src s /\ clean name s).
Proof.
  intros Hne [w k] (Hinv & (Htxn & Hsto) & Hclean).
  pose proof Hinv as (Hsrc & Hname & Hclosed & Hfk).
  rewrite table_loader_run. simpl in *.
  destruct (truthy data); simpl; [|done]. rewrite Hclosed.
  destruct (comprehension _ _) as [rows|e]; [|done]. cbv zeta.
  destruct (prepare_insert _ _ _) as [t|e] eqn:Hprep; [|done].
  apply prepare_insert_inv in Hprep. simpl in Hprep.
  destruct (insert_rows _ _ _ _ _) as [[[]|e] v] eqn:Hrows; [|done].
  simpl in Hrows.
  destruct (insert_rows_inv _ _ _ _ _ _ _ _ Hprep Hrows) as (new & -> & _).
  split; [done|]. split.
  - split; [done|]. simpl. by rewrite lookup_insert_eq.
  - destruct Hclean as (t0 & Ht0 & Hrows0). exists t0. split; [|done].
    unfold committed in *. simpl in *. rewrite lookup_insert_eq. simpl.
    rewrite lookup_insert_ne by done. by rewrite Hsto in Ht0.
Qed.

Lemma quiet_untouched src name : quiet (untouched src name).
Proof. by intros [[] ?] lines. Qed.

Lemma untouched_step L insert src name :
  (L, insert) ∈ loaders ->
  ld_table L <> name ->
  hoare (untouched src name) (load_and_insert L insert)
        (fun _ => untouched src name)
        (fun _ s => inv src s /\ clean name s).
Proof.
  intros Hin Hne. unfold load_and_insert.
  eapply hoare_bind.
  - eapply hoare_weaken; [apply keeps_load_json_file, quiet_untouched|..].
    + done.
    + intros a s Hs. exact Hs.
    + by intros e s (? & _ & ?).
  - intros data. cbv beta. apply hoare_if; intros _.
    + rewrite (loaders_table_loader _ _ _ Hin).
      by apply untouched_table_loader.
    + by apply hoare_mret.
Qed.

Lemma dies_step L insert src :
  dies L insert src ->
  hoare (untouched src (ld_table L)) (load_and_insert L insert)
        (fun _ _ => False)
        (fun _ s => inv src s /\ clean (ld_table L) s).
Proof.
  intros Hdies s (Hinv & _ & Hclean).
  destruct (Hdies s Hinv) as (e & lines & ->).
  split; [by apply quiet_inv|by apply quiet_clean].
Qed.

Lemma hoare_false {A} (m : M A) Q R : hoare (fun _ => False) m Q R.
Proof. by intros s. Qed.

Lemma bind_assoc {A B C} (m : M A) (k : A -> M B) (h : B -> M C) s :
  (m ≫= (fun a => k a ≫= h)) s = ((m ≫= k) ≫= h) s.
Proof.
  unfold mbind, M_bind. by destruct (m s) as [[a|e] s'].
Qed.

(** A numbered step of [main], followed by the rest. *)
Lemma hoare_step L insert (rest : M unit) P Pmid Q R :
  hoare P (load_and_insert L insert) (fun _ => Pmid) R ->
  hoare Pmid rest Q R ->
  hoare P (data ← load_json_file (ld_file L);
           (if truthy data then insert data else mret tt);; rest) Q R.
Proof.
  intros Hstep Hrest s HP.
  rewrite (bind_assoc (load_json_file (ld_file L))
             (fun data => if truthy data then insert data else mret tt)
             (fun _ => rest) s).
  revert s HP. eapply hoare_bind; [exact Hstep|]. intros a. exact Hrest.
Qed.

(** ** Runs that abort *)

Lemma hoare_bind_ok {A B} P (m : M A) (k : A -> M B) Q' Q R :
  hoare P m Q' (fun _ _ => False) -> (forall a, hoare (Q' a) (k a) Q R) ->
  hoare P (m ≫= k) Q R.
Proof.
  intros Hm Hk. eapply hoare_bind; [|exact Hk].
  eapply hoare_weaken; [exact Hm|done|done|done].
Qed.

Lemma schema_declared L insert :
  (L, insert) ∈ loaders -> schema !! ld_table L = Some (declared L []).
Proof.
  unfold loaders. rewrite !elem_of_cons, elem_of_nil.
  intros [H|[H|[H|[H|[H|[]]]]]]; inversion H; subst; reflexivity.
Qed.

Ltac numbered_step :=
  first [ eapply (hoare_step users_loader insert_users)
        | eapply (hoare_step products_loader insert_products)
        | eapply (hoare_step orders_loader insert_orders)
        | eapply (hoare_step order_items_loader insert_order_items)
        | eapply (hoare_step payments_loader insert_payments) ].

Ltac abort_step :=
  numbered_step;
  [ first [ apply dies_step; assumption
          | apply untouched_step; [in_loaders|done] ]
  | try apply hoare_false ].

(** When the step of one loader dies, the [try] of [main] raises, with the
    table of that loader still empty in the store file. *)
Lemma main_try_aborts L insert src :
  (L, insert) ∈ loaders ->
  dies L insert src ->
  hoare (steady src ∅) main_try (fun _ _ => False)
        (fun _ s => inv src s /\ clean (ld_table L) s).
Proof.
  intros Hin Hdies. unfold main_try.
  eapply hoare_bind_ok; [apply steady_print|intros ?; cbv beta].
  eapply hoare_bind_ok; [apply create_tables_steady|intros ?; cbv beta].
  eapply hoare_bind_ok; [apply steady_print|intros ?; cbv beta].
  eapply hoare_bind_ok; [apply steady_print|intros ?; cbv beta].
  eapply hoare_weaken with (P := untouched src (ld_table L));
    [|intros s (Hinv & Hsync & Hview)|intros ? ? H; exact H
     |intros ? ? H; exact H].
  2:{ split; [done|]. split; [done|]. exists (declared L []).
      split; [|done]. unfold committed. destruct Hsync as (_ & ->).
      simpl. rewrite Hview. by eapply schema_declared. }
  unfold loaders in Hin. rewrite !elem_of_cons, elem_of_nil in Hin.
  destruct Hin as [H|[H|[H|[H|[H|[]]]]]]; inversion H; subst; clear H;
    repeat abort_step.
Qed.

Lemma committed_finished s : committed (finished s) = committed s.
Proof. by destruct s as [[] ?]. Qed.

Lemma committed_rolled_back e s : committed (rolled_back e s) = committed s.
Proof. by destruct s as [[] ?]. Qed.

(** When the step of one loader dies, [main] raises after a rollback and the
    store file is left with that loader's table empty. *)
Lemma main_aborts L insert w :
  (L, insert) ∈ loaders ->
  dies L insert (sources w) ->
  (exists e, fst (main w) = Raise e)
  /\ Rollback ∈ calls (conn (snd (main w)))
  /\ count_rows (committed (snd (main w))) (ld_table L) = Some 0%nat.
Proof.
  intros Hin Hdies. rewrite main_run.
  pose proof (main_try_aborts L insert (sources w) Hin Hdies (started w)
                (started_steady w)) as H.
  destruct (main_try (started w)) as [[[]|e] s]; [done|].
  destruct H as (_ & t & Ht & Hrows). simpl.
  split; [by exists e|]. split.
  - rewrite !elem_of_app, !elem_of_cons. tauto.
  - rewrite committed_finished, committed_rolled_back.
    unfold count_rows. rewrite Ht. simpl. by rewrite Hrows.
Qed.

(** ** Runs on usable files *)

Lemma progress_step L insert src counts pending records :
  (L, insert) ∈ loaders ->
  usable L (src !! ld_file L) records ->
  ld_table L ∉ map fst counts ->
  ld_table L ∉ map ld_table pending ->
  hoare (progress src counts (L :: pending)) (load_and_insert L insert)
        (fun _ => progress src (counts ++ [(ld_table L, length records)])
                    pending)
        (fun _ _ => False).
Proof.
  intros Hin Hus Hcounts Hpending s (db & Hs & Hc & Hp).
  apply Forall_cons in Hp as [HL Hp].
  pose proof (usable_step L insert src db records Hin Hus HL s Hs) as Hstep.
  destruct (load_and_insert L insert s) as [[[]|e] s']; [|done].
  destruct Hstep as (rows & Hlen & Hs').
  exists (<[ld_table L := declared L rows]> db). split; [done|]. split.
  - apply Forall_app. split.
    + rewrite Forall_forall in Hc |- *. intros [name n] Hn. simpl.
      unfold count_rows. rewrite lookup_insert_ne.
      * by apply (Hc _ Hn).
      * intros Heq. apply Hcounts. rewrite Heq.
        apply list_elem_of_fmap. by exists (name, n).
    + constructor; [|done]. simpl. unfold count_rows.
      rewrite lookup_insert_eq. simpl. by rewrite Hlen.
  - rewrite Forall_forall in Hp |- *. intros L' HL'.
    rewrite lookup_insert_ne; [by apply Hp|].
    intros Heq. apply Hpending. rewrite Heq.
    apply list_elem_of_fmap. by exists L'.
Qed.

Lemma count_line_run name n s :
  closed (conn s) = false ->
  count_rows (view (conn s)) name = Some n ->
  (rows ← execute (SelectCountFrom name);
   count ← lift (fetchone_0 rows);
   print (TableCount name count)) s
  = (Ok tt, State (say (TableCount name (SInt (Z.of_nat n))) (env s))
                  (called (Execute (SelectCountFrom name)) (conn s))).
Proof.
  destruct s as [w k]. simpl. intros Hclosed Hn.
  unfold mbind, M_bind, execute, lift, print. simpl.
  by rewrite Hclosed, Hn.
Qed.

Lemma quiet_reported name n : quiet (reported name n).
Proof.
  intros [[] ?] lines. unfold reported. simpl. rewrite elem_of_app. tauto.
Qed.

(** One turn of the loop of [verify_data]. *)
Lemma count_line_reports src db (n : string -> nat) seen name :
  count_rows db name = Some (n name) ->
  hoare (fun s => steady src db s
                  /\ forall x, x ∈ seen -> reported x (n x) s)
        (rows ← execute (SelectCountFrom name);
         count ← lift (fetchone_0 rows);
         print (TableCount name count))
        (fun _ s => steady src db s
                    /\ forall x, x ∈ (seen ++ [name])%list ->
                                 reported x (n x) s)
        (fun _ _ => False).
Proof.
  intros Hn s (Hs & Hseen).
  pose proof Hs as ((_ & _ & Hclosed & _) & _ & Hview).
  rewrite (count_line_run name (n name) s Hclosed) by (by rewrite Hview).
  destruct s as [[src' sto out] k]. split; [exact Hs|].
  intros x Hx. unfold reported in *. simpl in *.
  apply elem_of_app in Hx as [Hx|Hx].
  - apply elem_of_app. left. by apply Hseen.
  - apply list_elem_of_singleton in Hx as ->.
    apply elem_of_app. right. by left.
Qed.

(** With the five tables in place, the verification prints their counts. *)
Lemma verify_data_reports src db (n : string -> nat) :
  (forall name, name ∈ tables -> count_rows db name = Some (n name)) ->
  hoare (steady src db) verify_data
        (fun _ s => steady src db s
                    /\ forall name, name ∈ tables -> reported name (n name) s)
        (fun _ _ => False).
Proof.
  intros Hn. unfold verify_data.
  eapply hoare_bind; [apply steady_cursor|intros ?; cbv beta].
  do 3 (eapply hoare_bind; [apply steady_print|intros ?; cbv beta]).
  eapply hoare_bind with
    (Q' := fun _ s => steady src db s
                      /\ forall name, name ∈ tables -> reported name (n name) s).
  - assert (forall l seen,
              (forall name, name ∈ l -> name ∈ tables) ->
              hoare (fun s => steady src db s
                              /\ forall x, x ∈ seen -> reported x (n x) s)
                    (for_each l (fun table =>
                       rows ← execute (SelectCountFrom table);
                       count ← lift (fetchone_0 rows);
                       print (TableCount table count)))
                    (fun _ s => steady src db s
                                /\ forall x, x ∈ (seen ++ l)%list ->
                                             reported x (n x) s)
                    (fun _ _ => False)) as Hloop.
    { induction l as [|name l IH]; intros seen Hl; simpl.
      - apply hoare_mret. intros s Hs. by rewrite app_nil_r.
      - eapply hoare_bind.
        + apply count_line_reports, Hn, Hl. by left.
        + intros ?. cbv beta.
          eapply hoare_weaken; [apply (IH (seen ++ [name])%list)|..].
          * intros x Hx. apply Hl. by right.
          * done.
          * intros ? s (Hs & Hall). split; [done|]. intros x Hx.
            apply Hall. by rewrite <- (assoc_L (++)).
          * done. }
    eapply hoare_weaken; [apply (Hloop tables [])|..]; try done.
    intros s Hs. split; [done|]. intros x Hx. by apply elem_of_nil in Hx.
  - intros ?. cbv beta. intros s (Hs & Hall).
    destruct s as [[src' sto out] k]. split; [exact Hs|].
    intros x Hx. by apply (quiet_reported _ _ _ [_]), Hall.
Qed.

Lemma count_of_in counts c :
  NoDup (map fst counts) -> c ∈ counts -> count_of counts (fst c) = snd c.
Proof.
  induction counts as [|[k n] counts IH]; simpl; intros Hnd Hin.
  - by apply elem_of_nil in Hin.
  - apply NoDup_cons in Hnd as [Hk Hnd].
    apply elem_of_cons in Hin as [->|Hin]; simpl.
    + by rewrite decide_True.
    + rewrite decide_False; [by apply IH|].
      intros ->. apply Hk. apply list_elem_of_fmap. by exists c.
Qed.

Lemma hoare_exists {A X} (P : X -> state -> Prop) (m : M A) Q R :
  (forall x, hoare (P x) m Q R) -> hoare (fun s => exists x, P x s) m Q R.
Proof. intros H s [x Hx]. by apply (H x). Qed.

Ltac not_in :=
  simpl; rewrite ?elem_of_cons, ?elem_of_nil;
  intros Hnot_in; repeat destruct Hnot_in as [Hnot_in|Hnot_in];
  solve [discriminate | done].

Ltac usable_step :=
  numbered_step;
  [ eapply progress_step; [in_loaders|eassumption|not_in|not_in] | ].

(** On five usable files the [try] of [main] runs to its end; the tables
    then hold one row per record and the verification has printed so. *)
Lemma main_try_usable src b1 b2 b3 b4 b5 :
  usable users_loader (src !! ld_file users_loader) b1 ->
  usable products_loader (src !! ld_file products_loader) b2 ->
  usable orders_loader (src !! ld_file orders_loader) b3 ->
  usable order_items_loader (src !! ld_file order_items_loader) b4 ->
  usable payments_loader (src !! ld_file payments_loader) b5 ->
  let counts := [ ("users", length b1); ("products", length b2);
                  ("orders", length b3); ("order_items", length b4);
                  ("payments", length b5) ] in
  hoare (steady src ∅) main_try
        (fun _ s => exists db,
             steady src db s
             /\ Forall (fun c => count_rows db (fst c) = Some (snd c)
                                 /\ reported (fst c) (snd c) s) counts)
        (fun _ _ => False).
Proof.
  intros H1 H2 H3 H4 H5 counts. unfold main_try.
  eapply hoare_bind; [apply steady_print|intros ?; cbv beta].
  eapply hoare_bind; [apply create_tables_steady|intros ?; cbv beta].
  eapply hoare_bind; [apply steady_print|intros ?; cbv beta].
  eapply hoare_bind; [apply steady_print|intros ?; cbv beta].
  eapply hoare_weaken with (P := progress src [] descriptions);
    [|intros s Hs|intros ? ? H; exact H|intros ? ? H; exact H].
  2:{ exists schema. split; [done|]. split; [done|].
      unfold descriptions, loaders. simpl. by repeat constructor. }
  unfold descriptions, loaders. simpl.
  do 5 usable_step. simpl.
  apply hoare_exists. intros db.
  assert (NoDup (map fst counts)) as Hnd.
  { apply (bool_decide_unpack _). by vm_compute. }
  eapply hoare_bind with
    (Q' := fun _ s => steady src db s
             /\ Forall (fun c => count_rows db (fst c) = Some (snd c)
                                 /\ reported (fst c) (snd c) s) counts).
  - intros s (Hs & Hc & _).
    assert (forall name, name ∈ tables ->
              count_rows db name = Some (count_of counts name)) as Hn.
    { intros name Hname. change tables with (map fst counts) in Hname.
      apply list_elem_of_fmap in Hname as (c & -> & Hc').
      rewrite (count_of_in counts c Hnd Hc').
      rewrite Forall_forall in Hc. by apply Hc. }
    pose proof (verify_data_reports src db (count_of counts) Hn s Hs) as Hv.
    destruct (verify_data s) as [[[]|e] s']; [|done].
    destruct Hv as (Hs' & Hrep). split; [done|].
    rewrite Forall_forall in Hc |- *. intros c Hc'. split; [by apply Hc|].
    rewrite <- (count_of_in counts c Hnd Hc'). apply Hrep.
    change tables with (map fst counts). apply list_elem_of_fmap.
    by exists c.
  - intros ?. cbv beta.
    assert (forall o,
              hoare (fun s => steady src db s
                       /\ Forall (fun c => count_rows db (fst c) = Some (snd c)
                                           /\ reported (fst c) (snd c) s)
                                 counts)
                    (print o)
                    (fun _ s => steady src db s
                       /\ Forall (fun c => count_rows db (fst c) = Some (snd c)
                                           /\ reported (fst c) (snd c) s)
                                 counts)
                    (fun _ _ => False)) as Hprint.
    { intros o [[] k] (Hs & Hc). split; [exact Hs|].
      eapply Forall_impl; [exact Hc|]. intros c (? & Hr). split; [done|].
      by apply (quiet_reported _ _ _ [o]) in Hr. }
    eapply hoare_bind; [apply Hprint|intros ?; cbv beta].
    eapply hoare_bind; [apply Hprint|intros ?; cbv beta].
    eapply hoare_weaken; [apply Hprint|done|..].
    + intros ? s (? & ?). by exists db.
    + done.
Qed.

Lemma steady_committed src db s : steady src db s -> committed s = db.
Proof.
  intros (_ & (_ & Hsto) & Hview). unfold committed. by rewrite Hsto, Hview.
Qed.

Lemma usable_batches (src : gmap string source)
    (batches : list (list pyval)) :
  Forall2 (fun L records => usable L (src !! ld_file L) records)
          descriptions batches ->
  exists b1 b2 b3 b4 b5,
    batches = [b1; b2; b3; b4; b5]
    /\ usable users_loader (src !! ld_file users_loader) b1
    /\ usable products_loader (src !! ld_file products_loader) b2
    /\ usable orders_loader (src !! ld_file orders_loader) b3
    /\ usable order_items_loader (src !! ld_file order_items_loader) b4
    /\ usable payments_loader (src !! ld_file payments_loader) b5.
Proof.
  unfold descriptions, loaders. simpl. intros H.
  repeat match goal with
         | H : Forall2 _ (_ :: _) _ |- _ =>
             apply Forall2_cons_inv_l in H as (? & ? & ? & H & ->)
         | H : Forall2 _ [] _ |- _ => apply Forall2_nil_inv_l in H as ->
         end.
  by repeat eexists.
Qed.

(** On five usable files [main] returns, the store file holds one row per
    record in each table, and the verification has printed these counts. *)
Lemma main_usable w (batches : list (list pyval)) :
  Forall2 (fun L records => usable L (sources w !! ld_file L) records)
          descriptions batches ->
  fst (main w) = Ok tt
  /\ Forall2 (fun L records =>
                count_rows (committed (snd (main w))) (ld_table L)
                = Some (length records)
                /\ reported (ld_table L) (length records) (snd (main w)))
             descriptions batches.
Proof.
  intros H.
  destruct (usable_batches _ _ H) as (b1 & b2 & b3 & b4 & b5 & -> & H1 & H2
                                      & H3 & H4 & H5).
  rewrite main_run.
  pose proof (main_try_usable (sources w) b1 b2 b3 b4 b5 H1 H2 H3 H4 H5
                (started w) (started_steady w)) as Hrun.
  destruct (main_try (started w)) as [[[]|e] s]; [|done].
  destruct Hrun as (db & Hs & Hc). simpl. split; [done|].
  rewrite committed_finished, (steady_committed _ _ _ Hs).
  assert (forall name n, reported name n s -> reported name n (finished s))
    as Hrep.
  { intros name n. destruct s as [[] ?]. unfold reported. simpl.
    rewrite elem_of_app. tauto. }
  unfold descriptions, loaders. simpl.
  repeat match goal with
         | H : Forall _ (_ :: _) |- _ =>
             apply Forall_cons in H as ((? & ?) & H)
         end.
  repeat constructor; try done; by apply Hrep.
Qed.

(** ** What a run depends on *)

Ltac alike_states :=
  intros [[src1 sto1 out1] [n1 v1 t1 f1 c1 l1]]
         [[src2 sto2 out2] [n2 v2 t2 f2 c2 l2]]
         (Hsrc & Hsto & Hn & Hv & Ht & Hf & Hc);
  simpl in *; subst.

Lemma blind_mret {A} (a : A) : blind (mret a).
Proof. by intros s1 s2 H. Qed.

Lemma blind_raise {A} e : blind (raise e : M A).
Proof. by intros s1 s2 H. Qed.

Lemma blind_lift {A} (r : result A) : blind (lift r).
Proof. by intros s1 s2 H. Qed.

Lemma blind_bind {A B} (m : M A) (k : A -> M B) :
  blind m -> (forall a, blind (k a)) -> blind (m ≫= k).
Proof.
  intros Hm Hk s1 s2 H. destruct (Hm s1 s2 H) as [Hr Hs].
  unfold mbind, M_bind.
  destruct (m s1) as [[a1|e1] s1'], (m s2) as [[a2|e2] s2']; simpl in *;
    try done.
  - inversion Hr; subst. by apply Hk.
  - by inversion Hr; subst.
Qed.

Lemma blind_try_except {A} (body : M A) handler :
  blind body -> (forall e, blind (handler e)) ->
  blind (try_except body handler).
Proof.
  intros Hb Hh s1 s2 H. destruct (Hb s1 s2 H) as [Hr Hs].
  unfold try_except.
  destruct (body s1) as [[a1|e1] s1'], (body s2) as [[a2|e2] s2'];
    simpl in *; try done.
  inversion Hr; subst. by apply Hh.
Qed.

Lemma blind_try_finally {A} (body : M A) final :
  blind body -> blind final -> blind (try_finally body final).
Proof.
  intros Hb Hf s1 s2 H. destruct (Hb s1 s2 H) as [Hr Hs].
  unfold try_finally.
  destruct (body s1) as [r1 s1'], (body s2) as [r2 s2']; simpl in *.
  destruct (Hf s1' s2' Hs) as [Hr' Hs'].
  destruct (final s1') as [[[]|e1] s1''], (final s2') as [[[]|e2] s2''];
    simpl in *; try done; split; congruence.
Qed.

Lemma blind_if {A} (b : bool) (m1 m2 : M A) :
  blind m1 -> blind m2 -> blind (if b then m1 else m2).
Proof. by destruct b. Qed.

Lemma blind_for_each {A} (l : list A) body :
  (forall a, blind (body a)) -> blind (for_each l body).
Proof.
  intros Hb. induction l as [|a l IH]; simpl.
  - apply blind_mret.
  - apply blind_bind; [apply Hb|]. by intros _.
Qed.

Lemma blind_print o : blind (print o).
Proof. by alike_states. Qed.

Lemma blind_cursor : blind cursor.
Proof. alike_states. unfold cursor. simpl. by destruct c2. Qed.

Lemma blind_json_load file_path : blind (json_load file_path).
Proof.
  alike_states. unfold json_load. simpl.
  by destruct (src2 !! file_path) as [[]|].
Qed.

Lemma blind_execute q : blind (execute q).
Proof.
  alike_states. unfold execute. simpl. destruct c2; [done|].
  destruct q as [name columns fks|name columns|name]; simpl.
  - destruct t2; simpl; repeat split; simpl; try done.
    by rewrite ?lookup_insert_eq.
  - done.
  - by destruct (count_rows v2 name).
Qed.

Lemma blind_executemany q rows : blind (executemany q rows).
Proof.
  alike_states. unfold executemany. simpl. destruct c2; [done|].
  destruct q as [name columns fks|name columns|name]; simpl; try done.
  destruct (prepare_insert _ _ _); simpl; [|done].
  by destruct (insert_rows _ _ _ _ _) as [[[]|e] v].
Qed.

Lemma blind_commit : blind commit.
Proof.
  alike_states. unfold commit. simpl. destruct c2; [done|].
  destruct t2; simpl; repeat split; simpl; try done.
  by rewrite ?lookup_insert_eq.
Qed.

Lemma blind_rollback : blind rollback.
Proof.
  alike_states. unfold rollback, committed. simpl. destruct c2; [done|].
  repeat split; simpl; try done. by rewrite Hsto.
Qed.

Lemma blind_close : blind close.
Proof.
  alike_states. unfold close, committed. simpl.
  repeat split; simpl; try done. by rewrite Hsto.
Qed.

Create HintDb blind.
#[local] Hint Resolve blind_mret blind_raise blind_lift blind_print
  blind_cursor blind_json_load blind_execute blind_executemany blind_commit
  blind_rollback blind_close : blind.

Ltac blind_step :=
  first [ solve [eauto with blind]
        | apply blind_bind; [|intros ?]
        | apply blind_if
        | apply blind_for_each; intros ?
        | apply blind_try_except; [|intros ?]
        | apply blind_try_finally
        | match goal with
          | |- blind (match ?e with _ => _ end) => destruct e
          end ].

Lemma blind_load_json_file file_path : blind (load_json_file file_path).
Proof. unfold load_json_file. repeat blind_step. Qed.

Lemma blind_main :
  blind (try_finally (try_except main_try main_except) main_finally).
Proof.
  pose proof blind_load_json_file.
  unfold main_try, main_except, main_finally, create_tables, verify_data,
    insert_users, insert_products, insert_orders, insert_order_items,
    insert_payments.
  repeat blind_step.
Qed.

Lemma started_alike w1 w2 :
  sources w1 = sources w2 -> alike (started w1) (started w2).
Proof.
  intros Hsrc. destruct (started_steady w1) as ((? & ? & ? & ?) & (? & ?) & ?).
  destruct (started_steady w2) as ((? & ? & ? & ?) & (? & ?) & ?).
  repeat split; congruence.
Qed.

(** The result of [main] and the store file it leaves depend on the source
    files alone. *)
Lemma main_sources w1 w2 :
  sources w1 = sources w2 ->
  fst (main w1) = fst (main w2)
  /\ stores (env (snd (main w1))) !! "ecom.db"
     = stores (env (snd (main w2))) !! "ecom.db".
Proof.
  intros Hsrc. rewrite !main_started.
  destruct (blind_main _ _ (started_alike w1 w2 Hsrc))
    as (Hr & _ & Hsto & Hn & _).
  split; [done|].
  assert (forall w, db_name (conn (snd (main w))) = "ecom.db") as Hname.
  { intros w. rewrite main_run.
    pose proof (inv_main_try (sources w) (started w)
                  (proj1 (started_steady w))) as Hinv.
    destruct (main_try (started w)) as [[[]|e] s];
      by destruct Hinv as (_ & ? & _). }
  pose proof (Hname w1) as H1. pose proof (Hname w2) as H2.
  rewrite main_started in H1, H2. by rewrite H1, H2 in Hsto.
Qed.

Lemma main_keeps_sources w : sources (env (snd (main w))) = sources w.
Proof.
  rewrite main_run.
  pose proof (inv_main_try (sources w) (started w)
                (proj1 (started_steady w))) as Hinv.
  destruct (main_try (started w)) as [[[]|e] [[] ?]];
    by destruct Hinv as (? & _).
Qed.

(** With the same choices of SQLite's random search, running the tool
    again on what the first run left (the same source files, the store file
    of the first run in place) ends the same way and leaves the same store
    file: [create_database] removes the store file it finds, so nothing of
    it reaches the second run. *)
Lemma rerun_same_choices w :
  fst (main (env (snd (main w)))) = fst (main w)
  /\ stores (env (snd (main (env (snd (main w)))))) !! "ecom.db"
     = stores (env (snd (main w))) !! "ecom.db".
Proof.
  apply main_sources. apply main_keeps_sources.
Qed.

(** ** The first step that dies *)

Lemma dies_with_dies e L insert src : dies_with e L insert src -> dies L insert src.
Proof.
  intros H s Hs. destruct (H s Hs) as [lines Hrun]. by exists e, lines.
Qed.

Lemma hoare_no_raise {A} P (m : M A) Q R :
  hoare P m Q (fun _ _ => False) -> hoare P m Q R.
Proof. intros H. eapply hoare_weaken; [exact H|done|done|done]. Qed.

Lemma dies_with_step e L insert src counts pending :
  dies_with e L insert src ->
  hoare (progress src counts pending) (load_and_insert L insert)
        (fun _ _ => False) (fun e' _ => e' = e).
Proof.
  intros Hdies s (db & (Hinv & _) & _).
  by destruct (Hdies s Hinv) as (lines & ->).
Qed.

Ltac first_step :=
  numbered_step;
  [ first [ apply dies_with_step; assumption
          | apply hoare_no_raise; eapply progress_step;
            [in_loaders|eassumption|not_in|not_in] ]
  | try apply hoare_false ].

(** When the files of the loaders before [L] are usable and the step of [L]
    dies with [e], the [try] of [main] raises [e]. *)
Lemma main_try_raises_first e L insert src before after
    (batches : list (list pyval)) :
  loaders = (before ++ (L, insert) :: after)%list ->
  Forall2 (fun L' records => usable (fst L') (src !! ld_file (fst L')) records)
          before batches ->
  dies_with e L insert src ->
  hoare (steady src ∅) main_try (fun _ _ => False) (fun e' _ => e' = e).
Proof.
  intros Hsplit Hus Hdies. unfold main_try.
  eapply hoare_bind_ok; [apply steady_print|intros ?; cbv beta].
  eapply hoare_bind_ok; [apply create_tables_steady|intros ?; cbv beta].
  eapply hoare_bind_ok; [apply steady_print|intros ?; cbv beta].
  eapply hoare_bind_ok; [apply steady_print|intros ?; cbv beta].
  eapply hoare_weaken with (P := progress src [] descriptions);
    [|intros s Hs|intros ? ? H; exact H|intros ? ? H; exact H].
  2:{ exists schema. split; [done|]. split; [done|].
      unfold descriptions, loaders. simpl. by repeat constructor. }
  unfold descriptions, loaders in *. simpl.
  destruct before as [|? [|? [|? [|? [|? more]]]]]; simpl in Hsplit;
    inversion Hsplit; subst; clear Hsplit;
    repeat match goal with
           | H : Forall2 _ (_ :: _) _ |- _ =>
               apply Forall2_cons_inv_l in H as (? & ? & ? & H & ->)
           | H : Forall2 _ [] _ |- _ => apply Forall2_nil_inv_l in H as ->
           end;
    simpl in *; repeat first_step.
  by destruct more.
Qed.

Lemma main_raises_first e L insert w before after
    (batches : list (list pyval)) :
  loaders = (before ++ (L, insert) :: after)%list ->
  Forall2 (fun L' records =>
             usable (fst L') (sources w !! ld_file (fst L')) records)
          before batches ->
  dies_with e L insert (sources w) ->
  fst (main w) = Raise e.
Proof.
  intros Hsplit Hus Hdies. rewrite main_run.
  pose proof (main_try_raises_first e L insert (sources w) before after batches
                Hsplit Hus Hdies (started w) (started_steady w)) as H.
  destruct (main_try (started w)) as [[[]|e'] s]; [done|]. by subst.
Qed.

(** ** The claims on loading and on failing records *)

(** C8, as amended.  For a readable file that parses to a sized value
    (an array in particular), [load_json_file] returns the parsed value, on
    its own; the length is printed in the "Loaded n records" line and is not
    part of what is returned. *)
Theorem load_json_file_returns_data file_path data n s :
  sources (env s) !! file_path = Some (Json data) ->
  len data = Ok n ->
  load_json_file file_path s
  = (Ok data, State (say (LoadedRecords n file_path) (env s)) (conn s)).
Proof.
  intros Hfile Hlen. rewrite load_json_file_run, Hfile. simpl.
  by rewrite Hlen.
Qed.

Lemma unsized_len data : unsized data = true -> len data = Raise TypeError.
Proof. by destruct data. Qed.

Lemma says_nothing s : State (says [] (env s)) (conn s) = s.
Proof. destruct s as [[] ?]. unfold says. simpl. by rewrite app_nil_r. Qed.

Lemma unsized_dies_with L insert (src : gmap string source) data :
  src !! ld_file L = Some (Json data) ->
  unsized data = true ->
  dies_with TypeError L insert src.
Proof.
  intros Hfile Hdata s (Hsrc & _). exists [].
  unfold load_and_insert, mbind, M_bind.
  rewrite load_json_file_run, Hsrc, Hfile. simpl.
  by rewrite (unsized_len _ Hdata).
Qed.

(** C10.  When the file of a loader parses to JSON null, a boolean or a
    number, [load_json_file] raises TypeError at [len(data)] and neither of
    its handlers catches it: the call ends in the exception, with nothing
    printed.  [main] then raises, after a rollback, instead of going on to
    the next file; it raises this TypeError when the files before are
    usable. *)
Theorem unsized_document_aborts L insert w data s :
  (L, insert) ∈ loaders ->
  sources w !! ld_file L = Some (Json data) ->
  unsized data = true ->
  sources (env s) = sources w ->
  load_json_file (ld_file L) s = (Raise TypeError, s)
  /\ (exists e, fst (main w) = Raise e)
  /\ Rollback ∈ calls (conn (snd (main w)))
  /\ (forall before after (batches : list (list pyval)),
        loaders = (before ++ (L, insert) :: after)%list ->
        Forall2 (fun L' records =>
                   usable (fst L') (sources w !! ld_file (fst L')) records)
                before batches ->
        fst (main w) = Raise TypeError).
Proof.
  intros Hin Hfile Hdata Hsrc.
  pose proof (unsized_dies_with L insert _ _ Hfile Hdata) as Hdies.
  destruct (main_aborts L insert w Hin (dies_with_dies _ _ _ _ Hdies))
    as (Hraise & Hroll & _).
  split; [|split; [exact Hraise|split; [exact Hroll|]]].
  - rewrite load_json_file_run, Hsrc, Hfile. simpl.
    rewrite (unsized_len _ Hdata). simpl. by rewrite says_nothing.
  - intros before after batches Hsplit Hus.
    exact (main_raises_first _ _ _ _ _ _ _ Hsplit Hus Hdies).
Qed.

Lemma key_error_loader L insert records :
  (L, insert) ∈ loaders ->
  Forall (fun r => is_record r = true) records ->
  Exists (fun r => has_required L r = false) records ->
  exists k,
    Required k ∈ ld_fields L
    /\ forall s, closed (conn s) = false ->
                 insert (PList records) s = (Raise (KeyError k), s).
Proof.
  intros Hin Hrec Hex.
  destruct (comprehension_key_error L records Hrec Hex) as (k & Hk & Hrows).
  exists k. split; [done|]. intros s Hclosed.
  rewrite (loaders_table_loader _ _ _ Hin), table_loader_run.
  destruct records as [|r records]; [by apply Exists_nil in Hex|].
  simpl. by rewrite Hclosed, Hrows.
Qed.

(** C2.  When the file of a loader is an array of objects one of which
    lacks a required field, the loader raises the KeyError of a required
    field before any statement runs: it leaves the connection as it was, no
    row inserted and nothing committed.  [main] then raises, its rollback is
    called, and the store file has no row in the loader's table; the
    exception is this KeyError when the files before are usable. *)
Theorem missing_required_field_aborts L insert w records :
  (L, insert) ∈ loaders ->
  sources w !! ld_file L = Some (Json (PList records)) ->
  Forall (fun r => is_record r = true) records ->
  Exists (fun r => has_required L r = false) records ->
  exists k,
    Required k ∈ ld_fields L
    /\ (forall s, closed (conn s) = false ->
                  insert (PList records) s = (Raise (KeyError k), s))
    /\ (exists e, fst (main w) = Raise e)
    /\ Rollback ∈ calls (conn (snd (main w)))
    /\ count_rows (committed (snd (main w))) (ld_table L) = Some 0%nat
    /\ (forall before after (batches : list (list pyval)),
          loaders = (before ++ (L, insert) :: after)%list ->
          Forall2 (fun L' records =>
                     usable (fst L') (sources w !! ld_file (fst L')) records)
                  before batches ->
          fst (main w) = Raise (KeyError k)).
Proof.
  intros Hin Hfile Hrec Hex.
  destruct (key_error_loader L insert records Hin Hrec Hex) as (k & Hk & Hrun).
  exists k. split; [done|]. split; [done|].
  assert (dies_with (KeyError k) L insert (sources w)) as Hdies.
  { intros s (Hsrc & _ & Hclosed & _).
    exists [LoadedRecords (length records) (ld_file L)].
    unfold load_and_insert, mbind, M_bind.
    rewrite load_json_file_run, Hsrc, Hfile. simpl.
    destruct records as [|r records]; [by apply Exists_nil in Hex|].
    simpl. by rewrite Hrun. }
  destruct (main_aborts L insert w Hin (dies_with_dies _ _ _ _ Hdies))
    as (Hraise & Hroll & Hcount).
  split; [exact Hraise|]. split; [exact Hroll|]. split; [exact Hcount|].
  intros before after batches Hsplit Hus.
  exact (main_raises_first _ _ _ _ _ _ _ Hsplit Hus Hdies).
Qed.

(** ** Runs that complete *)

Lemma falsy_size data : truthy data = false -> size data = 0%nat.
Proof.
  unfold size. destruct data as [| | | |[|c s]|[|? ?]|[|? ?]|[|? ?]];
    try reflexivity; discriminate.
Qed.

(** A loader that returns on a truthy value has put one row per element in
    its table. *)
Lemma table_loader_counted L src db data s :
  db !! ld_table L = Some (declared L []) ->
  steady src db s ->
  truthy data = true ->
  match table_loader L data s with
  | (Ok _, s') =>
      exists rows,
        length rows = size data
        /\ steady src (<[ld_table L := declared L rows]> db) s'
  | (Raise _, _) => True
  end.
Proof.
  intros Hdb Hs Htruthy.
  pose proof Hs as ((_ & _ & Hclosed & _) & _ & Hview).
  rewrite table_loader_run, Htruthy. simpl negb. cbv iota. rewrite Hclosed.
  destruct (comprehension _ data) as [rows|] eqn:Hrows; [|exact I].
  cbv zeta. change (view (called _ (conn s))) with (view (conn s)).
  rewrite Hview.
  destruct (prepare_insert _ _ _) as [t|] eqn:Hprep; [|exact I].
  apply prepare_insert_inv in Hprep. rewrite Hdb in Hprep.
  inversion Hprep; subst t. clear Hprep.
  destruct (insert_rows _ _ _ _ _) as [[[]|] v] eqn:Hins; [|exact I].
  destruct (insert_rows_inv _ _ _ _ _ _ _ _ Hdb Hins) as (new & -> & Hnew).
  specialize (Hnew eq_refl). apply Forall2_length in Hnew.
  exists new. split; [|by eapply steady_inserted].
  rewrite <- Hnew. unfold comprehension, size in *.
  destruct data; simpl in *; try discriminate;
    apply rmap_length in Hrows; rewrite Hrows; unfold chars;
    by rewrite ?length_map.
Qed.

(** A numbered step of [main] that returns has put one row per record of
    the file in the table. *)
Lemma counted_step L insert src counts pending :
  (L, insert) ∈ loaders ->
  ld_table L ∉ map fst counts ->
  ld_table L ∉ map ld_table pending ->
  hoare (progress src counts (L :: pending)) (load_and_insert L insert)
        (fun _ => progress src
                    (counts ++ [(ld_table L, records_in (src !! ld_file L))])
                    pending)
        (fun _ _ => True).
Proof.
  intros Hin Hcounts Hpending s (db & Hs & Hc & Hp).
  apply Forall_cons in Hp as [HL Hp].
  assert (match load_and_insert L insert s with
          | (Ok _, s') =>
              exists rows,
                length rows = records_in (src !! ld_file L)
                /\ steady src (<[ld_table L := declared L rows]> db) s'
          | (Raise _, _) => True
          end) as Hstep.
  { unfold load_and_insert, mbind, M_bind. rewrite load_json_file_run.
    pose proof (quiet_steady src db s
                  (load_says (ld_file L) (sources (env s) !! ld_file L)) Hs)
      as Hs'.
    destruct Hs as ((Hsrc & _) & _). rewrite Hsrc in *.
    destruct (src !! ld_file L) as [[why| |detail| |data]|]; simpl.
    - exact I.
    - exact I.
    - exists []. split; [reflexivity|]. by rewrite insert_id.
    - exact I.
    - simpl in Hs'.
      destruct (len data) as [n|] eqn:Hlen; simpl in *; [|exact I].
      destruct (truthy data) eqn:Htruthy.
      + rewrite (loaders_table_loader _ _ _ Hin).
        exact (table_loader_counted L src db data _ HL Hs' Htruthy).
      + exists []. split; [by rewrite falsy_size|]. by rewrite insert_id.
    - exists []. split; [reflexivity|]. by rewrite insert_id. }
  destruct (load_and_insert L insert s) as [[[]|e] s']; [|exact I].
  destruct Hstep as (rows & Hlen & Hs').
  exists (<[ld_table L := declared L rows]> db). split; [done|]. split.
  - apply Forall_app. split.
    + rewrite Forall_forall in Hc |- *. intros [name n] Hn. simpl.
      unfold count_rows. rewrite lookup_insert_ne.
      * by apply (Hc _ Hn).
      * intros Heq. apply Hcounts. rewrite Heq.
        apply list_elem_of_fmap. by exists (name, n).
    + constructor; [|done]. simpl. unfold count_rows.
      rewrite lookup_insert_eq. simpl. by rewrite Hlen.
  - rewrite Forall_forall in Hp |- *. intros L' HL'.
    rewrite lookup_insert_ne; [by apply Hp|].
    intros Heq. apply Hpending. rewrite Heq.
    apply list_elem_of_fmap. by exists L'.
Qed.

Ltac counted_step :=
  numbered_step;
  [ eapply counted_step; [in_loaders|not_in|not_in] | ].

(** When the [try] of [main] gets to its end, each table holds one row per
    record of its file and the verification has printed so. *)
Lemma main_try_counted src :
  hoare (steady src ∅) main_try
        (fun _ s => exists db,
             steady src db s
             /\ Forall (fun c => count_rows db (fst c) = Some (snd c)
                                 /\ reported (fst c) (snd c) s)
                       (file_counts src))
        (fun _ _ => True).
Proof.
  unfold main_try.
  eapply hoare_bind_ok; [apply steady_print|intros ?; cbv beta].
  eapply hoare_bind_ok; [apply create_tables_steady|intros ?; cbv beta].
  eapply hoare_bind_ok; [apply steady_print|intros ?; cbv beta].
  eapply hoare_bind_ok; [apply steady_print|intros ?; cbv beta].
  eapply hoare_weaken with (P := progress src [] descriptions);
    [|intros s Hs|intros ? ? H; exact H|intros ? ? H; exact H].
  2:{ exists schema. split; [done|]. split; [done|].
      unfold descriptions, loaders. simpl. by repeat constructor. }
  unfold descriptions, loaders. simpl.
  do 5 counted_step. simpl.
  apply hoare_exists. intros db.
  change [("users", records_in (src !! ld_file users_loader));
          ("products", records_in (src !! ld_file products_loader));
          ("orders", records_in (src !! ld_file orders_loader));
          ("order_items", records_in (src !! ld_file order_items_loader));
          ("payments", records_in (src !! ld_file payments_loader))]
    with (file_counts src).
  assert (NoDup (map fst (file_counts src))) as Hnd.
  { apply (bool_decide_unpack _). by vm_compute. }
  eapply hoare_bind_ok with
    (Q' := fun _ s => steady src db s
             /\ Forall (fun c => count_rows db (fst c) = Some (snd c)
                                 /\ reported (fst c) (snd c) s)
                       (file_counts src)).
  - intros s (Hs & Hc & _).
    assert (forall name, name ∈ tables ->
              count_rows db name = Some (count_of (file_counts src) name))
      as Hn.
    { intros name Hname.
      change tables with (map fst (file_counts src)) in Hname.
      apply list_elem_of_fmap in Hname as (c & -> & Hc').
      rewrite (count_of_in (file_counts src) c Hnd Hc').
      rewrite Forall_forall in Hc. by apply Hc. }
    pose proof (verify_data_reports src db (count_of (file_counts src)) Hn
                  s Hs) as Hv.
    destruct (verify_data s) as [[[]|e] s']; [|done].
    destruct Hv as (Hs' & Hrep). split; [done|].
    rewrite Forall_forall in Hc |- *. intros c Hc'. split; [by apply Hc|].
    rewrite <- (count_of_in (file_counts src) c Hnd Hc'). apply Hrep.
    change tables with (map fst (file_counts src)). apply list_elem_of_fmap.
    by exists c.
  - intros ?. cbv beta.
    assert (forall o,
              hoare (fun s => steady src db s
                       /\ Forall (fun c => count_rows db (fst c) = Some (snd c)
                                           /\ reported (fst c) (snd c) s)
                                 (file_counts src))
                    (print o)
                    (fun _ s => steady src db s
                       /\ Forall (fun c => count_rows db (fst c) = Some (snd c)
                                           /\ reported (fst c) (snd c) s)
                                 (file_counts src))
                    (fun _ _ => False)) as Hprint.
    { intros o [[] k] (Hs & Hc). split; [exact Hs|].
      eapply Forall_impl; [exact Hc|]. intros c (? & Hr). split; [done|].
      by apply (quiet_reported _ _ _ [o]) in Hr. }
    eapply hoare_bind_ok; [apply Hprint|intros ?; cbv beta].
    eapply hoare_bind_ok; [apply Hprint|intros ?; cbv beta].
    eapply hoare_weaken; [apply Hprint|done|..].
    + intros ? s (? & ?). by exists db.
    + done.
Qed.

(** When [main] returns, the store file holds, in each table, one row per
    record of the file of that table, and the verification has printed
    these counts. *)
Lemma main_counted w :
  fst (main w) = Ok tt ->
  Forall (fun L =>
            count_rows (committed (snd (main w))) (ld_table L)
            = Some (records_in (sources w !! ld_file L))
            /\ reported (ld_table L) (records_in (sources w !! ld_file L))
                 (snd (main w)))
         descriptions.
Proof.
  rewrite main_run.
  pose proof (main_try_counted (sources w) (started w) (started_steady w))
    as Hrun.
  destruct (main_try (started w)) as [[[]|e] s]; [|discriminate].
  intros _. destruct Hrun as (db & Hs & Hc). cbn [snd].
  rewrite committed_finished, (steady_committed _ _ _ Hs).
  assert (forall name n, reported name n s -> reported name n (finished s))
    as Hrep.
  { intros name n. destruct s as [[] ?]. unfold reported. simpl.
    rewrite elem_of_app. tauto. }
  unfold file_counts in Hc. rewrite Forall_fmap in Hc.
  eapply Forall_impl; [exact Hc|]. intros L (Hcount & Hr).
  split; [exact Hcount|]. apply Hrep. exact Hr.
Qed.

(** ** The claims on complete runs *)

(** C1, as amended.  Whenever [main] returns, the store file holds in each
    of the five tables as many rows as the file of that table has records
    (none for a file that is missing or is not JSON), and these are the
    counts the verification prints.  [main] returns, in particular, when
    each of the five files is there and parses to an array of well-formed
    records with pairwise different ids: objects in which every required
    field has a value that SQLite takes as not NULL (a boolean, an integer
    of the 64-bit range, a float other than NaN, a str without a lone
    surrogate), every optional field that is given has such a value or is
    null or NaN, and the id is an integer of the 64-bit range. *)
Theorem well_formed_files_counts w :
  (fst (main w) = Ok tt ->
   Forall (fun L =>
             count_rows (committed (snd (main w))) (ld_table L)
             = Some (records_in (sources w !! ld_file L))
             /\ reported (ld_table L) (records_in (sources w !! ld_file L))
                  (snd (main w)))
          descriptions)
  /\ (forall batches : list (list pyval),
        Forall2 (fun L records =>
                   sources w !! ld_file L = Some (Json (PList records))
                   /\ well_formed_file L records)
                descriptions batches ->
        fst (main w) = Ok tt
        /\ Forall2 (fun L records =>
                      count_rows (committed (snd (main w))) (ld_table L)
                      = Some (length records)
                      /\ reported (ld_table L) (length records)
                           (snd (main w)))
                   descriptions batches).
Proof.
  split; [exact (main_counted w)|].
  intros batches H. apply main_usable.
  eapply Forall2_impl; [exact H|]. intros L records (-> & Hwf).
  right. right. split; [reflexivity|exact Hwf].
Qed.


(** C5.  A loader given a falsy value, None or the empty list in
    particular, returns at once: the state is as before, with no call on
    the connection, so nothing inserted and nothing committed.  On the
    sample files (one user, one product, three empty arrays) [main]
    returns, the tables hold 1, 1, 0, 0 and 0 rows, and these are the
    counts the verification prints. *)
Theorem empty_batch_no_op L insert data s :
  (L, insert) ∈ loaders ->
  truthy data = false ->
  insert data s = (Ok tt, s)
  /\ fst (main example_world) = Ok tt
  /\ map (count_rows (committed (snd (main example_world)))) tables
     = [Some 1; Some 1; Some 0; Some 0; Some 0]%nat
  /\ table_counts (stdout (env (snd (main example_world))))
     = [ ("users", SInt 1); ("products", SInt 1); ("orders", SInt 0);
         ("order_items", SInt 0); ("payments", SInt 0) ].
Proof.
  intros Hin Hdata. split.
  - rewrite (loaders_table_loader _ _ _ Hin), table_loader_run.
    by rewrite Hdata.
  - by vm_compute.
Qed.

(** C9.  The connection is opened with foreign keys not enforced, and is
    so when [main] ends: no statement of the script turns enforcement on.
    On such a connection a batch of well-formed records with pairwise
    different ids goes into the empty table of its loader, one row per
    record, whatever the tables it refers to hold; an order of a user that
    does not exist, an item of an order or product that does not exist and
    a payment of an order that does not exist are stored like the others. *)
Theorem foreign_keys_not_enforced L insert w src db records s :
  (L, insert) ∈ loaders ->
  steady src db s ->
  db !! ld_table L = Some (declared L []) ->
  well_formed_file L records ->
  records <> [] ->
  foreign_keys (conn (started w)) = false
  /\ foreign_keys (conn (snd (main w))) = false
  /\ exists rows,
       length rows = length records
       /\ insert (PList records) s
          = (Ok tt, inserted L (PList records) (length records)
                      (<[ld_table L := declared L rows]> db) s).
Proof.
  intros Hin Hs Hdb Hwf Hne.
  pose proof (started_steady w) as ((_ & _ & _ & Hfk) & _).
  split; [done|]. split.
  - rewrite main_run.
    pose proof (inv_main_try (sources w) (started w)
                  (proj1 (started_steady w))) as Hinv.
    destruct (main_try (started w)) as [[[]|e] s'];
      by destruct Hinv as (_ & _ & _ & ?).
  - rewrite (loaders_table_loader _ _ _ Hin).
    eapply table_loader_well_formed; try done. by eapply loaders_fit.
Qed.

(** ** Defaults *)

Lemma rmap_Forall2 {A B} (f : A -> result B) l l' :
  rmap f l = Ok l' -> Forall2 (fun a b => f a = Ok b) l l'.
Proof.
  revert l'. induction l as [|a l IH]; simpl; intros l' H.
  - inversion H. constructor.
  - destruct (f a) as [b|] eqn:Hb; simpl in H; [|done].
    destruct (rmap f l) as [bs|]; simpl in H; [|done].
    inversion H; subst. constructor; [done|]. by apply IH.
Qed.

Lemma cell_at_stored cs (value_of : string -> sqlval) z name :
  cell_at cs (stored_cells cs value_of z) name
  = (fun c => if col_pk c then SInt z
              else store_cell (col_type c) (value_of name))
      <$> find (fun c => bool_decide (col_name c = name)) cs.
Proof.
  induction cs as [|c cs IH]; simpl; [done|].
  destruct (decide (col_name c = name)) as [Heq|Hne].
  - rewrite bool_decide_eq_true_2 by done. simpl. by rewrite Heq.
  - rewrite bool_decide_eq_false_2 by done. exact IH.
Qed.

Lemma loaders_document L insert : (L, insert) ∈ loaders -> documents L = true.
Proof.
  unfold loaders. rewrite !elem_of_cons, elem_of_nil.
  intros [H|[H|[H|[H|[H|[]]]]]]; inversion H; subst; by vm_compute.
Qed.

(** The cell of an optional field that the record leaves out. *)
Lemma default_stored L d tuple values z name default :
  fits L = true ->
  documents L = true ->
  row_of (ld_fields L) (PDict d) = Ok tuple ->
  bind_parameters (length (ld_names L)) tuple = Ok values ->
  Optional name default ∈ ld_fields L ->
  assoc name d = None ->
  exists sv,
    (name, sv) ∈ documented_defaults
    /\ cell_at (ld_columns L)
         (stored_cells (ld_columns L) (supplied (ld_names L) values) z) name
       = Some sv.
Proof.
  intros Hfits Hdoc Hrow Hbind Hin Hnone.
  destruct (fits_parts L Hfits) as (_ & Hnd & _).
  destruct (has_required L (PDict d)) eqn:Hreq.
  2:{ destruct (row_of_missing L d Hreq) as (k & _ & _ & Hk). congruence. }
  rewrite (row_of_present L d Hreq) in Hrow. inversion Hrow; subst tuple.
  unfold bind_parameters in Hbind. simpl in Hbind.
  destruct (decide _) as [_|Hlen] in Hbind; [|done].
  pose proof (supplied_read d _ values _ Hnd Hbind Hin) as Hsup.
  simpl in Hsup. rewrite Hnone in Hsup. simpl in Hsup.
  unfold documents in Hdoc. rewrite forallb_forall in Hdoc.
  specialize (Hdoc _ (proj1 (list_elem_of_In _ _) Hin)). simpl in Hdoc.
  rewrite Hsup in Hdoc. rewrite cell_at_stored.
  destruct (find _ (ld_columns L)) as [c|]; [|done].
  simpl. destruct (col_pk c); [done|].
  apply bool_decide_eq_true in Hdoc. unfold ld_names. by eexists.
Qed.

Ltac in_list :=
  solve [repeat first [apply list_elem_of_here | apply list_elem_of_further]].

Ltac optional_of_loader :=
  (exists users_loader + exists products_loader + exists orders_loader
   + exists order_items_loader + exists payments_loader);
  (exists (PStr "") + exists (PInt 0) + exists PNone);
  split; [in_list|simpl; in_list].

(** C4.  When a loader has stored a batch, the table holds one new row per
    record, in order, the rows are committed, and in the row of a record
    that leaves out an optional field the cell of that field holds the
    documented default: the empty string, 0 for [stock], NULL for
    [payment_date].  The documented defaults are those of the optional
    fields of the five loaders. *)
Theorem optional_defaults_stored L insert records rows0 s s' :
  (L, insert) ∈ loaders ->
  view (conn s) !! ld_table L = Some (declared L rows0) ->
  insert (PList records) s = (Ok tt, s') ->
  (exists new,
      view (conn s') !! ld_table L = Some (declared L (rows0 ++ new))
      /\ (records <> [] ->
          stores (env s') !! db_name (conn s') = Some (view (conn s')))
      /\ length new = length records
      /\ forall i d row name default,
           records !! i = Some (PDict d) ->
           new !! i = Some row ->
           Optional name default ∈ ld_fields L ->
           assoc name d = None ->
           exists sv,
             (name, sv) ∈ documented_defaults
             /\ cell_at (ld_columns L) (snd row) name = Some sv)
  /\ (forall name sv,
        (name, sv) ∈ documented_defaults ->
        exists L' default,
          L' ∈ descriptions /\ Optional name default ∈ ld_fields L').
Proof.
  intros Hin Hview Hrun. split.
  - rewrite (loaders_table_loader _ _ _ Hin), table_loader_run in Hrun.
    destruct records as [|r records].
    { simpl in Hrun. inversion Hrun; subst s'. exists [].
      rewrite app_nil_r. repeat split; try done. }
    change (negb (truthy (PList (r :: records)))) with false in Hrun.
    cbv iota in Hrun.
    destruct (closed (conn s)); [done|].
    destruct (comprehension _ _) as [tuples|] eqn:Htuples; [|done].
    cbv zeta in Hrun.
    change (view (called _ (conn s))) with (view (conn s)) in Hrun.
    destruct (prepare_insert _ _ _) as [t|]; [|done].
    destruct (insert_rows _ _ _ _ _) as [[[]|] v] eqn:Hrows; [|done].
    inversion Hrun; subst s'. clear Hrun.
    destruct (insert_rows_inv _ _ _ _ _ _ _ _ Hview Hrows) as (new & -> & Hnew).
    specialize (Hnew eq_refl).
    change (comprehension (row_of (ld_fields L)) (PList (r :: records)))
      with (rmap (row_of (ld_fields L)) (r :: records)) in Htuples.
    apply rmap_Forall2 in Htuples.
    exists new. simpl. rewrite !lookup_insert_eq. repeat split; try done.
    + apply Forall2_length in Htuples, Hnew. simpl in *. lia.
    + intros i d row name default Hi Hrow Hopt Hnone.
      destruct (Forall2_lookup_l _ _ _ _ _ Htuples Hi) as (tuple & Hti & Htuple).
      destruct (Forall2_lookup_lr _ _ _ _ _ _ Hnew Hti Hrow)
        as (values & Hbind & ->).
      by eapply default_stored;
        [eapply loaders_fit|eapply loaders_document|..].
  - intros name sv Hdoc. unfold documented_defaults in Hdoc.
    unfold descriptions, loaders. simpl.
    repeat (apply elem_of_cons in Hdoc as [Hdoc|Hdoc];
            [inversion Hdoc; subst; clear Hdoc; optional_of_loader|]).
    by apply elem_of_nil in Hdoc.
Qed.

(** With enforcement on, the same store would refuse an order of a user
    that does not exist. *)
Lemma enforced_foreign_key_rejects :
  insert_row true schema "orders" (ld_names orders_loader)
    [SInt 1; SInt 42; SText "2024-01-01"; SInt 5; SText ""; SText ""]
  = Raise (IntegrityError ForeignKeyFailed).
Proof. by vm_compute. Qed.

(** * Further properties of the script *)

(** ** Batches that fail *)

(** X2.  A loader that raises has printed nothing and written nothing to
    the store file; the rows of the batch that went in before the failing
    one are in the open transaction only, and the rollback of [main] takes
    the connection back to what it saw before the loader was called. *)
Theorem failed_batch_rolls_back L insert data s e s' :
  (L, insert) ∈ loaders ->
  synced s ->
  closed (conn s) = false ->
  insert data s = (Raise e, s') ->
  env s' = env s
  /\ exists s'',
       rollback s' = (Ok tt, s'')
       /\ env s'' = env s
       /\ view (conn s'') = view (conn s)
       /\ in_txn (conn s'') = false.
Proof.
  intros Hin (Htxn & Hsto) Hclosed.
  rewrite (loaders_table_loader _ _ _ Hin), table_loader_run.
  destruct s as [w k]. simpl in *.
  destruct (truthy data); simpl; [|discriminate].
  rewrite Hclosed.
  destruct (comprehension _ _) as [rows|e0].
  2:{ intros [= <- <-]. split; [reflexivity|].
      unfold rollback. simpl. rewrite Hclosed, Htxn. eexists.
      split; [reflexivity|]. simpl. by repeat split. }
  cbv zeta. destruct (prepare_insert _ _ _) as [t|e0].
  2:{ intros [= <- <-]. split; [reflexivity|].
      unfold rollback. simpl. rewrite Hclosed, Htxn. eexists.
      split; [reflexivity|]. simpl. by repeat split. }
  destruct (insert_rows _ _ _ _ _) as [[[]|e0] v]; [discriminate|].
  intros [= <- <-]. split; [reflexivity|].
  unfold rollback, committed. simpl. rewrite Hclosed. eexists.
  split; [reflexivity|]. simpl. rewrite Hsto. by repeat split.
Qed.

Lemma insert_rows_app fk l1 : forall db name columns l2,
  insert_rows fk db name columns (l1 ++ l2)
  = match insert_rows fk db name columns l1 with
    | (Ok _, db') => insert_rows fk db' name columns l2
    | (Raise e, db') => (Raise e, db')
    end.
Proof.
  induction l1 as [|r l1 IH]; intros db name columns l2; simpl; [done|].
  destruct (bind_parameters _ r) as [values|]; [|done].
  destruct (insert_row _ _ _ _ _) as [db1|]; [|done].
  apply IH.
Qed.

Lemma insert_row_repeated L db rows tuple values z :
  fits L = true ->
  db !! ld_table L = Some (declared L rows) ->
  bind_parameters (length (ld_names L)) tuple = Ok values ->
  accepted L tuple = Some z ->
  z ∈ map fst rows ->
  insert_row false db (ld_table L) (ld_names L) values
  = Raise (IntegrityError (UniqueFailed (ld_table L) "id")).
Proof.
  intros Hfits Hdb Hbind Hacc Htaken. unfold insert_row.
  rewrite (prepare_insert_fits L db rows Hfits Hdb). simpl.
  unfold accepted in Hacc. rewrite Hbind in Hacc.
  destruct (pk_value _ _) as [|z'| |]; try done.
  destruct (check_not_null _ _ _) as [[]|]; [|done].
  inversion Hacc; subst z'. simpl.
  unfold rowids. simpl. by rewrite bool_decide_eq_true_2.
Qed.

Lemma fst_row_for L tuple z : fst (row_for L tuple z) = z.
Proof. unfold row_for. by destruct (bind_parameters _ _). Qed.

Lemma rowids_zip_row_for L (P : pyval -> Z -> Prop) tuples keys :
  Forall2 P tuples keys ->
  map fst (zip_with (row_for L) tuples keys) = keys.
Proof.
  induction 1 as [|t z tuples keys _ _ IH]; simpl; [done|].
  by rewrite fst_row_for, IH.
Qed.

(** X1.  A batch of well-formed records in which a record repeats the id
    of an earlier one is refused at that record: the loader raises the
    IntegrityError of the primary key, having printed and committed
    nothing. *)
Theorem repeated_id_raises L insert src db before r after s :
  (L, insert) ∈ loaders ->
  steady src db s ->
  db !! ld_table L = Some (declared L []) ->
  well_formed_file L before ->
  well_formed L r = true ->
  record_id r ∈ map record_id before ->
  Forall (fun r' => has_required L r' = true) after ->
  exists s',
    insert (PList (before ++ r :: after)) s
    = (Raise (IntegrityError (UniqueFailed (ld_table L) "id")), s')
    /\ env s' = env s.
Proof.
  intros Hin ((Hsrc & Hname & Hclosed & Hfk) & _ & Hview) Hdb [Hwf Hnd] Hr
    Hrep Hafter.
  pose proof (loaders_fit _ _ Hin) as Hfits.
  destruct (well_formed_keys L before Hfits Hwf) as (Hreq & keys & Hids & Hacc).
  destruct (well_formed_accepted L r Hfits Hr) as (Hreq_r & z & Hz & Hacc_r).
  destruct (accepted_bound _ _ _ Hacc_r) as [values Hbind].
  assert (z ∈ keys) as Hzk.
  { rewrite Hz, Hids in Hrep. change (Some z ∈ Some <$> keys) in Hrep.
    apply list_elem_of_fmap in Hrep as (z' & [= ->] & Hz'). exact Hz'. }
  assert (NoDup keys) as Hkeys.
  { rewrite Hids in Hnd. change (NoDup (Some <$> keys)) in Hnd.
    by apply (NoDup_fmap_1 Some). }
  rewrite (loaders_table_loader _ _ _ Hin), table_loader_run.
  assert (truthy (PList (before ++ r :: after)) = true) as ->
    by (by destruct before).
  cbv iota. simpl negb. cbv iota. rewrite Hclosed.
  rewrite (comprehension_present L).
  2:{ apply Forall_app. split; [exact Hreq|]. by constructor. }
  cbv zeta.
  change (view (called _ (conn s))) with (view (conn s)).
  change (foreign_keys (called _ (conn s))) with (foreign_keys (conn s)).
  rewrite Hview, Hfk, (prepare_insert_fits L db [] Hfits Hdb).
  rewrite map_app, insert_rows_app.
  rewrite (insert_rows_accepted L _ db [] keys Hfits Hdb Hacc) by done.
  simpl map. simpl insert_rows. rewrite Hbind.
  erewrite insert_row_repeated; [| exact Hfits | by rewrite lookup_insert_eq
                                 | exact Hbind | exact Hacc_r | ].
  - eexists. split; reflexivity.
  - simpl. by rewrite (rowids_zip_row_for L _ _ _ Hacc).
Qed.

(** ** Documents and records of the wrong shape *)

Lemma row_of_non_record L insert r :
  (L, insert) ∈ loaders ->
  is_record r = false ->
  row_of (ld_fields L) r = Raise TypeError.
Proof.
  unfold loaders. rewrite !elem_of_cons, elem_of_nil.
  intros [H|[H|[H|[H|[H|[]]]]]] Hr; inversion H; subst;
    destruct r; try discriminate; reflexivity.
Qed.

Lemma comprehension_type_error L insert before r after :
  (L, insert) ∈ loaders ->
  Forall (fun r' => has_required L r' = true) before ->
  is_record r = false ->
  comprehension (row_of (ld_fields L)) (PList (before ++ r :: after))
  = Raise TypeError.
Proof.
  intros Hin Hbefore Hr. unfold comprehension. simpl.
  induction Hbefore as [|r' before Hr' _ IH]; simpl.
  - by rewrite (row_of_non_record _ _ _ Hin Hr).
  - destruct r'; try done. rewrite (row_of_present _ _ Hr'). simpl.
    by rewrite IH.
Qed.

(** X5.  An array in which an element that is not an object (a number, a
    string, a nested array, null) follows complete records makes the loader
    raise TypeError while it builds its rows: no statement runs and the
    state is as before. *)
Theorem non_object_record_raises L insert before r after s :
  (L, insert) ∈ loaders ->
  closed (conn s) = false ->
  Forall (fun r' => has_required L r' = true) before ->
  is_record r = false ->
  insert (PList (before ++ r :: after)) s = (Raise TypeError, s).
Proof.
  intros Hin Hclosed Hbefore Hr.
  rewrite (loaders_table_loader _ _ _ Hin), table_loader_run.
  assert (truthy (PList (before ++ r :: after)) = true) as ->
    by (by destruct before).
  simpl negb. cbv iota. rewrite Hclosed.
  by rewrite (comprehension_type_error _ _ _ _ _ Hin Hbefore Hr).
Qed.

Lemma characters_nonempty c s :
  exists p more, characters (String c s) = p :: more.
Proof.
  simpl. destruct (characters s) as [|[|c' p] more]; [by eexists _, _..|].
  destruct (continuation c'); by eexists _, _.
Qed.

Lemma misshapen_comprehension L insert data :
  (L, insert) ∈ loaders ->
  misshapen data = true ->
  truthy data = true
  /\ (exists n, len data = Ok n)
  /\ comprehension (row_of (ld_fields L)) data = Raise TypeError.
Proof.
  intros Hin Hdata. unfold comprehension.
  destruct data as [| | | |[|c s]|?|[|[k v] d]|?]; try discriminate.
  - split; [reflexivity|]. split; [by eexists|].
    destruct (characters_nonempty c s) as (p & more & Hchars).
    cbn [iter mbind result_bind rbind]. unfold chars. rewrite Hchars.
    cbn [map rmap mbind result_bind rbind].
    by rewrite (row_of_non_record L insert (PStr _) Hin).
  - split; [reflexivity|]. split; [by eexists|]. simpl.
    by rewrite (row_of_non_record L insert (PStr _) Hin).
Qed.

Lemma misshapen_dies_with L insert (src : gmap string source) data :
  (L, insert) ∈ loaders ->
  src !! ld_file L = Some (Json data) ->
  misshapen data = true ->
  dies_with TypeError L insert src.
Proof.
  intros Hin Hfile Hdata s (Hsrc & _ & Hclosed & _).
  destruct (misshapen_comprehension L insert data Hin Hdata)
    as (Htruthy & (n & Hlen) & Hrows).
  exists [LoadedRecords n (ld_file L)].
  unfold load_and_insert, mbind, M_bind.
  rewrite load_json_file_run, Hsrc, Hfile. simpl. rewrite Hlen. simpl.
  rewrite Htruthy, (loaders_table_loader _ _ _ Hin), table_loader_run.
  rewrite Htruthy. cbn [conn negb]. by rewrite Hclosed, Hrows.
Qed.

(** X4.  A file that holds one JSON object instead of an array of objects
    (or a non-empty string) is loaded, the "Loaded n records" line counting
    its keys (or characters), and the loader then raises TypeError while it
    builds its rows, leaving the state as it was; [main] raises after a
    rollback, this TypeError when the files before are usable, and the
    loader's table stays empty. *)
Theorem misshapen_document_aborts L insert w data s :
  (L, insert) ∈ loaders ->
  sources w !! ld_file L = Some (Json data) ->
  misshapen data = true ->
  closed (conn s) = false ->
  insert data s = (Raise TypeError, s)
  /\ (exists e, fst (main w) = Raise e)
  /\ Rollback ∈ calls (conn (snd (main w)))
  /\ count_rows (committed (snd (main w))) (ld_table L) = Some 0%nat
  /\ (forall before after (batches : list (list pyval)),
        loaders = (before ++ (L, insert) :: after)%list ->
        Forall2 (fun L' records =>
                   usable (fst L') (sources w !! ld_file (fst L')) records)
                before batches ->
        fst (main w) = Raise TypeError).
Proof.
  intros Hin Hfile Hdata Hclosed.
  pose proof (misshapen_dies_with L insert _ _ Hin Hfile Hdata) as Hdies.
  destruct (misshapen_comprehension L insert data Hin Hdata)
    as (Htruthy & _ & Hrows).
  destruct (main_aborts L insert w Hin (dies_with_dies _ _ _ _ Hdies))
    as (Hraise & Hroll & Hcount).
  split.
  { rewrite (loaders_table_loader _ _ _ Hin), table_loader_run.
    by rewrite Htruthy, Hclosed, Hrows. }
  split; [exact Hraise|]. split; [exact Hroll|]. split; [exact Hcount|].
  intros before after batches Hsplit Hus.
  exact (main_raises_first _ _ _ _ _ _ _ Hsplit Hus Hdies).
Qed.

(** ** What an aborted run leaves *)

Lemma progress_kept src counts pending s :
  progress src counts pending s -> kept counts pending s.
Proof.
  intros (db & Hs & Hc & Hp). rewrite <- (steady_committed _ _ _ Hs) in Hc, Hp.
  split; [exact Hc|]. eapply Forall_impl; [exact Hp|].
  intros L HL. unfold count_rows. by rewrite HL.
Qed.

Lemma quiet_kept counts pending : quiet (kept counts pending).
Proof. by intros [[] ?] lines. Qed.

Lemma dies_kept_step L insert src counts pending :
  dies L insert src ->
  hoare (progress src counts (L :: pending)) (load_and_insert L insert)
        (fun _ _ => False) (fun _ => kept counts (L :: pending)).
Proof.
  intros Hdies s Hs. pose proof (progress_kept _ _ _ _ Hs) as Hk.
  destruct Hs as (db & (Hinv & _) & _).
  destruct (Hdies s Hinv) as (e & lines & ->). by apply quiet_kept.
Qed.

Ltac kept_step :=
  numbered_step;
  [ first [ apply dies_kept_step; assumption
          | apply hoare_no_raise; eapply progress_step;
            [in_loaders|eassumption|not_in|not_in] ]
  | try apply hoare_false ].

Lemma main_try_keeps_earlier L insert src before after
    (batches : list (list pyval)) :
  loaders = (before ++ (L, insert) :: after)%list ->
  Forall2 (fun L' records => usable (fst L') (src !! ld_file (fst L')) records)
          before batches ->
  dies L insert src ->
  hoare (steady src ∅) main_try (fun _ _ => False)
        (fun _ => kept (zip_with (fun L' records =>
                                    (ld_table (fst L'), length records))
                                 before batches)
                       (L :: map fst after)).
Proof.
  intros Hsplit Hus Hdies. unfold main_try.
  eapply hoare_bind_ok; [apply steady_print|intros ?; cbv beta].
  eapply hoare_bind_ok; [apply create_tables_steady|intros ?; cbv beta].
  eapply hoare_bind_ok; [apply steady_print|intros ?; cbv beta].
  eapply hoare_bind_ok; [apply steady_print|intros ?; cbv beta].
  eapply hoare_weaken with (P := progress src [] descriptions);
    [|intros s Hs|intros ? ? H; exact H|intros ? ? H; exact H].
  2:{ exists schema. split; [done|]. split; [done|].
      unfold descriptions. by repeat constructor. }
  unfold descriptions, loaders in *.
  destruct before as [|? [|? [|? [|? [|? more]]]]]; simpl in Hsplit;
    inversion Hsplit; subst; clear Hsplit;
    repeat match goal with
           | H : Forall2 _ (_ :: _) _ |- _ =>
               apply Forall2_cons_inv_l in H as (? & ? & ? & H & ->)
           | H : Forall2 _ [] _ |- _ => apply Forall2_nil_inv_l in H as ->
           end;
    simpl in *; repeat kept_step.
  by destruct more.
Qed.

Lemma key_error_dies L insert (src : gmap string source) records :
  (L, insert) ∈ loaders ->
  src !! ld_file L = Some (Json (PList records)) ->
  Forall (fun r => is_record r = true) records ->
  Exists (fun r => has_required L r = false) records ->
  dies L insert src.
Proof.
  intros Hin Hfile Hrec Hex s (Hsrc & _ & Hclosed & _).
  destruct (key_error_loader L insert records Hin Hrec Hex) as (k & _ & Hrun).
  exists (KeyError k), [LoadedRecords (length records) (ld_file L)].
  unfold load_and_insert, mbind, M_bind.
  rewrite load_json_file_run, Hsrc, Hfile. simpl.
  destruct records as [|r records]; [by apply Exists_nil in Hex|].
  simpl. by rewrite Hrun.
Qed.

(** X3.  Each loader commits its own batch, so when a file stops the run
    with a record that lacks a required field, what the loaders before it
    stored stays in the store file, one row per record, and the tables of
    that loader and of the loaders after it are empty. *)
Theorem earlier_tables_stay_loaded L insert w records before after
    (batches : list (list pyval)) :
  loaders = (before ++ (L, insert) :: after)%list ->
  Forall2 (fun L' records' =>
             usable (fst L') (sources w !! ld_file (fst L')) records')
          before batches ->
  sources w !! ld_file L = Some (Json (PList records)) ->
  Forall (fun r => is_record r = true) records ->
  Exists (fun r => has_required L r = false) records ->
  kept (zip_with (fun L' records' => (ld_table (fst L'), length records'))
                 before batches)
       (L :: map fst after) (snd (main w)).
Proof.
  intros Hsplit Hus Hfile Hrec Hex.
  assert ((L, insert) ∈ loaders) as Hin.
  { rewrite Hsplit. apply elem_of_app. right. apply list_elem_of_here. }
  pose proof (key_error_dies L insert _ _ Hin Hfile Hrec Hex) as Hdies.
  pose proof (main_try_keeps_earlier L insert (sources w) before after batches
                Hsplit Hus Hdies (started w) (started_steady w)) as H.
  rewrite main_run.
  destruct (main_try (started w)) as [[[]|e] s]; [destruct H|].
  unfold kept in *. simpl.
  rewrite committed_finished, committed_rolled_back. exact H.
Qed.

(** ** What a stored row holds *)

Lemma insert_row_key fk db name columns values db' :
  insert_row fk db name columns values = Ok db' ->
  exists t z,
    db !! name = Some t
    /\ rowid_of name (rowids t)
         (pk_value (tbl_columns t) (supplied columns values))
       = Ok z
    /\ db' = <[name := Table (tbl_columns t) (tbl_fks t)
                 (tbl_rows t ++ [(z, stored_cells (tbl_columns t)
                                       (supplied columns values) z)])]> db.
Proof.
  unfold insert_row, prepare_insert.
  destruct (db !! name) as [t|] eqn:Ht; simpl; [|done].
  destruct (forallb _ columns); simpl; [|done].
  destruct (rowid_of _ _ _) as [z|] eqn:Hz; simpl; [|done].
  destruct (check_not_null _ _ _); simpl; [|done].
  destruct (bool_decide _); simpl; [done|].
  destruct fk; simpl.
  - destruct (check_foreign_keys _ _ _ _); simpl; [|done].
    intros H; inversion H; subst. by exists t, z.
  - intros H; inversion H; subst. by exists t, z.
Qed.

(** The rows of a batch that went in: each holds the cells of its tuple,
    under the key its primary-key value gives. *)
Lemma insert_rows_keys fk tuples : forall db name columns t db',
  db !! name = Some t ->
  insert_rows fk db name columns tuples = (Ok tt, db') ->
  exists new,
    db' !! name = Some (Table (tbl_columns t) (tbl_fks t) (tbl_rows t ++ new))
    /\ Forall2 (fun tuple row =>
                  exists values used,
                    bind_parameters (length columns) tuple = Ok values
                    /\ rowid_of name used (pk_value (tbl_columns t)
                                             (supplied columns values))
                       = Ok (fst row)
                    /\ snd row = stored_cells (tbl_columns t)
                                   (supplied columns values) (fst row))
               tuples new.
Proof.
  induction tuples as [|tuple tuples IH]; intros db name columns t db' Ht H.
  - simpl in H. inversion H; subst. exists []. split; [|constructor].
    by rewrite app_nil_r, table_eta.
  - simpl in H.
    destruct (bind_parameters _ tuple) as [values|] eqn:Hbind; [|done].
    destruct (insert_row fk db name columns values) as [db1|] eqn:Hrow;
      [|done].
    apply insert_row_key in Hrow as (t' & z & Ht' & Hz & ->).
    assert (t' = t) as -> by congruence.
    eapply IH in H as (new & Hnew & Hall); [|by rewrite lookup_insert_eq].
    simpl in *.
    exists ((z, stored_cells (tbl_columns t) (supplied columns values) z)
            :: new).
    split.
    + rewrite Hnew. by rewrite <- (assoc_L (++)).
    + constructor; [|exact Hall]. by exists values, (rowids t).
Qed.

(** What a loader that returned on a non-empty batch has done: every record
    was an object with the required fields, and the table has one new row
    per record, in order, committed. *)
Lemma stored_batch L insert records rows0 s s' :
  (L, insert) ∈ loaders ->
  records <> [] ->
  view (conn s) !! ld_table L = Some (declared L rows0) ->
  insert (PList records) s = (Ok tt, s') ->
  exists new,
    view (conn s') !! ld_table L = Some (declared L (rows0 ++ new))
    /\ stores (env s') !! db_name (conn s') = Some (view (conn s'))
    /\ Forall2 (fun r row =>
                  exists d values used,
                    r = PDict d
                    /\ has_required L r = true
                    /\ rmap adapt (map (field_read d) (ld_fields L))
                       = Ok values
                    /\ rowid_of (ld_table L) used
                         (pk_value (ld_columns L)
                            (supplied (ld_names L) values))
                       = Ok (fst row)
                    /\ snd row = stored_cells (ld_columns L)
                                   (supplied (ld_names L) values) (fst row))
               records new.
Proof.
  intros Hin Hne Hview Hrun.
  rewrite (loaders_table_loader _ _ _ Hin), table_loader_run in Hrun.
  destruct records as [|r0 records0] eqn:Hrecords; [done|].
  rewrite <- Hrecords in *. clear Hne.
  assert (truthy (PList records) = true) as Htruthy by (by subst).
  rewrite Htruthy in Hrun. simpl negb in Hrun. cbv iota in Hrun.
  destruct (closed (conn s)); [done|].
  change (comprehension (row_of (ld_fields L)) (PList records))
    with (rmap (row_of (ld_fields L)) records) in Hrun.
  destruct (rmap _ records) as [tuples|] eqn:Htuples; [|done].
  cbv zeta in Hrun.
  change (view (called _ (conn s))) with (view (conn s)) in Hrun.
  destruct (prepare_insert _ _ _) as [t|]; [|done].
  destruct (insert_rows _ _ _ _ _) as [[[]|] v] eqn:Hrows; [|done].
  inversion Hrun; subst s'. clear Hrun.
  destruct (insert_rows_keys _ _ _ _ _ _ _ Hview Hrows) as (new & Hv & Hnew).
  apply rmap_Forall2 in Htuples.
  exists new. simpl. rewrite lookup_insert_eq. split; [exact Hv|].
  split; [done|]. clear Hrecords Htruthy Hrows Hv.
  revert new Hnew. induction Htuples as [|r tuple rs tuples Hr _ IH];
    intros new Hnew.
  - inversion Hnew. constructor.
  - inversion Hnew as [|? row ? new' (values & used & Hbind & Hkey & Hcells)
                        Hnew']; subst.
    constructor; [|by apply IH].
    destruct r; try (by rewrite (row_of_non_record L insert) in Hr).
    destruct (has_required L (PDict items)) eqn:Hreq.
    2:{ destruct (row_of_missing L _ Hreq) as (k & _ & _ & Hk). congruence. }
    rewrite (row_of_present L _ Hreq) in Hr. inversion Hr; subst tuple.
    unfold bind_parameters, tuple_of in Hbind.
    destruct (decide _) in Hbind; [|done].
    by exists items, values, used.
Qed.

Lemma loaders_single_key L insert : (L, insert) ∈ loaders -> single_key L = true.
Proof.
  unfold loaders. rewrite !elem_of_cons, elem_of_nil.
  intros [H|[H|[H|[H|[H|[]]]]]]; inversion H; subst; by vm_compute.
Qed.

Lemma find_column cs name c :
  find (fun c => bool_decide (col_name c = name)) cs = Some c ->
  c ∈ cs /\ col_name c = name.
Proof.
  induction cs as [|c' cs IH]; simpl; [done|].
  destruct (bool_decide (col_name c' = name)) eqn:Hc.
  - intros [= ->]. apply bool_decide_eq_true in Hc. split; [by left|done].
  - intros H. destruct (IH H). split; [by right|done].
Qed.

Lemma single_key_pk L c :
  single_key L = true -> c ∈ ld_columns L ->
  col_pk c = true <-> col_name c = "id".
Proof.
  unfold single_key. rewrite forallb_forall. intros H Hc.
  apply list_elem_of_In in Hc. exact (bool_decide_eq_true_1 _ (H c Hc)).
Qed.

Lemma store_cell_fits a sv : fits_column a sv = true -> store_cell a sv = sv.
Proof.
  destruct a, sv as [| |f|]; try done. by destruct f as [[]| | |].
Qed.

(** X6.  In a batch that a loader has stored, a field other than [id] that
    the record gives is stored as given, also an optional field given as
    null, which is stored as NULL and not as the default: the cell holds the
    bound value whenever its storage class is that of the column (text in a
    TEXT column, an integer in an INTEGER column, a float other than -0.0
    in a REAL column, which gives -0.0 back as 0.0) or it is NULL. *)
Theorem given_fields_stored L insert records rows0 s s' :
  (L, insert) ∈ loaders ->
  records <> [] ->
  view (conn s) !! ld_table L = Some (declared L rows0) ->
  insert (PList records) s = (Ok tt, s') ->
  exists new,
    view (conn s') !! ld_table L = Some (declared L (rows0 ++ new))
    /\ length new = length records
    /\ forall i d row f v sv a,
         records !! i = Some (PDict d) ->
         new !! i = Some row ->
         f ∈ ld_fields L ->
         field_name f <> "id" ->
         assoc (field_name f) d = Some v ->
         adapt v = Ok sv ->
         column_type L (field_name f) = Some a ->
         fits_column a sv = true ->
         cell_at (ld_columns L) (snd row) (field_name f) = Some sv.
Proof.
  intros Hin Hne Hview Hrun.
  destruct (stored_batch L insert records rows0 s s' Hin Hne Hview Hrun)
    as (new & Hnew & _ & Hall).
  exists new. split; [exact Hnew|]. split.
  { symmetry. by eapply Forall2_length. }
  intros i d row f v sv a Hi Hrow Hf Hid Hv Hsv Ha Hfit.
  destruct (Forall2_lookup_lr _ _ _ _ _ _ Hall Hi Hrow)
    as (d' & values & used & [= <-] & _ & Hvalues & _ & ->).
  destruct (fits_parts L (loaders_fit _ _ Hin)) as (_ & Hnd & _).
  pose proof (supplied_read d _ values f Hnd Hvalues Hf) as Hsup.
  assert (field_read d f = v) as Hread.
  { destruct f; simpl in *; by rewrite Hv. }
  rewrite Hread, Hsv in Hsup. inversion Hsup as [Hsv'].
  rewrite cell_at_stored. unfold column_type in Ha.
  destruct (find _ (ld_columns L)) as [c|] eqn:Hc; [|done].
  destruct (find_column _ _ _ Hc) as (Hin_c & Hname).
  simpl in *. inversion Ha; subst a.
  destruct (col_pk c) eqn:Hpk.
  - apply (single_key_pk L c (loaders_single_key _ _ Hin) Hin_c) in Hpk.
    congruence.
  - unfold ld_names. rewrite <- Hsv'. by rewrite store_cell_fits.
Qed.

(** X7.  In a batch that a loader has stored, the rows are in the order of
    the records, and the row of a record whose id is a 64-bit integer has
    that id as its key and in its [id] cell. *)
Theorem ids_are_rowids L insert records rows0 s s' :
  (L, insert) ∈ loaders ->
  records <> [] ->
  view (conn s) !! ld_table L = Some (declared L rows0) ->
  insert (PList records) s = (Ok tt, s') ->
  exists new,
    view (conn s') !! ld_table L = Some (declared L (rows0 ++ new))
    /\ length new = length records
    /\ forall i d row z,
         records !! i = Some (PDict d) ->
         new !! i = Some row ->
         record_id (PDict d) = Some z ->
         fst row = z
         /\ cell_at (ld_columns L) (snd row) "id" = Some (SInt z).
Proof.
  intros Hin Hne Hview Hrun.
  destruct (stored_batch L insert records rows0 s s' Hin Hne Hview Hrun)
    as (new & Hnew & _ & Hall).
  exists new. split; [exact Hnew|]. split.
  { symmetry. by eapply Forall2_length. }
  intros i d row z Hi Hrow Hz.
  destruct (Forall2_lookup_lr _ _ _ _ _ _ Hall Hi Hrow)
    as (d' & values & used & [= <-] & _ & Hvalues & Hkey & Hcells).
  destruct (fits_parts L (loaders_fit _ _ Hin))
    as (Hcols & Hnd & Hpk & Hid & _).
  pose proof (supplied_read d _ values _ Hnd Hvalues Hid) as Hsup.
  simpl in Hz, Hsup. destruct (assoc "id" d) as [v|]; [|done].
  simpl in Hz, Hsup. apply int64_adapt in Hz as [-> Hadapt].
  rewrite Hadapt in Hsup. inversion Hsup as [Hsup'].
  rewrite Hpk in Hkey. unfold ld_names in Hkey. rewrite <- Hsup' in Hkey.
  simpl in Hkey. inversion Hkey as [Hz]. split; [done|].
  rewrite Hcells, cell_at_stored.
  assert ("id" ∈ map col_name (ld_columns L)) as Hin_id.
  { rewrite Hcols. apply list_elem_of_fmap. by exists (Required "id"). }
  destruct (find _ (ld_columns L)) as [c|] eqn:Hc.
  - destruct (find_column _ _ _ Hc) as (Hin_c & Hname).
    apply (single_key_pk L c (loaders_single_key _ _ Hin) Hin_c) in Hname.
    simpl. by rewrite Hname, <- Hz.
  - exfalso. apply list_elem_of_fmap in Hin_id as (c & Hname & Hin_c).
    apply list_elem_of_In in Hin_c.
    apply (find_none _ _ Hc) in Hin_c. simpl in Hin_c.
    by rewrite bool_decide_eq_true_2 in Hin_c.
Qed.

(** ** What a run leaves alone *)

Lemma quiet_others_as st0 : quiet (others_as st0).
Proof. by intros [[] ?] lines. Qed.

Lemma others_execute st0 q : keeps (others_as st0) (execute q).
Proof.
  intros [w k] H. unfold execute. simpl.
  destruct (closed k); [exact H|].
  destruct q as [name columns fks|name columns|name]; simpl.
  - destruct (in_txn k); [exact H|].
    intros other Hother. simpl in *. rewrite lookup_insert_ne by done.
    by apply H.
  - exact H.
  - destruct (count_rows (view k) name); exact H.
Qed.

Lemma others_executemany st0 q rows : keeps (others_as st0) (executemany q rows).
Proof.
  intros [w k] H. unfold executemany. simpl.
  destruct (closed k); [exact H|].
  destruct q as [name columns fks|name columns|name]; simpl; try exact H.
  destruct (prepare_insert _ _ _); simpl; [|exact H].
  destruct (insert_rows _ _ _ _ _) as [[[]|e] v]; exact H.
Qed.

Lemma others_commit st0 : keeps (others_as st0) commit.
Proof.
  intros [w k] H. unfold commit. simpl.
  destruct (closed k); [exact H|].
  destruct (in_txn k); [|exact H].
  intros other Hother. simpl in *. rewrite lookup_insert_ne by done.
  by apply H.
Qed.

Lemma others_rollback st0 : keeps (others_as st0) rollback.
Proof.
  intros [w k] H. unfold rollback. simpl.
  destruct (closed k); exact H.
Qed.

#[local] Hint Resolve quiet_others_as others_execute others_executemany
  others_commit others_rollback : keeps.

Lemma others_main_try st0 : keeps (others_as st0) main_try.
Proof.
  unfold main_try, create_tables, verify_data, insert_users, insert_products,
    insert_orders, insert_order_items, insert_payments.
  repeat keeps_step.
Qed.

Lemma started_others w : others_as (stores w) (started w).
Proof.
  destruct w as [src sto out]. unfold started, create_database, connect.
  simpl. intros other Hother.
  destruct (bool_decide _); simpl in *.
  - rewrite lookup_insert_ne by done. by rewrite lookup_delete_ne.
  - by rewrite lookup_insert_ne.
Qed.

(** X8.  Whatever the files hold and however the run ends, [main] leaves
    the source files as they were and writes to no store file but
    [ecom.db]. *)
Theorem main_touches_only_its_store w :
  sources (env (snd (main w))) = sources w
  /\ forall other, other <> "ecom.db" ->
                   stores (env (snd (main w))) !! other = stores w !! other.
Proof.
  split; [apply main_keeps_sources|].
  intros other Hother. rewrite main_run.
  pose proof (others_main_try (stores w) (started w) (started_others w)) as H.
  pose proof (inv_main_try (sources w) (started w)
                (proj1 (started_steady w))) as Hinv.
  destruct (main_try (started w)) as [[[]|e] s1];
    destruct Hinv as (_ & Hname & _);
    (assert (stores (env s1) !! other = stores w !! other) as Hs1
       by (apply H; rewrite Hname; exact Hother));
    destruct s1 as [[] k]; exact Hs1.
Qed.

Lemma quiet_shaped : quiet shaped.
Proof. by intros [[] ?] lines. Qed.

Lemma shaped_execute q : keeps shaped (execute q).
Proof.
  intros [w k] H. unfold execute. simpl.
  destruct (closed k); [exact H|].
  destruct q as [name columns fks|name columns|name]; simpl.
  - assert (Forall (fun L => exists rows,
                match view k !! name with
                | Some _ => view k
                | None => <[name:=Table columns fks []]> (view k)
                end !! ld_table L = Some (declared L rows)) descriptions)
      as Hview.
    { eapply Forall_impl; [exact H|]. intros L ((rows & Hrows) & _).
      simpl in Hrows. exists rows.
      destruct (view k !! name) eqn:Hname; [exact Hrows|].
      rewrite lookup_insert_ne; [exact Hrows|]. intros ->. congruence. }
    unfold shaped, committed in *. simpl in *.
    destruct (in_txn k); simpl.
    + apply Forall_forall. intros L HL.
      rewrite Forall_forall in H, Hview.
      split; [by apply Hview|by apply H].
    + rewrite lookup_insert_eq. simpl.
      eapply Forall_impl; [exact Hview|]. by intros L HL.
  - exact H.
  - destruct (count_rows (view k) name); exact H.
Qed.

Lemma shaped_executemany q rows : keeps shaped (executemany q rows).
Proof.
  intros [w k] H. unfold executemany. simpl.
  destruct (closed k); [exact H|].
  destruct q as [name columns fks|name columns|name]; simpl; try exact H.
  destruct (prepare_insert _ _ _) as [t|] eqn:Hprep; simpl; [|exact H].
  apply prepare_insert_inv in Hprep. simpl in Hprep.
  assert (forall r v,
            insert_rows (foreign_keys k) (view k) name columns rows = (r, v) ->
            shaped (State w (set_view v true
                               (called (ExecuteMany (InsertInto name columns)
                                          (length rows)) k)))) as Hany.
  { intros r v Hrows.
    destruct (insert_rows_inv _ _ _ _ _ _ _ _ Hprep Hrows) as (new & -> & _).
    eapply Forall_impl; [exact H|]. intros L ((rows0 & Hrows0) & Hsto).
    split; [|exact Hsto]. simpl in *.
    destruct (decide (name = ld_table L)) as [->|Hne].
    - rewrite lookup_insert_eq. rewrite Hrows0 in Hprep.
      inversion Hprep; subst t. by eexists.
    - rewrite lookup_insert_ne by done. by exists rows0. }
  destruct (insert_rows _ _ _ _ _) as [[[]|e] v] eqn:Hrows;
    by eapply Hany.
Qed.

Lemma shaped_commit : keeps shaped commit.
Proof.
  intros [w k] H. unfold commit. simpl.
  destruct (closed k); [exact H|].
  unfold shaped, committed in *. simpl in *.
  destruct (in_txn k); simpl; [|exact H].
  rewrite lookup_insert_eq. simpl.
  eapply Forall_impl; [exact H|]. by intros L (Hview & _).
Qed.

Lemma shaped_rollback : keeps shaped rollback.
Proof.
  intros [w k] H. unfold rollback. simpl.
  destruct (closed k); [exact H|].
  unfold shaped, committed in *. simpl in *.
  destruct (in_txn k); simpl; [|exact H].
  eapply Forall_impl; [exact H|]. by intros L (_ & Hsto).
Qed.

#[local] Hint Resolve quiet_shaped shaped_execute shaped_executemany
  shaped_commit shaped_rollback : keeps.

Lemma steady_schema_shaped src s : steady src schema s -> shaped s.
Proof.
  intros Hs. pose proof (steady_committed _ _ _ Hs) as Hc.
  destruct Hs as (_ & _ & Hview).
  unfold shaped. rewrite Hc, Hview. unfold descriptions.
  repeat constructor; by exists [].
Qed.

Lemma shaped_main_try src :
  hoare (steady src ∅) main_try (fun _ => shaped) (fun _ => shaped).
Proof.
  unfold main_try.
  eapply hoare_bind_ok; [apply steady_print|intros ?; cbv beta].
  eapply hoare_bind_ok; [apply create_tables_steady|intros ?; cbv beta].
  eapply hoare_weaken with (P := shaped);
    [|apply steady_schema_shaped|intros ? ? H; exact H|intros ? ? H; exact H].
  unfold verify_data, insert_users, insert_products, insert_orders,
    insert_order_items, insert_payments.
  repeat keeps_step.
Qed.

(** X9.  Whatever the files hold, also when the run fails, the store file
    that [main] leaves has the five tables with the columns and references
    that [create_tables] declares. *)
Theorem tables_keep_declaration w :
  Forall (fun L => exists rows,
            committed (snd (main w)) !! ld_table L = Some (declared L rows))
         descriptions.
Proof.
  rewrite main_run.
  pose proof (shaped_main_try (sources w) (started w) (started_steady w)) as H.
  destruct (main_try (started w)) as [[[]|e] s]; simpl;
    rewrite ?committed_finished, ?committed_rolled_back;
    (eapply Forall_impl; [exact H|]); by intros L (_ & Hsto).
Qed.

(** ** The verification and the creation of tables, on their own *)

Lemma quiet_same_data s0 : quiet (same_data s0).
Proof. by intros [[] ?] lines. Qed.

Lemma same_data_select s0 name :
  keeps (same_data s0) (execute (SelectCountFrom name)).
Proof.
  intros [w k] H. unfold execute. simpl.
  destruct (closed k) eqn:Hclosed; [exact H|].
  destruct (count_rows (view k) name); exact H.
Qed.

#[local] Hint Resolve quiet_same_data same_data_select : keeps.

(** X10.  [verify_data] only reads: whatever the state and however it ends,
    the source files, the store files and what the connection sees are as
    before; only the console and the record of calls change. *)
Theorem verify_data_reads_only s :
  same_data s (snd (verify_data s)).
Proof.
  assert (keeps (same_data s) verify_data) as H.
  { unfold verify_data. repeat keeps_step. }
  assert (same_data s s) as Hs by (by repeat split).
  specialize (H s Hs). by destruct (verify_data s) as [[[]|e] s'].
Qed.

(** X11.  On an open connection that has the five tables, [verify_data]
    prints the heading, then one line per table with its number of rows, in
    the order users, products, orders, order_items, payments, then the
    closing rule, and returns. *)
Theorem verify_data_prints_counts s n1 n2 n3 n4 n5 :
  closed (conn s) = false ->
  map (count_rows (view (conn s))) tables
  = [Some n1; Some n2; Some n3; Some n4; Some n5] ->
  fst (verify_data s) = Ok tt
  /\ stdout (env (snd (verify_data s)))
     = (stdout (env s)
        ++ [ Text (nl ++ times "=" 50);
             Text "Data Verification:";
             Text (times "=" 50);
             TableCount "users" (SInt (Z.of_nat n1));
             TableCount "products" (SInt (Z.of_nat n2));
             TableCount "orders" (SInt (Z.of_nat n3));
             TableCount "order_items" (SInt (Z.of_nat n4));
             TableCount "payments" (SInt (Z.of_nat n5));
             Text (times "=" 50) ])%list.
Proof.
  intros Hclosed Hcounts. unfold tables in Hcounts. cbn [map] in Hcounts.
  inversion Hcounts as [[H1 H2 H3 H4 H5]]. clear Hcounts.
  destruct s as [[src sto out] k]. cbn [conn env stdout] in *.
  unfold verify_data, tables, for_each, mbind, M_bind, cursor, print,
    execute, lift, say. cbn -[count_rows times nl].
  repeat (first [ rewrite Hclosed | rewrite H1 | rewrite H2 | rewrite H3
                | rewrite H4 | rewrite H5 ];
          cbn -[count_rows times nl]).
  split; [reflexivity|]. by rewrite <- !(assoc_L (++)).
Qed.

(** A missing table stops the verification with OperationalError. *)
Lemma verify_data_missing_table s :
  closed (conn s) = false ->
  view (conn s) !! "users" = None ->
  fst (verify_data s) = Raise OperationalError.
Proof.
  destruct s as [[src sto out] k]. simpl. intros Hclosed Hnone.
  unfold verify_data, tables, for_each, mbind, M_bind, cursor, print,
    execute, lift, say, count_rows. cbn -[times nl].
  rewrite Hclosed. cbn -[times nl]. rewrite Hclosed. cbn -[times nl].
  by rewrite Hnone.
Qed.

Lemma execute_create_existing src db name columns fks s :
  steady src db s ->
  is_Some (db !! name) ->
  execute (CreateTableIfNotExists name columns fks) s
  = (Ok [], State (env s)
                  (called (Execute (CreateTableIfNotExists name columns fks))
                          (conn s))).
Proof.
  destruct s as [[src' sto out] k].
  intros ((? & ? & Hclosed & ?) & (Htxn & Hsto) & Hview) [t Ht].
  simpl in *. unfold execute. simpl.
  rewrite Hclosed, Htxn, Hview, Ht. unfold write_store, set_view. simpl.
  rewrite insert_id by (by rewrite Hsto, Hview).
  by destruct k; simpl in *; subst.
Qed.

Lemma steady_called src db c s :
  steady src db s -> steady src db (State (env s) (called c (conn s))).
Proof. by destruct s as [[] ?]. Qed.

(** X12.  On a store that already has the five tables, [create_tables]
    creates nothing anew: the tables and their rows, in the store file and
    as the connection sees them, are as before (CREATE TABLE IF NOT
    EXISTS), and the call returns. *)
Theorem create_tables_keeps_existing src db s :
  steady src db s ->
  Forall (fun name => is_Some (db !! name)) tables ->
  fst (create_tables s) = Ok tt
  /\ steady src db (snd (create_tables s))
  /\ stores (env (snd (create_tables s))) = stores (env s).
Proof.
  intros Hs Hall. unfold tables in Hall.
  repeat match goal with
         | H : Forall _ (_ :: _) |- _ => apply Forall_cons in H as [? H]
         end.
  unfold create_tables, mbind, M_bind.
  assert (cursor s = (Ok tt, s)) as ->.
  { unfold cursor. by destruct Hs as ((_ & _ & -> & _) & _). }
  repeat (erewrite execute_create_existing;
          [|first [eassumption | apply steady_called; eassumption
                  | repeat apply steady_called; eassumption]|eassumption]).
  destruct s as [[src' sto out] k].
  destruct Hs as ((? & ? & Hclosed & ?) & (Htxn & Hsto) & Hview).
  simpl in *. unfold commit, print. simpl. rewrite Hclosed, Htxn. simpl.
  split; [reflexivity|]. split; [|reflexivity]. by repeat split.
Qed.


(** ** The source loader and the store initializer, on their own *)

(** X13.  [load_json_file] touches nothing but the console: the files and
    the connection are as before.  When it returns it has printed exactly
    one line; when it raises it has printed nothing, and the exception is
    neither of the two it handles, FileNotFoundError and JSONDecodeError. *)
Theorem load_json_file_only_prints file_path s :
  conn (snd (load_json_file file_path s)) = conn s
  /\ sources (env (snd (load_json_file file_path s))) = sources (env s)
  /\ stores (env (snd (load_json_file file_path s))) = stores (env s)
  /\ match fst (load_json_file file_path s) with
     | Ok _ =>
         exists line,
           stdout (env (snd (load_json_file file_path s)))
           = (stdout (env s) ++ [line])%list
     | Raise e =>
         e <> FileNotFoundError
         /\ (forall detail, e <> JSONDecodeError detail)
         /\ stdout (env (snd (load_json_file file_path s))) = stdout (env s)
     end.
Proof.
  rewrite load_json_file_run. destruct s as [[src sto out] k]. simpl.
  repeat (split; [reflexivity|]).
  destruct (src !! file_path) as [[why| |detail| |data]|]; simpl.
  - destruct why; (split; [discriminate|]);
      (split; [discriminate|by rewrite app_nil_r]).
  - split; [discriminate|]. split; [discriminate|by rewrite app_nil_r].
  - by eexists.
  - split; [discriminate|]. split; [discriminate|by rewrite app_nil_r].
  - destruct data; simpl; try (by eexists);
      (split; [discriminate|]);
      (split; [discriminate|by rewrite app_nil_r]).
  - by eexists.
Qed.

(** X14.  [create_database] starts from a clean slate: whatever the store
    file held, it is there and empty afterwards, and the new connection is
    open, outside a transaction, without foreign-key enforcement, and sees
    no table.  The other files are as before, and the removal is reported
    exactly when there was a store file. *)
Theorem create_database_starts_empty name w :
  view (fst (create_database name w)) = ∅
  /\ stores (snd (create_database name w)) !! name = Some ∅
  /\ db_name (fst (create_database name w)) = name
  /\ closed (fst (create_database name w)) = false
  /\ in_txn (fst (create_database name w)) = false
  /\ foreign_keys (fst (create_database name w)) = false
  /\ calls (fst (create_database name w)) = []
  /\ sources (snd (create_database name w)) = sources w
  /\ (forall other, other <> name ->
        stores (snd (create_database name w)) !! other = stores w !! other)
  /\ stdout (snd (create_database name w))
     = (stdout w
        ++ match stores w !! name with
           | Some _ => [RemovedDatabase name]
           | None => []
           end
        ++ [CreatedDatabase name])%list.
Proof.
  destruct w as [src sto out]. unfold create_database, connect. simpl.
  destruct (sto !! name) as [db|] eqn:Hdb.
  - rewrite bool_decide_eq_true_2 by (by exists db). simpl.
    rewrite lookup_delete_eq. simpl. rewrite lookup_insert_eq.
    repeat (split; [reflexivity|]). split.
    + intros other Hother. rewrite lookup_insert_ne by done.
      by rewrite lookup_delete_ne.
    + by rewrite <- (assoc_L (++)).
  - rewrite bool_decide_eq_false_2 by (by intros [? ?]). simpl.
    rewrite Hdb. simpl. rewrite lookup_insert_eq.
    repeat (split; [reflexivity|]). split; [|reflexivity].
    intros other Hother. by rewrite lookup_insert_ne.
Qed.

(** ** One transaction per loader *)

Lemma length_chars s : length (chars s) = length (characters s).
Proof. unfold chars. by rewrite length_map. Qed.

(** X15.  A loader that returns on a non-empty batch has made two calls on
    the connection, one [executemany] with a row per element of the batch
    and one [commit], and has printed one line with the size of the batch;
    no transaction is left open and the store file holds what the
    connection sees. *)
Theorem loader_commits_once L insert data s s' :
  (L, insert) ∈ loaders ->
  truthy data = true ->
  insert data s = (Ok tt, s') ->
  calls (conn s')
  = (calls (conn s)
     ++ [ExecuteMany (InsertInto (ld_table L) (ld_names L)) (size data);
         Commit])%list
  /\ stdout (env s')
     = (stdout (env s) ++ [Inserted (size data) (ld_what L)])%list
  /\ synced s'.
Proof.
  intros Hin Htruthy.
  rewrite (loaders_table_loader _ _ _ Hin), table_loader_run, Htruthy.
  simpl negb. cbv iota.
  destruct (closed (conn s)); [discriminate|].
  destruct (comprehension _ data) as [rows|] eqn:Hrows; [|discriminate].
  cbv zeta.
  destruct (prepare_insert _ _ _); [|discriminate].
  destruct (insert_rows _ _ _ _ _) as [[[]|] v]; [|discriminate].
  intros [= <-].
  assert (length rows = size data) as ->.
  { unfold comprehension, size in *.
    destruct data; simpl in *; try discriminate;
      apply rmap_length in Hrows; rewrite Hrows;
      by rewrite ?length_chars, ?length_map. }
  destruct s as [[src sto out] k]. simpl.
  split; [reflexivity|]. split; [reflexivity|].
  split; [reflexivity|]. simpl. by rewrite lookup_insert_eq.
Qed.


(** ** The console of a run *)

Lemma quiet_grown out : quiet (grown out).
Proof.
  intros [[] ?] lines [more H]. exists (more ++ lines)%list. simpl in *.
  rewrite H. by rewrite (assoc_L (++)).
Qed.

Lemma grown_execute out q : keeps (grown out) (execute q).
Proof.
  intros [w k] H. unfold execute. simpl.
  destruct (closed k); [exact H|].
  destruct q as [name columns fks|name columns|name]; simpl.
  - destruct (in_txn k); exact H.
  - exact H.
  - destruct (count_rows (view k) name); exact H.
Qed.

Lemma grown_executemany out q rows : keeps (grown out) (executemany q rows).
Proof.
  intros [w k] H. unfold executemany. simpl.
  destruct (closed k); [exact H|].
  destruct q as [name columns fks|name columns|name]; simpl; try exact H.
  destruct (prepare_insert _ _ _); simpl; [|exact H].
  destruct (insert_rows _ _ _ _ _) as [[[]|e] v]; exact H.
Qed.

Lemma grown_commit out : keeps (grown out) commit.
Proof.
  intros [w k] H. unfold commit. simpl.
  destruct (closed k); [exact H|]. destruct (in_txn k); exact H.
Qed.

#[local] Hint Resolve quiet_grown grown_execute grown_executemany
  grown_commit : keeps.

Lemma hoare_bind_keeps {A B} P (m : M A) (k : A -> M B) Q :
  keeps P m -> (forall a, hoare P (k a) Q (fun _ => P)) ->
  hoare P (m ≫= k) Q (fun _ => P).
Proof. intros Hm Hk. by apply hoare_bind with (Q' := fun _ => P). Qed.

Ltac grown_step :=
  unfold create_tables, verify_data, insert_users, insert_products,
    insert_orders, insert_order_items, insert_payments;
  repeat keeps_step.

(** The [try] of [main] starts with its first line and, when it gets to its
    end, ends with the three lines of success. *)
Lemma main_try_console s :
  hoare (fun s0 => s0 = s) main_try
        (fun _ s' =>
           exists mid,
             stdout (env s')
             = (stdout (env s)
                ++ [Text (nl ++ "Creating database tables...")] ++ mid
                ++ [ Text (nl ++ times "=" 50);
                     Text "Data ingestion completed successfully!";
                     Text (times "=" 50) ])%list)
        (fun _ => grown (stdout (env s)
                         ++ [Text (nl ++ "Creating database tables...")])).
Proof.
  unfold main_try.
  eapply hoare_bind with
    (Q' := fun _ => grown (stdout (env s)
                           ++ [Text (nl ++ "Creating database tables...")])).
  { intros ? ->. destruct s as [[] ?]. unfold print. cbn [env stdout say].
    exists []. by rewrite app_nil_r. }
  intros ?. cbv beta.
  do 14 (apply hoare_bind_keeps; [grown_step|intros ?; cbv beta]).
  intros [[src sto out] k] [more H]. unfold mbind, M_bind, print.
  cbn [env conn stdout say] in *. exists more. rewrite H.
  by rewrite <- !(assoc_L (++)).
Qed.

Lemma started_console w :
  stdout (env (started w))
  = (stdout w
     ++ [ Text (times "=" 50); Text "E-commerce Data Ingestion Script";
          Text (times "=" 50); Text "" ]
     ++ match stores w !! "ecom.db" with
        | Some _ => [RemovedDatabase "ecom.db"]
        | None => []
        end
     ++ [CreatedDatabase "ecom.db"])%list.
Proof.
  destruct w as [src sto out]. unfold started, create_database, connect.
  cbn [stores say sources stdout].
  destruct (sto !! "ecom.db") as [db|] eqn:Hdb.
  - rewrite bool_decide_eq_true_2 by (by exists db).
    cbn [env stdout say write_store sources stores].
    by rewrite <- !(assoc_L (++)).
  - rewrite bool_decide_eq_false_2 by (by intros [? ?]).
    cbn [env stdout say write_store sources stores].
    by rewrite <- !(assoc_L (++)).
Qed.

(** X16.  The console of a run, whatever the files hold: after what was
    there, the banner, the removal of the old store file if there was one,
    its creation, the first line of the [try]; at the end, the three lines
    of success when [main] returns, the line of the error when it raises,
    and in both cases the closing of the connection as the last line. *)
Theorem main_console w :
  exists mid,
    stdout (env (snd (main w)))
    = (stdout w
       ++ [ Text (times "=" 50); Text "E-commerce Data Ingestion Script";
            Text (times "=" 50); Text "" ]
       ++ match stores w !! "ecom.db" with
          | Some _ => [RemovedDatabase "ecom.db"]
          | None => []
          end
       ++ [ CreatedDatabase "ecom.db";
            Text (nl ++ "Creating database tables...") ]
       ++ mid
       ++ match fst (main w) with
          | Ok _ => [ Text (nl ++ times "=" 50);
                      Text "Data ingestion completed successfully!";
                      Text (times "=" 50) ]
          | Raise e => [IngestionError e]
          end
       ++ [Text (nl ++ "Database connection closed.")])%list.
Proof.
  rewrite main_run.
  pose proof (main_try_console (started w) (started w) eq_refl) as H.
  rewrite started_console in H.
  destruct (main_try (started w)) as [[[]|e] [[src sto out] k]];
    destruct H as [mid H]; exists mid;
    unfold finished, rolled_back; cbn [fst snd env conn stdout say] in *;
    rewrite H, <- !(assoc_L (++)); reflexivity.
Qed.

(** ** The report of a run that returns *)

Lemma quiet_tabled src : quiet (tabled src).
Proof.
  intros s lines (db & Hs & Hall). exists db. split; [|exact Hall].
  by apply quiet_steady.
Qed.

Lemma tabled_loader src L insert data :
  (L, insert) ∈ loaders ->
  hoare (tabled src) (insert data) (fun _ => tabled src) (fun _ _ => True).
Proof.
  intros Hin s (db & Hs & Hall).
  rewrite (loaders_table_loader _ _ _ Hin), table_loader_run.
  destruct (truthy data); simpl negb; cbv iota; [|by exists db].
  destruct (closed (conn s)); [exact I|].
  destruct (comprehension _ data) as [rows|]; [|exact I].
  cbv zeta.
  destruct (prepare_insert _ _ _) as [t|] eqn:Hprep; [|exact I].
  destruct (insert_rows _ _ _ _ _) as [[[]|] v] eqn:Hrows; [|exact I].
  apply prepare_insert_inv in Hprep.
  destruct (insert_rows_inv _ _ _ _ _ _ _ _ Hprep Hrows) as (new & Hv & _).
  exists v. split; [by eapply steady_inserted|].
  pose proof Hs as (_ & _ & Hview).
  change (view (called _ (conn s))) with (view (conn s)) in Hv.
  rewrite Hview in Hv. subst v.
  eapply Forall_impl; [exact Hall|]. intros name Hname. simpl.
  by apply lookup_insert_is_Some'; right.
Qed.

Lemma schema_tabled src s : steady src schema s -> tabled src s.
Proof.
  intros Hs. exists schema. split; [exact Hs|].
  unfold tables, schema. repeat constructor; by eexists.
Qed.

Lemma tabled_verify_data src :
  hoare (tabled src) verify_data (fun _ => truthful) (fun _ _ => True).
Proof.
  intros s (db & Hs & Hall).
  assert (forall name, name ∈ tables ->
            count_rows db name
            = Some (default 0%nat (count_rows db name))) as Hn.
  { intros name Hname. rewrite Forall_forall in Hall.
    destruct (Hall name Hname) as [t Ht]. unfold count_rows.
    by rewrite Ht. }
  pose proof (verify_data_reports src db _ Hn s Hs) as Hv.
  destruct (verify_data s) as [[[]|e] s']; [|exact I].
  destruct Hv as (Hs' & Hrep). intros name Hname.
  exists (default 0%nat (count_rows db name)).
  rewrite (steady_committed _ _ _ Hs'). split; [by apply Hn|by apply Hrep].
Qed.

Lemma quiet_truthful : quiet truthful.
Proof.
  intros [[src sto out] k] lines H name Hname.
  destruct (H name Hname) as (n & Hn & Hrep). exists n. split; [exact Hn|].
  by apply (quiet_reported _ _ _ lines) in Hrep.
Qed.

Lemma hoare_keeps_any {A} P (m : M A) :
  keeps P m -> hoare P m (fun _ => P) (fun _ _ => True).
Proof. intros H. eapply hoare_weaken; [exact H|done|done|done]. Qed.

Lemma truthful_main_try src :
  hoare (steady src ∅) main_try (fun _ => truthful) (fun _ _ => True).
Proof.
  unfold main_try.
  eapply hoare_bind_ok; [apply steady_print|intros ?; cbv beta].
  eapply hoare_bind_ok; [apply create_tables_steady|intros ?; cbv beta].
  eapply hoare_bind_ok; [apply steady_print|intros ?; cbv beta].
  eapply hoare_bind_ok; [apply steady_print|intros ?; cbv beta].
  eapply hoare_weaken with (P := tabled src);
    [|apply schema_tabled|intros ? ? H; exact H|intros ? ? H; exact H].
  do 5 (eapply hoare_bind;
        [apply hoare_keeps_any, keeps_load_json_file, quiet_tabled
        |intros ?; cbv beta];
        eapply hoare_bind;
        [apply hoare_if; intros _;
         [eapply tabled_loader; in_loaders
         |apply hoare_keeps_any, keeps_mret]
        |intros ?; cbv beta]).
  eapply hoare_bind; [apply tabled_verify_data|intros ?; cbv beta].
  apply hoare_keeps_any.
  repeat keeps_step; apply keeps_print, quiet_truthful.
Qed.

(** X17.  When [main] returns, the console holds, for each of the five
    tables, the line of the verification with the number of rows that the
    store file has in that table at the end of the run. *)
Theorem report_matches_store w name :
  fst (main w) = Ok tt ->
  name ∈ tables ->
  exists n,
    count_rows (committed (snd (main w))) name = Some n
    /\ reported name n (snd (main w)).
Proof.
  rewrite main_run.
  pose proof (truthful_main_try (sources w) (started w)
                (started_steady w)) as H.
  destruct (main_try (started w)) as [[[]|e] s]; [|discriminate].
  intros _ Hname. destruct (H name Hname) as (n & Hn & Hrep).
  exists n. cbn [snd]. rewrite committed_finished. split; [exact Hn|].
  destruct s as [[src sto out] k]. unfold reported, finished in *.
  cbn [env conn stdout say] in *. apply elem_of_app. by left.
Qed.


(** ** A required field given as null *)

Lemma check_not_null_raises name cs (value_of : string -> sqlval) c :
  c ∈ cs -> col_notnull c = true -> col_pk c = false ->
  value_of (col_name c) = SNull ->
  exists column,
    check_not_null name cs value_of
    = Raise (IntegrityError (NotNullFailed name column)).
Proof.
  intros Hc Hn Hp Hv. induction cs as [|c' cs IH]; simpl.
  - by apply elem_of_nil in Hc.
  - destruct (col_notnull c' && negb (col_pk c')
              && bool_decide (value_of (col_name c') = SNull)) eqn:Hc'.
    + by eexists.
    + apply elem_of_cons in Hc as [->|Hc]; [|by apply IH].
      rewrite Hn, Hp, bool_decide_eq_true_2 in Hc' by done. discriminate.
Qed.

(** The required fields other than [id] are the NOT NULL columns. *)
Lemma loaders_required_not_null L insert name :
  (L, insert) ∈ loaders ->
  Required name ∈ ld_fields L ->
  name <> "id" ->
  exists c, c ∈ ld_columns L /\ col_name c = name
            /\ col_notnull c = true /\ col_pk c = false.
Proof.
  intros Hin Hf Hid.
  assert (forallb
            (fun f =>
               match f with
               | Required k =>
                   bool_decide (k = "id")
                   || existsb (fun c => bool_decide (col_name c = k)
                                        && col_notnull c && negb (col_pk c))
                              (ld_columns L)
               | Optional _ _ => true
               end) (ld_fields L) = true) as Hall.
  { revert Hin. unfold loaders. rewrite !elem_of_cons, elem_of_nil.
    intros [H|[H|[H|[H|[H|[]]]]]]; inversion H; subst; by vm_compute. }
  rewrite forallb_forall in Hall. apply list_elem_of_In in Hf.
  specialize (Hall _ Hf). cbv beta iota in Hall.
  apply orb_true_iff in Hall as [Hall|Hall].
  { by apply bool_decide_eq_true in Hall. }
  apply existsb_exists in Hall as (c & Hc & Hall).
  apply andb_true_iff in Hall as [Hall Hpk].
  apply andb_true_iff in Hall as [Hname Hnotnull].
  apply bool_decide_eq_true in Hname. apply negb_true_iff in Hpk.
  exists c. split; [by apply list_elem_of_In|]. by repeat split.
Qed.

Lemma scalar_fields_adapt d fs :
  Forall (fun f => scalar (field_read d f) = true) fs ->
  exists svs, rmap adapt (map (field_read d) fs) = Ok svs.
Proof.
  induction 1 as [|f fs Hf _ [svs IH]]; simpl; [by exists []|].
  destruct (scalar_adapt _ Hf) as [sv Hsv]. rewrite Hsv, IH. by eexists.
Qed.

(** X18.  A record that has every required field but gives one of them,
    other than [id], as null is refused by the NOT NULL constraint of the
    table: the loader raises IntegrityError at that record, having printed
    and committed nothing. *)
Theorem null_required_field_raises L insert src db before d name after s :
  (L, insert) ∈ loaders ->
  steady src db s ->
  db !! ld_table L = Some (declared L []) ->
  well_formed_file L before ->
  has_required L (PDict d) = true ->
  Forall (fun f => scalar (field_read d f) = true) (ld_fields L) ->
  is_Some (record_id (PDict d)) ->
  Required name ∈ ld_fields L ->
  name <> "id" ->
  assoc name d = Some PNone ->
  Forall (fun r' => has_required L r' = true) after ->
  exists column s',
    insert (PList (before ++ PDict d :: after)) s
    = (Raise (IntegrityError (NotNullFailed (ld_table L) column)), s')
    /\ env s' = env s.
Proof.
  intros Hin ((Hsrc & Hname & Hclosed & Hfk) & _ & Hview) Hdb [Hwf Hnd] Hr
    Hscalar [z Hz] Hreq Hid Hnull Hafter.
  pose proof (loaders_fit _ _ Hin) as Hfits.
  destruct (fits_parts L Hfits) as (Hcols & Hnames & Hpk & Hidf & _).
  destruct (well_formed_keys L before Hfits Hwf) as (Hbefore & keys & Hids & Hacc).
  destruct (scalar_fields_adapt d _ Hscalar) as [svs Hsvs].
  assert (bind_parameters (length (ld_names L)) (tuple_of L (PDict d)) = Ok svs)
    as Hbind.
  { unfold bind_parameters, tuple_of.
    rewrite decide_True by (unfold ld_names; by rewrite !length_map).
    exact Hsvs. }
  assert (supplied (ld_names L) svs "id" = SInt z) as Hkey.
  { pose proof (supplied_read d _ svs _ Hnames Hsvs Hidf) as Hs.
    simpl in Hs, Hz. destruct (assoc "id" d) as [v|]; [|done].
    simpl in Hs, Hz. apply int64_adapt in Hz as [-> Hv].
    unfold ld_names. congruence. }
  assert (supplied (ld_names L) svs name = SNull) as Hcell.
  { pose proof (supplied_read d _ svs _ Hnames Hsvs Hreq) as Hs.
    simpl in Hs. rewrite Hnull in Hs. simpl in Hs.
    unfold ld_names. congruence. }
  destruct (loaders_required_not_null L insert name Hin Hreq Hid)
    as (c & Hc & Hcname & Hnotnull & Hnopk).
  destruct (check_not_null_raises (ld_table L) (ld_columns L)
              (supplied (ld_names L) svs) c Hc Hnotnull Hnopk)
    as [column Hcheck]; [by rewrite Hcname|].
  assert (NoDup keys) as Hkeys.
  { rewrite Hids in Hnd. change (NoDup (Some <$> keys)) in Hnd.
    by apply (NoDup_fmap_1 Some). }
  exists column.
  rewrite (loaders_table_loader _ _ _ Hin), table_loader_run.
  assert (truthy (PList (before ++ PDict d :: after)) = true) as ->
    by (by destruct before).
  cbv iota. simpl negb. cbv iota. rewrite Hclosed.
  rewrite (comprehension_present L).
  2:{ apply Forall_app. split; [exact Hbefore|]. by constructor. }
  cbv zeta.
  change (view (called _ (conn s))) with (view (conn s)).
  change (foreign_keys (called _ (conn s))) with (foreign_keys (conn s)).
  rewrite Hview, Hfk, (prepare_insert_fits L db [] Hfits Hdb).
  rewrite map_app, insert_rows_app.
  rewrite (insert_rows_accepted L _ db [] keys Hfits Hdb Hacc) by done.
  cbn [map insert_rows]. rewrite Hbind.
  unfold insert_row.
  erewrite prepare_insert_fits; [|exact Hfits|by rewrite lookup_insert_eq].
  simpl. rewrite Hpk, Hkey. simpl. rewrite Hcheck. simpl.
  eexists. split; reflexivity.
Qed.


(** ** Runs that do not reach the random search *)

Lemma adapt_benign v e : adapt v = Raise e -> e <> OperationalError.
Proof.
  intros H. destruct v; simpl in H; try discriminate;
    repeat match type of H with
           | context [if ?b then _ else _] => destruct b
           end;
    inversion H; discriminate.
Qed.

Lemma rmap_adapt_benign vs e :
  rmap adapt vs = Raise e -> e <> OperationalError.
Proof.
  induction vs as [|v vs IH]; simpl; [discriminate|].
  destruct (adapt v) as [sv|e'] eqn:Hv; simpl.
  - destruct (rmap adapt vs) as [svs|e'']; simpl; [discriminate|].
    intros [= <-]. by apply IH.
  - intros [= <-]. by eapply adapt_benign.
Qed.

Lemma bind_parameters_benign n tuple e :
  bind_parameters n tuple = Raise e -> e <> OperationalError.
Proof.
  unfold bind_parameters.
  destruct tuple; try (intros [= <-]; discriminate);
    (destruct (decide _); [apply rmap_adapt_benign|]);
    intros [= <-]; discriminate.
Qed.

Lemma row_of_benign fs r e : row_of fs r = Raise e -> e <> OperationalError.
Proof.
  unfold row_of.
  assert (forall e', rmap (read_field r) fs = Raise e' ->
                     e' <> OperationalError) as H.
  { induction fs as [|f fs IH]; simpl; [discriminate|]. intros e'.
    destruct (read_field r f) as [v|e0] eqn:Hf; simpl.
    - destruct (rmap (read_field r) fs) as [vs|e1]; simpl; [discriminate|].
      intros [= <-]. by apply IH.
    - intros [= <-]. destruct f, r; simpl in Hf;
        repeat match type of Hf with
               | context [match ?x with _ => _ end] => destruct x
               end;
        inversion Hf; discriminate. }
  destruct (rmap (read_field r) fs) as [vs|e0]; simpl; [discriminate|].
  intros [= <-]. by apply H.
Qed.

Lemma comprehension_benign fs data e :
  comprehension (row_of fs) data = Raise e -> e <> OperationalError.
Proof.
  unfold comprehension.
  destruct (iter data) as [items|e0] eqn:Hiter; simpl.
  - clear Hiter. revert e.
    induction items as [|r items IH]; simpl; [discriminate|]. intros e.
    destruct (row_of fs r) as [t|e0] eqn:Hr; simpl.
    + destruct (rmap (row_of fs) items) as [ts|e1]; simpl; [discriminate|].
      intros [= <-]. by apply IH.
    + intros [= <-]. by eapply row_of_benign.
  - intros [= <-]. destruct data; simpl in Hiter; inversion Hiter;
      discriminate.
Qed.

Lemma check_not_null_benign name cs (value_of : string -> sqlval) e :
  check_not_null name cs value_of = Raise e -> e <> OperationalError.
Proof.
  induction cs as [|c cs IH]; simpl; [discriminate|].
  destruct (_ && _); [|exact IH]. intros [= <-]. discriminate.
Qed.

Lemma check_foreign_keys_benign db t fks cells e :
  check_foreign_keys db t fks cells = Raise e -> e <> OperationalError.
Proof.
  induction fks as [|fk fks IH]; simpl; [discriminate|].
  destruct (cell_at _ _ _) as [[]|]; try exact IH;
    (destruct (has_parent _ _ _); [exact IH|]);
    intros [= <-]; discriminate.
Qed.

(** A row whose key is given fails, if it does, with another error than
    that of the random search. *)
Lemma insert_row_benign fk db name columns values t e :
  prepare_insert db name columns = Ok t ->
  pk_value (tbl_columns t) (supplied columns values) <> SNull ->
  insert_row fk db name columns values = Raise e ->
  e <> OperationalError.
Proof.
  intros Hprep Hpk. unfold insert_row. rewrite Hprep.
  cbn [mbind result_bind rbind].
  destruct (rowid_of name (rowids t) _) as [z|e0] eqn:Hz.
  2:{ intros [= <-]. unfold rowid_of in Hz.
      destruct (pk_value _ _); [done|discriminate|..];
        (destruct (convert _ _); inversion Hz; discriminate). }
  cbn [mbind result_bind rbind].
  destruct (check_not_null _ _ _) as [[]|e0] eqn:Hnn.
  2:{ intros [= <-]. by eapply check_not_null_benign. }
  cbn [mbind result_bind rbind].
  destruct (bool_decide (z ∈ rowids t)).
  { intros [= <-]. discriminate. }
  cbn [mbind result_bind rbind].
  destruct fk; [|discriminate].
  destruct (check_foreign_keys _ _ _ _) as [[]|e0] eqn:Hfk; [discriminate|].
  intros [= <-]. by eapply check_foreign_keys_benign.
Qed.

Lemma insert_rows_benign fk name columns cs tuples : forall db t e v,
  prepare_insert db name columns = Ok t ->
  tbl_columns t = cs ->
  Forall (fun tuple =>
            forall values,
              bind_parameters (length columns) tuple = Ok values ->
              pk_value cs (supplied columns values) <> SNull) tuples ->
  insert_rows fk db name columns tuples = (Raise e, v) ->
  e <> OperationalError.
Proof.
  induction tuples as [|tuple tuples IH]; intros db t e v Hprep Hcs Hall;
    simpl; [discriminate|].
  apply Forall_cons in Hall as [Htuple Hall].
  destruct (bind_parameters _ tuple) as [values|e0] eqn:Hbind.
  2:{ intros [= <- _]. by eapply bind_parameters_benign. }
  destruct (insert_row fk db name columns values) as [db1|e0] eqn:Hrow.
  2:{ intros [= <- _]. eapply insert_row_benign; [exact Hprep| |exact Hrow].
      rewrite Hcs. apply Htuple. reflexivity. }
  apply insert_row_inv in Hrow as (t' & z & Ht' & ->).
  pose proof Hprep as Hprep'. apply prepare_insert_inv in Hprep'.
  assert (t' = t) as -> by congruence.
  refine (IH _ (Table (tbl_columns t) (tbl_fks t) _) e v _ Hcs Hall).
  unfold prepare_insert in *. rewrite lookup_insert_eq. rewrite Ht' in Hprep.
  simpl in *. destruct (forallb _ columns); [reflexivity|discriminate].
Qed.

(** The tuple of a record with an id that is not null has a key. *)
Lemma keyed_tuple L insert r tuple values :
  (L, insert) ∈ loaders ->
  row_of (ld_fields L) r = Ok tuple ->
  keyed r = true ->
  bind_parameters (length (ld_names L)) tuple = Ok values ->
  pk_value (ld_columns L) (supplied (ld_names L) values) <> SNull.
Proof.
  intros Hin Hr Hkeyed Hbind.
  destruct (fits_parts L (loaders_fit _ _ Hin)) as (_ & Hnd & Hpk & Hid & _).
  destruct r as [| | | | | |d|];
    try (by rewrite (row_of_non_record L insert) in Hr).
  destruct (has_required L (PDict d)) eqn:Hreq.
  2:{ destruct (row_of_missing L _ Hreq) as (k & _ & _ & Hk). congruence. }
  rewrite (row_of_present L _ Hreq) in Hr. inversion Hr; subst tuple.
  unfold bind_parameters, tuple_of in Hbind.
  destruct (decide _) in Hbind; [|discriminate].
  pose proof (supplied_read d _ values _ Hnd Hbind Hid) as Hsup.
  rewrite Hpk. unfold ld_names. simpl in Hsup, Hkeyed.
  destruct (assoc "id" d) as [v|] eqn:Hv; simpl in Hsup.
  - rewrite Hsup in Hkeyed. intros Hnull. rewrite Hnull in Hkeyed.
    discriminate.
  - simpl in Hreq. rewrite forallb_forall in Hreq.
    apply list_elem_of_In in Hid. specialize (Hreq _ Hid). simpl in Hreq.
    unfold present in Hreq. rewrite Hv in Hreq.
    apply bool_decide_eq_true in Hreq as [? ?]. discriminate.
Qed.

Lemma laid_out_quiet src : quiet (laid_out src).
Proof.
  intros s lines (db & Hs & Hall). exists db. split; [|exact Hall].
  by apply quiet_steady.
Qed.

(** A loader on records with ids that are not null: it keeps the tables as
    declared when it returns, and when it raises, the error is not that of
    the random search. *)
Lemma laid_out_loader src L insert data :
  (L, insert) ∈ loaders ->
  (forall items, iter data = Ok items ->
                 Forall (fun r => keyed r = true) items) ->
  hoare (laid_out src) (insert data) (fun _ => laid_out src)
        (fun e _ => e <> OperationalError).
Proof.
  intros Hin Hkeyed s (db & Hs & Hall).
  pose proof Hs as (_ & _ & Hview).
  assert (L ∈ descriptions) as HL.
  { change descriptions with (map fst loaders).
    apply list_elem_of_fmap. exists (L, insert). by split. }
  destruct (proj1 (Forall_forall _ _) Hall L HL) as [rows0 Hrows0].
  rewrite (loaders_table_loader _ _ _ Hin), table_loader_run.
  destruct (truthy data); simpl negb; cbv iota; [|by exists db].
  destruct (closed (conn s)); [discriminate|].
  destruct (comprehension _ data) as [rows|e0] eqn:Hrows.
  2:{ by eapply comprehension_benign. }
  cbv zeta. change (view (called _ (conn s))) with (view (conn s)).
  rewrite Hview, (prepare_insert_fits L db rows0 (loaders_fit _ _ Hin) Hrows0).
  assert (Forall (fun tuple =>
                    forall values,
                      bind_parameters (length (ld_names L)) tuple = Ok values ->
                      pk_value (ld_columns L) (supplied (ld_names L) values)
                      <> SNull) rows) as Htuples.
  { unfold comprehension in Hrows.
    destruct (iter data) as [items|] eqn:Hiter; simpl in Hrows;
      [|discriminate].
    specialize (Hkeyed items eq_refl). apply rmap_Forall2 in Hrows.
    clear Hiter. induction Hrows as [|r tuple items rows Hr _ IH];
      [constructor|].
    apply Forall_cons in Hkeyed as [Hk Hks].
    constructor; [|by apply IH]. intros values Hbind.
    by eapply keyed_tuple. }
  destruct (insert_rows _ _ _ _ _) as [[[]|e0] v] eqn:Hins.
  - destruct (insert_rows_inv _ _ _ _ _ _ _ _ Hrows0 Hins) as (new & -> & _).
    eexists. split; [by eapply steady_inserted|].
    rewrite Forall_forall in Hall |- *. intros L' HL'.
    destruct (Hall L' HL') as [rows' Hrows'].
    destruct (decide (ld_table L' = ld_table L)) as [Heq|Hne].
    + rewrite Heq, lookup_insert_eq. rewrite Heq, Hrows0 in Hrows'.
      inversion Hrows' as [[Hc Hf Hr]]. simpl. rewrite Hc, Hf.
      by eexists.
    + rewrite lookup_insert_ne by done. by exists rows'.
  - eapply insert_rows_benign;
      [exact (prepare_insert_fits L db rows0 (loaders_fit _ _ Hin) Hrows0)
      |reflexivity|exact Htuples|exact Hins].
Qed.

Lemma laid_out_step src L insert :
  (L, insert) ∈ loaders ->
  null_free src ->
  hoare (laid_out src) (load_and_insert L insert) (fun _ => laid_out src)
        (fun e _ => e <> OperationalError).
Proof.
  intros Hin Hfree s Hs. unfold load_and_insert, mbind, M_bind.
  rewrite load_json_file_run.
  pose proof (laid_out_quiet src s
                (load_says (ld_file L) (sources (env s) !! ld_file L)) Hs)
    as Hs'.
  destruct Hs as (db & ((Hsrc & _) & _) & _). rewrite Hsrc in *.
  destruct (src !! ld_file L) as [[why| |detail| |data]|] eqn:Hfile; simpl.
  - destruct why; discriminate.
  - discriminate.
  - exact Hs'.
  - discriminate.
  - destruct (len data) as [n|e0] eqn:Hlen; simpl.
    2:{ destruct data; simpl in Hlen; inversion Hlen; discriminate. }
    destruct (truthy data); [|exact Hs'].
    apply (laid_out_loader src L insert data Hin); [|exact Hs'].
    intros items Hiter. exact (Hfree _ _ _ Hfile Hiter).
  - exact Hs'.
Qed.

Lemma schema_laid_out src s : steady src schema s -> laid_out src s.
Proof.
  intros Hs. exists schema. split; [exact Hs|].
  unfold descriptions. repeat constructor; by exists [].
Qed.

Ltac laid_out_step :=
  numbered_step; [ apply laid_out_step; [in_loaders|assumption] | ].

Lemma main_try_benign src :
  null_free src ->
  hoare (steady src ∅) main_try (fun _ _ => True)
        (fun e _ => e <> OperationalError).
Proof.
  intros Hfree. unfold main_try.
  eapply hoare_bind_ok; [apply steady_print|intros ?; cbv beta].
  eapply hoare_bind_ok; [apply create_tables_steady|intros ?; cbv beta].
  eapply hoare_bind_ok; [apply steady_print|intros ?; cbv beta].
  eapply hoare_bind_ok; [apply steady_print|intros ?; cbv beta].
  eapply hoare_weaken with (P := laid_out src);
    [|apply schema_laid_out|intros ? ? H; exact H|intros ? ? H; exact H].
  do 5 laid_out_step.
  eapply hoare_bind_ok with (Q' := fun _ _ => True).
  - intros s (db & Hs & Hall).
    assert (forall name, name ∈ tables ->
              count_rows db name
              = Some (default 0%nat (count_rows db name))) as Hn.
    { intros name Hname. change tables with (map ld_table descriptions) in Hname.
      apply list_elem_of_fmap in Hname as (L & -> & HL).
      rewrite Forall_forall in Hall. destruct (Hall L HL) as [rows Hrows].
      unfold count_rows. by rewrite Hrows. }
    pose proof (verify_data_reports src db _ Hn s Hs) as Hv.
    destruct (verify_data s) as [[[]|e] s']; [exact I|destruct Hv].
  - intros ?. cbv beta. by intros [[] ?] _.
Qed.

(** When no record gives its id as null or NaN, [main] does not fail with
    the error of the random search, whatever the search would find. *)
Lemma null_free_never_random w :
  null_free (sources w) -> fst (main w) <> Raise OperationalError.
Proof.
  intros Hfree. rewrite main_run.
  pose proof (main_try_benign (sources w) Hfree (started w)
                (started_steady w)) as H.
  destruct (main_try (started w)) as [[[]|e] s]; [discriminate|].
  intros [= ->]. by destruct H.
Qed.

End Ingest.

(** * Two runs

    The random search of SQLite is made anew in every run.  A run that does
    not reach it is the same whatever the search would have found: it is
    the run in which the search finds nothing, which then does not fail
    with the error of that search. *)

Section TwoRuns.

Variable convert : affinity -> sqlval -> sqlval.
Variable r : string -> list Z -> option Z.

Lemma new_rowid_refused name used :
  new_rowid no_random name used = new_rowid r name used
  \/ new_rowid no_random name used = Raise OperationalError.
Proof.
  unfold new_rowid, no_random. destruct used as [|k rest]; [by left|].
  cbv zeta. destruct (Z.ltb _ _); [by left|by right].
Qed.

Lemma rowid_of_refused name used v :
  rowid_of convert no_random name used v = rowid_of convert r name used v
  \/ rowid_of convert no_random name used v = Raise OperationalError.
Proof.
  destruct v; try (by left). apply new_rowid_refused.
Qed.

Lemma insert_row_refused fk db name columns values :
  insert_row convert no_random fk db name columns values
  = insert_row convert r fk db name columns values
  \/ insert_row convert no_random fk db name columns values
     = Raise OperationalError.
Proof.
  unfold insert_row.
  destruct (prepare_insert db name columns) as [t|]; [|by left].
  cbn [mbind result_bind rbind].
  destruct (rowid_of_refused name (rowids t)
              (pk_value (tbl_columns t) (supplied columns values)))
    as [->| ->]; [by left|by right].
Qed.

Lemma insert_rows_refused fk name columns rows : forall db,
  insert_rows convert no_random fk db name columns rows
  = insert_rows convert r fk db name columns rows
  \/ exists db',
       insert_rows convert no_random fk db name columns rows
       = (Raise OperationalError, db').
Proof.
  induction rows as [|row rows IH]; intros db; [by left|].
  cbn [insert_rows].
  destruct (bind_parameters (length columns) row) as [values|]; [|by left].
  destruct (insert_row_refused fk db name columns values) as [->| ->].
  - destruct (insert_row convert r fk db name columns values) as [db1|];
      [apply IH|by left].
  - right. by eexists.
Qed.

Lemma executemany_refused q rows :
  tame (executemany convert no_random q rows) (executemany convert r q rows).
Proof.
  intros s. unfold executemany. cbv zeta.
  destruct (closed (conn s)); [by left|].
  destruct q as [name columns fks|name columns|name]; try (by left).
  destruct (prepare_insert _ _ _) as [t|]; [|by left].
  destruct (insert_rows_refused
              (foreign_keys (called (ExecuteMany (InsertInto name columns)
                                       (length rows)) (conn s)))
              name columns rows
              (view (called (ExecuteMany (InsertInto name columns)
                               (length rows)) (conn s))))
    as [->|[db' ->]]; [by left|].
  right. by eexists.
Qed.

Lemma tame_refl {A} (m : M A) : tame m m.
Proof. intros s. by left. Qed.

Lemma tame_bind {A B} (m0 m : M A) (k0 k : A -> M B) :
  tame m0 m -> (forall a, tame (k0 a) (k a)) -> tame (m0 ≫= k0) (m ≫= k).
Proof.
  intros Hm Hk s. unfold mbind, M_bind.
  destruct (Hm s) as [->|[s' ->]]; [|right; by eexists].
  destruct (m s) as [[a|e] s1]; [apply Hk|by left].
Qed.

Lemma tame_if {A} (b : bool) (m0 m n0 n : M A) :
  tame m0 m -> tame n0 n -> tame (if b then m0 else n0) (if b then m else n).
Proof. by destruct b. Qed.

Ltac tame_step :=
  lazymatch goal with
  | |- tame (_ ≫= _) (_ ≫= _) => apply tame_bind; [|intros ?]
  | |- tame (if _ then _ else _) (if _ then _ else _) => apply tame_if
  | |- tame (executemany _ _ _ _) _ => apply executemany_refused
  | |- tame ?m ?m => apply tame_refl
  end.

(** The [try] of [main] with the search that finds nothing does as with any
    other search, or else fails with the error of that search. *)
Lemma main_try_refused :
  tame (main_try convert no_random) (main_try convert r).
Proof.
  unfold main_try, insert_users, insert_products, insert_orders,
    insert_order_items, insert_payments.
  repeat tame_step.
Qed.

(** A run that does not fail with the error of the search that finds
    nothing is the run of every search. *)
Lemma main_refused w :
  fst (main convert no_random w) <> Raise OperationalError ->
  main convert r w = main convert no_random w.
Proof.
  rewrite (main_run convert r w), (main_run convert no_random w).
  destruct (main_try_refused (started w)) as [->|[s' ->]].
  - intros _. reflexivity.
  - intros H. destruct H. reflexivity.
Qed.

End TwoRuns.

(** C6, as amended.  Two runs in succession on the same input files end the
    same way and leave the same store file, whatever SQLite's random search
    would find in each of them, provided the run does not reach that
    search, which is made only for a row with a null id when the largest
    key of the table is 2^63-1: the run in which the search finds nothing
    does not fail with the error of that search.  [create_database] removes
    the store file that the first run left, so nothing of it reaches the
    second run. *)
Theorem second_run_same_store convert r1 r2 w :
  fst (main convert no_random w) <> Raise OperationalError ->
  fst (main convert r2 (env (snd (main convert r1 w))))
  = fst (main convert r1 w)
  /\ stores (env (snd (main convert r2 (env (snd (main convert r1 w))))))
       !! "ecom.db"
     = stores (env (snd (main convert r1 w))) !! "ecom.db".
Proof.
  intros H.
  pose proof (main_refused convert r1 w H) as H1.
  pose proof (main_refused convert r2 w H) as H2.
  assert (main convert r1 w = main convert r2 w) as ->.
  { rewrite H1. symmetry. exact H2. }
  apply main_sources. apply main_keeps_sources.
Qed.

(** * Sample runs *)

Ltac evaluated := vm_compute; reflexivity.

Ltac member := repeat first [apply list_elem_of_here | apply list_elem_of_further].

Ltac distinct := apply (bool_decide_unpack _); vm_compute; exact I.

Ltac well_formed_batch :=
  split; [repeat constructor|distinct].

(** C1, the claim as stated, fails: every file of [twin_world] is there, is
    an array, and its records have the required fields, but the two users
    share the id 1; the second insert meets the primary key, [main] raises,
    the users table is left empty, not with two rows, and the verification
    prints nothing. *)
Lemma duplicate_ids_break_counts :
  Forall2 (fun L records =>
             sources twin_world !! ld_file L = Some (Json (PList records))
             /\ Forall (fun r => has_required L r = true) records)
          descriptions [[user_a; user_b]; []; []; []; []]
  /\ forall convert random_rowid,
       fst (main convert random_rowid twin_world)
       = Raise (IntegrityError (UniqueFailed "users" "id"))
       /\ count_rows (committed (snd (main convert random_rowid twin_world)))
                     "users"
          = Some 0%nat
       /\ count_rows (committed (snd (main convert random_rowid twin_world)))
                     "users"
          <> Some (length [user_a; user_b])
       /\ table_counts (stdout (env (snd (main convert random_rowid
                                            twin_world))))
          = [].
Proof.
  split.
  - unfold descriptions, loaders. simpl.
    repeat constructor.
  - intros convert random_rowid.
    split; [evaluated|]. split; [evaluated|]. split; [|evaluated].
    vm_compute. discriminate.
Qed.


(** C8, the claim as stated, fails: what [load_json_file] returns for the
    users.json of [example_world] is the list of records, not the list
    together with a length. *)
Lemma load_json_file_returns_list_only :
  fst (load_json_file "users.json" (started example_world))
  = Ok (PList [user_a])
  /\ forall n,
       fst (load_json_file "users.json" (started example_world))
       <> Ok (PTuple [PList [user_a]; PInt n]).
Proof.
  split; [evaluated|]. intros n. vm_compute. discriminate.
Qed.

(** C6, the claim as stated, fails: the users.json of
    [max_then_null_world] holds a user with the key 2^63-1 and then a user
    whose id is null, for whom SQLite picks a key at random.  When the
    search settles on 5 in the first run and on 6 in the second, both runs
    return, but the second user has the key 5 in the store file that the
    first run leaves and the key 6 in the one that the second run
    leaves. *)
Lemma random_key_differs :
  fst (main no_convert (pick 5) max_then_null_world) = Ok tt
  /\ fst (main no_convert (pick 6)
            (env (snd (main no_convert (pick 5) max_then_null_world))))
     = Ok tt
  /\ rowids <$> (stores (env (snd (main no_convert (pick 5)
                                     max_then_null_world)))
                   !! "ecom.db" ≫= (.!! "users"))
     = Some [max_rowid; 5]
  /\ rowids <$> (stores
                   (env (snd (main no_convert (pick 6)
                                (env (snd (main no_convert (pick 5)
                                             max_then_null_world))))))
                   !! "ecom.db" ≫= (.!! "users"))
     = Some [max_rowid; 6]
  /\ stores (env (snd (main no_convert (pick 6)
                         (env (snd (main no_convert (pick 5)
                                      max_then_null_world))))))
       !! "ecom.db"
     <> stores (env (snd (main no_convert (pick 5) max_then_null_world)))
          !! "ecom.db".
Proof.
  assert (rowids <$> (stores (env (snd (main no_convert (pick 5)
                                          max_then_null_world)))
                        !! "ecom.db" ≫= (.!! "users"))
          = Some [max_rowid; 5]) as H1 by evaluated.
  assert (rowids <$> (stores
                        (env (snd (main no_convert (pick 6)
                                     (env (snd (main no_convert (pick 5)
                                                  max_then_null_world))))))
                        !! "ecom.db" ≫= (.!! "users"))
          = Some [max_rowid; 6]) as H2 by evaluated.
  split; [evaluated|]. split; [evaluated|].
  split; [exact H1|]. split; [exact H2|].
  intros Heq. rewrite Heq, H1 in H2. discriminate H2.
Qed.

Lemma second_run_same_store_witness :
  fst (main no_convert no_random example_world) <> Raise OperationalError
  /\ fst (main no_convert (pick 6)
            (env (snd (main no_convert (pick 5) example_world))))
     = fst (main no_convert (pick 5) example_world)
  /\ stores (env (snd (main no_convert (pick 6)
                         (env (snd (main no_convert (pick 5)
                                      example_world))))))
       !! "ecom.db"
     = stores (env (snd (main no_convert (pick 5) example_world)))
         !! "ecom.db".
Proof.
  assert (fst (main no_convert no_random example_world)
          <> Raise OperationalError) as H.
  { vm_compute. discriminate. }
  split; [exact H|].
  exact (second_run_same_store no_convert (pick 5) (pick 6) example_world H).
Defined.

Lemma well_formed_files_counts_witness :
  Forall2 (fun L records =>
             sources example_world !! ld_file L = Some (Json (PList records))
             /\ well_formed_file L records)
          descriptions [[user_a]; [widget]; []; []; []]
  /\ fst (main no_convert no_random example_world) = Ok tt
  /\ Forall (fun L =>
               count_rows (committed (snd (main no_convert no_random
                                             example_world)))
                          (ld_table L)
               = Some (records_in (sources example_world !! ld_file L))
               /\ reported (ld_table L)
                    (records_in (sources example_world !! ld_file L))
                    (snd (main no_convert no_random example_world)))
            descriptions
  /\ Forall2 (fun L records =>
                count_rows (committed (snd (main no_convert no_random
                                              example_world)))
                           (ld_table L)
                = Some (length records)
                /\ reported (ld_table L) (length records)
                     (snd (main no_convert no_random example_world)))
             descriptions [[user_a]; [widget]; []; []; []].
Proof.
  assert (Forall2 (fun L records =>
             sources example_world !! ld_file L = Some (Json (PList records))
             /\ well_formed_file L records)
          descriptions [[user_a]; [widget]; []; []; []]) as H.
  { unfold descriptions.
    repeat (constructor; [split; [evaluated|well_formed_batch]|]).
    constructor. }
  split; [exact H|].
  destruct (well_formed_files_counts no_convert no_random example_world)
    as [Hcounted Hreturns].
  destruct (Hreturns _ H) as [Hok Hall].
  split; [exact Hok|]. split; [exact (Hcounted Hok)|exact Hall].
Defined.

Lemma missing_required_field_aborts_witness :
  (users_loader, insert_users no_convert no_random)
    ∈ loaders no_convert no_random
  /\ sources no_email_world !! ld_file users_loader
     = Some (Json (PList [user_no_email]))
  /\ Forall (fun r => is_record r = true) [user_no_email]
  /\ Exists (fun r => has_required users_loader r = false) [user_no_email]
  /\ exists k,
       Required k ∈ ld_fields users_loader
       /\ insert_users no_convert no_random (PList [user_no_email])
            schema_state
          = (Raise (KeyError k), schema_state)
       /\ fst (main no_convert no_random no_email_world) = Raise (KeyError k)
       /\ Rollback ∈ calls (conn (snd (main no_convert no_random
                                         no_email_world)))
       /\ count_rows (committed (snd (main no_convert no_random
                                        no_email_world))) "users"
          = Some 0%nat.
Proof.
  assert ((users_loader, insert_users no_convert no_random)
            ∈ loaders no_convert no_random) as H1 by member.
  assert (sources no_email_world !! ld_file users_loader
          = Some (Json (PList [user_no_email]))) as H2 by evaluated.
  assert (Forall (fun r => is_record r = true) [user_no_email]) as H3
    by (repeat constructor).
  assert (Exists (fun r => has_required users_loader r = false)
                 [user_no_email]) as H4
    by (apply Exists_cons_hd; evaluated).
  split; [exact H1|]. split; [exact H2|]. split; [exact H3|].
  split; [exact H4|].
  destruct (missing_required_field_aborts no_convert no_random users_loader
              (insert_users no_convert no_random) no_email_world
              [user_no_email] H1 H2 H3 H4)
    as (k & Hk & Hrun & _ & Hroll & Hcount & Hfirst).
  exists k. split; [exact Hk|].
  split; [apply Hrun; reflexivity|].
  split; [|split; [exact Hroll|exact Hcount]].
  eapply (Hfirst [] _ []); [reflexivity|constructor].
Defined.


Lemma optional_defaults_stored_witness :
  (products_loader, insert_products no_convert no_random)
    ∈ loaders no_convert no_random
  /\ view (conn schema_state) !! ld_table products_loader
     = Some (declared products_loader [])
  /\ insert_products no_convert no_random (PList [widget]) schema_state
     = (Ok tt,
        snd (insert_products no_convert no_random (PList [widget])
               schema_state))
  /\ exists new,
       view (conn (snd (insert_products no_convert no_random (PList [widget])
                          schema_state)))
         !! "products"
       = Some (declared products_loader new)
       /\ length new = 1%nat
       /\ forall row, new !! 0%nat = Some row ->
            exists sv,
              ("stock", sv) ∈ documented_defaults
              /\ cell_at (ld_columns products_loader) (snd row) "stock"
                 = Some sv.
Proof.
  assert ((products_loader, insert_products no_convert no_random)
            ∈ loaders no_convert no_random) as H1 by member.
  assert (view (conn schema_state) !! ld_table products_loader
          = Some (declared products_loader [])) as H2 by evaluated.
  assert (insert_products no_convert no_random (PList [widget]) schema_state
          = (Ok tt,
             snd (insert_products no_convert no_random (PList [widget])
                    schema_state))) as H3 by evaluated.
  split; [exact H1|]. split; [exact H2|]. split; [exact H3|].
  destruct (optional_defaults_stored no_convert no_random products_loader
              (insert_products no_convert no_random) [widget] []
              schema_state _ H1 H2 H3)
    as ((new & Hview & _ & Hlen & Hcells) & _).
  exists new. split; [exact Hview|]. split; [exact Hlen|].
  intros row Hrow.
  apply (Hcells 0%nat
           [("id", PInt 1); ("name", PStr "Widget"); ("price", price_9_99)]
           row "stock" (PInt 0)).
  - reflexivity.
  - exact Hrow.
  - simpl. member.
  - reflexivity.
Defined.

Lemma empty_batch_no_op_witness :
  (users_loader, insert_users no_convert no_random)
    ∈ loaders no_convert no_random
  /\ truthy (PList []) = false
  /\ insert_users no_convert no_random (PList []) schema_state
     = (Ok tt, schema_state)
  /\ fst (main no_convert no_random example_world) = Ok tt
  /\ map (count_rows (committed (snd (main no_convert no_random
                                        example_world)))) tables
     = [Some 1; Some 1; Some 0; Some 0; Some 0]%nat
  /\ table_counts (stdout (env (snd (main no_convert no_random
                                       example_world))))
     = [ ("users", SInt 1); ("products", SInt 1); ("orders", SInt 0);
         ("order_items", SInt 0); ("payments", SInt 0) ].
Proof.
  assert ((users_loader, insert_users no_convert no_random)
            ∈ loaders no_convert no_random) as H1 by member.
  split; [exact H1|]. split; [reflexivity|].
  exact (empty_batch_no_op no_convert no_random users_loader
           (insert_users no_convert no_random) (PList []) schema_state
           H1 eq_refl).
Defined.

Lemma load_json_file_returns_data_witness :
  sources (env (started example_world)) !! "users.json"
  = Some (Json (PList [user_a]))
  /\ len (PList [user_a]) = Ok 1%nat
  /\ load_json_file "users.json" (started example_world)
     = (Ok (PList [user_a]),
        State (say (LoadedRecords 1 "users.json")
                   (env (started example_world)))
              (conn (started example_world))).
Proof.
  assert (sources (env (started example_world)) !! "users.json"
          = Some (Json (PList [user_a]))) as H1 by evaluated.
  split; [exact H1|]. split; [reflexivity|].
  exact (load_json_file_returns_data "users.json" (PList [user_a]) 1
           (started example_world) H1 eq_refl).
Defined.

Lemma foreign_keys_not_enforced_witness :
  (orders_loader, insert_orders no_convert no_random)
    ∈ loaders no_convert no_random
  /\ steady ∅ schema schema_state
  /\ schema !! ld_table orders_loader = Some (declared orders_loader [])
  /\ well_formed_file orders_loader [order_of_42]
  /\ [order_of_42] <> []
  /\ count_rows schema "users" = Some 0%nat
  /\ foreign_keys (conn (snd (main no_convert no_random example_world)))
     = false
  /\ exists rows,
       length rows = 1%nat
       /\ insert_orders no_convert no_random (PList [order_of_42])
            schema_state
          = (Ok tt,
             inserted orders_loader (PList [order_of_42]) 1
               (<["orders" := declared orders_loader rows]> schema)
               schema_state).
Proof.
  assert ((orders_loader, insert_orders no_convert no_random)
            ∈ loaders no_convert no_random) as H1 by member.
  assert (steady ∅ schema schema_state) as H2.
  { repeat split; evaluated. }
  assert (schema !! ld_table orders_loader = Some (declared orders_loader []))
    as H3 by evaluated.
  assert (well_formed_file orders_loader [order_of_42]) as H4
    by well_formed_batch.
  assert ([order_of_42] <> []) as H5 by discriminate.
  split; [exact H1|]. split; [exact H2|]. split; [exact H3|].
  split; [exact H4|]. split; [exact H5|]. split; [evaluated|].
  destruct (foreign_keys_not_enforced no_convert no_random orders_loader
              (insert_orders no_convert no_random) example_world ∅ schema
              [order_of_42] schema_state H1 H2 H3 H4 H5)
    as (_ & Hfk & rows & Hlen & Hrun).
  split; [exact Hfk|]. exists rows. split; [exact Hlen|exact Hrun].
Defined.

Lemma unsized_document_aborts_witness :
  (users_loader, insert_users no_convert no_random)
    ∈ loaders no_convert no_random
  /\ sources null_users_world !! ld_file users_loader = Some (Json PNone)
  /\ unsized PNone = true
  /\ load_json_file (ld_file users_loader) (started null_users_world)
     = (Raise TypeError, started null_users_world)
  /\ fst (main no_convert no_random null_users_world) = Raise TypeError
  /\ Rollback ∈ calls (conn (snd (main no_convert no_random
                                    null_users_world))).
Proof.
  assert ((users_loader, insert_users no_convert no_random)
            ∈ loaders no_convert no_random) as H1 by member.
  assert (sources null_users_world !! ld_file users_loader
          = Some (Json PNone)) as H2 by evaluated.
  split; [exact H1|]. split; [exact H2|]. split; [reflexivity|].
  destruct (unsized_document_aborts no_convert no_random users_loader
              (insert_users no_convert no_random) null_users_world PNone
              (started null_users_world) H1 H2 eq_refl eq_refl)
    as (Hload & _ & Hroll & Hfirst).
  split; [exact Hload|]. split; [|exact Hroll].
  eapply (Hfirst [] _ []); [reflexivity|constructor].
Defined.

Lemma repeated_id_raises_witness :
  (users_loader, insert_users no_convert no_random)
    ∈ loaders no_convert no_random
  /\ steady ∅ schema schema_state
  /\ schema !! ld_table users_loader = Some (declared users_loader [])
  /\ well_formed_file users_loader [user_a]
  /\ well_formed users_loader user_b = true
  /\ record_id user_b ∈ map record_id [user_a]
  /\ exists s',
       insert_users no_convert no_random (PList [user_a; user_b]) schema_state
       = (Raise (IntegrityError (UniqueFailed "users" "id")), s')
       /\ env s' = env schema_state.
Proof.
  assert ((users_loader, insert_users no_convert no_random)
            ∈ loaders no_convert no_random) as H1 by member.
  assert (steady ∅ schema schema_state) as H2.
  { repeat split; evaluated. }
  assert (schema !! ld_table users_loader = Some (declared users_loader []))
    as H3 by evaluated.
  assert (well_formed_file users_loader [user_a]) as H4 by well_formed_batch.
  assert (well_formed users_loader user_b = true) as H5 by evaluated.
  assert (record_id user_b ∈ map record_id [user_a]) as H6
    by (simpl; member).
  split; [exact H1|]. split; [exact H2|]. split; [exact H3|].
  split; [exact H4|]. split; [exact H5|]. split; [exact H6|].
  exact (repeated_id_raises no_convert no_random users_loader
           (insert_users no_convert no_random) ∅ schema [user_a] user_b []
           schema_state H1 H2 H3 H4 H5 H6 (Forall_nil_2 _)).
Defined.

Lemma failed_batch_rolls_back_witness :
  (users_loader, insert_users no_convert no_random)
    ∈ loaders no_convert no_random
  /\ synced schema_state
  /\ closed (conn schema_state) = false
  /\ fst (insert_users no_convert no_random (PList [user_a; user_b])
            schema_state)
     = Raise (IntegrityError (UniqueFailed "users" "id"))
  /\ count_rows
       (view (conn (snd (insert_users no_convert no_random
                           (PList [user_a; user_b]) schema_state))))
       "users"
     = Some 1%nat
  /\ env (snd (insert_users no_convert no_random (PList [user_a; user_b])
                 schema_state))
     = env schema_state
  /\ exists s'',
       rollback (snd (insert_users no_convert no_random
                        (PList [user_a; user_b]) schema_state))
       = (Ok tt, s'')
       /\ env s'' = env schema_state
       /\ view (conn s'') = view (conn schema_state)
       /\ in_txn (conn s'') = false.
Proof.
  assert ((users_loader, insert_users no_convert no_random)
            ∈ loaders no_convert no_random) as H1 by member.
  assert (synced schema_state) as H2 by (split; evaluated).
  assert (insert_users no_convert no_random (PList [user_a; user_b])
            schema_state
          = (Raise (IntegrityError (UniqueFailed "users" "id")),
             snd (insert_users no_convert no_random (PList [user_a; user_b])
                    schema_state))) as H3 by evaluated.
  split; [exact H1|]. split; [exact H2|]. split; [reflexivity|].
  split; [evaluated|]. split; [evaluated|].
  exact (failed_batch_rolls_back no_convert no_random users_loader
           (insert_users no_convert no_random) (PList [user_a; user_b])
           schema_state _ _ H1 H2 eq_refl H3).
Defined.

Lemma earlier_tables_stay_loaded_witness :
  loaders no_convert no_random
  = ([(users_loader, insert_users no_convert no_random)]
     ++ (products_loader, insert_products no_convert no_random)
     :: [ (orders_loader, insert_orders no_convert no_random);
          (order_items_loader, insert_order_items no_convert no_random);
          (payments_loader, insert_payments no_convert no_random) ])%list
  /\ usable users_loader
       (sources user_then_no_price_world !! ld_file users_loader) [user_a]
  /\ sources user_then_no_price_world !! ld_file products_loader
     = Some (Json (PList [widget_no_price]))
  /\ Forall (fun r => is_record r = true) [widget_no_price]
  /\ Exists (fun r => has_required products_loader r = false)
            [widget_no_price]
  /\ kept [("users", 1%nat)]
          [products_loader; orders_loader; order_items_loader;
           payments_loader]
          (snd (main no_convert no_random user_then_no_price_world)).
Proof.
  assert (usable users_loader
            (sources user_then_no_price_world !! ld_file users_loader)
            [user_a]) as H2.
  { right; right. split; [evaluated|well_formed_batch]. }
  assert (sources user_then_no_price_world !! ld_file products_loader
          = Some (Json (PList [widget_no_price]))) as H3 by evaluated.
  assert (Forall (fun r => is_record r = true) [widget_no_price]) as H4
    by (repeat constructor).
  assert (Exists (fun r => has_required products_loader r = false)
                 [widget_no_price]) as H5
    by (apply Exists_cons_hd; evaluated).
  assert (Forall2 (fun (L' : loader * (pyval -> M unit)) records' =>
                     usable (fst L')
                       (sources user_then_no_price_world !! ld_file (fst L'))
                       records')
                  [(users_loader, insert_users no_convert no_random)]
                  [[user_a]]) as H6
    by (constructor; [exact H2|constructor]).
  split; [reflexivity|]. split; [exact H2|]. split; [exact H3|].
  split; [exact H4|]. split; [exact H5|].
  exact (earlier_tables_stay_loaded no_convert no_random products_loader
           (insert_products no_convert no_random) user_then_no_price_world
           [widget_no_price]
           [(users_loader, insert_users no_convert no_random)]
           [ (orders_loader, insert_orders no_convert no_random);
             (order_items_loader, insert_order_items no_convert no_random);
             (payments_loader, insert_payments no_convert no_random) ]
           [[user_a]] eq_refl H6 H3 H4 H5).
Defined.

Lemma misshapen_document_aborts_witness :
  (users_loader, insert_users no_convert no_random)
    ∈ loaders no_convert no_random
  /\ sources object_users_world !! ld_file users_loader = Some (Json user_a)
  /\ misshapen user_a = true
  /\ closed (conn schema_state) = false
  /\ insert_users no_convert no_random user_a schema_state
     = (Raise TypeError, schema_state)
  /\ fst (main no_convert no_random object_users_world) = Raise TypeError
  /\ Rollback ∈ calls (conn (snd (main no_convert no_random
                                    object_users_world)))
  /\ count_rows (committed (snd (main no_convert no_random
                                   object_users_world))) "users"
     = Some 0%nat.
Proof.
  assert ((users_loader, insert_users no_convert no_random)
            ∈ loaders no_convert no_random) as H1 by member.
  assert (sources object_users_world !! ld_file users_loader
          = Some (Json user_a)) as H2 by evaluated.
  split; [exact H1|]. split; [exact H2|]. split; [reflexivity|].
  split; [reflexivity|].
  destruct (misshapen_document_aborts no_convert no_random users_loader
              (insert_users no_convert no_random) object_users_world user_a
              schema_state H1 H2 eq_refl eq_refl)
    as (Hrun & _ & Hroll & Hcount & Hfirst).
  split; [exact Hrun|]. split; [|split; [exact Hroll|exact Hcount]].
  eapply (Hfirst [] _ []); [reflexivity|constructor].
Defined.

Lemma non_object_record_raises_witness :
  (users_loader, insert_users no_convert no_random)
    ∈ loaders no_convert no_random
  /\ closed (conn schema_state) = false
  /\ Forall (fun r' => has_required users_loader r' = true) [user_a]
  /\ is_record (PInt 7) = false
  /\ insert_users no_convert no_random (PList [user_a; PInt 7; user_b])
       schema_state
     = (Raise TypeError, schema_state).
Proof.
  assert ((users_loader, insert_users no_convert no_random)
            ∈ loaders no_convert no_random) as H1 by member.
  assert (Forall (fun r' => has_required users_loader r' = true) [user_a])
    as H3 by (repeat constructor).
  split; [exact H1|]. split; [reflexivity|]. split; [exact H3|].
  split; [reflexivity|].
  exact (non_object_record_raises no_convert no_random users_loader
           (insert_users no_convert no_random) [user_a] (PInt 7) [user_b]
           schema_state H1 eq_refl H3 eq_refl).
Defined.

Lemma given_fields_stored_witness :
  (products_loader, insert_products no_convert no_random)
    ∈ loaders no_convert no_random
  /\ [widget] <> []
  /\ view (conn schema_state) !! ld_table products_loader
     = Some (declared products_loader [])
  /\ fst (insert_products no_convert no_random (PList [widget]) schema_state)
     = Ok tt
  /\ exists new,
       view (conn (snd (insert_products no_convert no_random (PList [widget])
                          schema_state)))
         !! "products"
       = Some (declared products_loader new)
       /\ length new = 1%nat
       /\ forall row, new !! 0%nat = Some row ->
            cell_at (ld_columns products_loader) (snd row) "name"
            = Some (SText "Widget").
Proof.
  assert ((products_loader, insert_products no_convert no_random)
            ∈ loaders no_convert no_random) as H1 by member.
  assert ([widget] <> []) as H2 by discriminate.
  assert (view (conn schema_state) !! ld_table products_loader
          = Some (declared products_loader [])) as H3 by evaluated.
  assert (insert_products no_convert no_random (PList [widget]) schema_state
          = (Ok tt,
             snd (insert_products no_convert no_random (PList [widget])
                    schema_state))) as H4 by evaluated.
  split; [exact H1|]. split; [exact H2|]. split; [exact H3|].
  split; [evaluated|].
  destruct (given_fields_stored no_convert no_random products_loader
              (insert_products no_convert no_random) [widget] []
              schema_state _ H1 H2 H3 H4)
    as (new & Hview & Hlen & Hcells).
  exists new. split; [exact Hview|]. split; [exact Hlen|].
  intros row Hrow.
  apply (Hcells 0%nat
           [("id", PInt 1); ("name", PStr "Widget"); ("price", price_9_99)]
           row (Required "name") (PStr "Widget") (SText "Widget") AffText).
  - reflexivity.
  - exact Hrow.
  - simpl. member.
  - discriminate.
  - reflexivity.
  - reflexivity.
  - reflexivity.
  - reflexivity.
Defined.

Lemma ids_are_rowids_witness :
  (users_loader, insert_users no_convert no_random)
    ∈ loaders no_convert no_random
  /\ [user_a] <> []
  /\ view (conn schema_state) !! ld_table users_loader
     = Some (declared users_loader [])
  /\ fst (insert_users no_convert no_random (PList [user_a]) schema_state)
     = Ok tt
  /\ exists new,
       view (conn (snd (insert_users no_convert no_random (PList [user_a])
                          schema_state)))
         !! "users"
       = Some (declared users_loader new)
       /\ length new = 1%nat
       /\ forall row, new !! 0%nat = Some row ->
            fst row = 1
            /\ cell_at (ld_columns users_loader) (snd row) "id"
               = Some (SInt 1).
Proof.
  assert ((users_loader, insert_users no_convert no_random)
            ∈ loaders no_convert no_random) as H1 by member.
  assert ([user_a] <> []) as H2 by discriminate.
  assert (view (conn schema_state) !! ld_table users_loader
          = Some (declared users_loader [])) as H3 by evaluated.
  assert (insert_users no_convert no_random (PList [user_a]) schema_state
          = (Ok tt,
             snd (insert_users no_convert no_random (PList [user_a])
                    schema_state))) as H4 by evaluated.
  split; [exact H1|]. split; [exact H2|]. split; [exact H3|].
  split; [evaluated|].
  destruct (ids_are_rowids no_convert no_random users_loader
              (insert_users no_convert no_random) [user_a] []
              schema_state _ H1 H2 H3 H4)
    as (new & Hview & Hlen & Hkeys).
  exists new. split; [exact Hview|]. split; [exact Hlen|].
  intros row Hrow.
  apply (Hkeys 0%nat
           [("id", PInt 1); ("name", PStr "A"); ("email", PStr "a@x.com")]
           row 1).
  - reflexivity.
  - exact Hrow.
  - reflexivity.
Defined.

Lemma verify_data_prints_counts_witness :
  closed (conn schema_state) = false
  /\ map (count_rows (view (conn schema_state))) tables
     = [Some 0; Some 0; Some 0; Some 0; Some 0]%nat
  /\ fst (verify_data schema_state) = Ok tt
  /\ stdout (env (snd (verify_data schema_state)))
     = [ Text (nl ++ times "=" 50);
         Text "Data Verification:";
         Text (times "=" 50);
         TableCount "users" (SInt 0);
         TableCount "products" (SInt 0);
         TableCount "orders" (SInt 0);
         TableCount "order_items" (SInt 0);
         TableCount "payments" (SInt 0);
         Text (times "=" 50) ].
Proof.
  assert (map (count_rows (view (conn schema_state))) tables
          = [Some 0; Some 0; Some 0; Some 0; Some 0]%nat) as H2 by evaluated.
  split; [reflexivity|]. split; [exact H2|].
  exact (verify_data_prints_counts schema_state 0 0 0 0 0 eq_refl H2).
Defined.

Lemma create_tables_keeps_existing_witness :
  steady ∅ schema schema_state
  /\ Forall (fun name => is_Some (schema !! name)) tables
  /\ fst (create_tables schema_state) = Ok tt
  /\ steady ∅ schema (snd (create_tables schema_state))
  /\ stores (env (snd (create_tables schema_state)))
     = stores (env schema_state).
Proof.
  assert (steady ∅ schema schema_state) as H1.
  { repeat split; evaluated. }
  assert (Forall (fun name => is_Some (schema !! name)) tables) as H2.
  { unfold tables. repeat constructor; eexists; evaluated. }
  split; [exact H1|]. split; [exact H2|].
  exact (create_tables_keeps_existing ∅ schema schema_state H1 H2).
Defined.

Lemma loader_commits_once_witness :
  (products_loader, insert_products no_convert no_random)
    ∈ loaders no_convert no_random
  /\ truthy (PList [widget]) = true
  /\ fst (insert_products no_convert no_random (PList [widget]) schema_state)
     = Ok tt
  /\ calls (conn (snd (insert_products no_convert no_random (PList [widget])
                         schema_state)))
     = [ ExecuteMany
           (InsertInto "products"
              ["id"; "name"; "description"; "price"; "category"; "stock";
               "image_url"; "created_at"]) 1;
         Commit ]
  /\ stdout (env (snd (insert_products no_convert no_random (PList [widget])
                         schema_state)))
     = [Inserted 1 "products"]
  /\ synced (snd (insert_products no_convert no_random (PList [widget])
                    schema_state)).
Proof.
  assert ((products_loader, insert_products no_convert no_random)
            ∈ loaders no_convert no_random) as H1 by member.
  assert (insert_products no_convert no_random (PList [widget]) schema_state
          = (Ok tt,
             snd (insert_products no_convert no_random (PList [widget])
                    schema_state))) as H3 by evaluated.
  split; [exact H1|]. split; [reflexivity|]. split; [evaluated|].
  exact (loader_commits_once no_convert no_random products_loader
           (insert_products no_convert no_random) (PList [widget])
           schema_state _ H1 eq_refl H3).
Defined.

Lemma report_matches_store_witness :
  fst (main no_convert no_random example_world) = Ok tt
  /\ "users" ∈ tables
  /\ exists n,
       count_rows (committed (snd (main no_convert no_random example_world)))
                  "users"
       = Some n
       /\ reported "users" n (snd (main no_convert no_random example_world)).
Proof.
  assert (fst (main no_convert no_random example_world) = Ok tt) as H1
    by evaluated.
  assert ("users" ∈ tables) as H2 by (unfold tables; member).
  split; [exact H1|]. split; [exact H2|].
  exact (report_matches_store no_convert no_random example_world "users"
           H1 H2).
Defined.

Lemma null_required_field_raises_witness :
  (users_loader, insert_users no_convert no_random)
    ∈ loaders no_convert no_random
  /\ steady ∅ schema schema_state
  /\ schema !! ld_table users_loader = Some (declared users_loader [])
  /\ well_formed_file users_loader [user_a]
  /\ has_required users_loader user_null_email = true
  /\ is_Some (record_id user_null_email)
  /\ Required "email" ∈ ld_fields users_loader
  /\ exists column s',
       insert_users no_convert no_random (PList [user_a; user_null_email])
         schema_state
       = (Raise (IntegrityError (NotNullFailed "users" column)), s')
       /\ env s' = env schema_state.
Proof.
  assert ((users_loader, insert_users no_convert no_random)
            ∈ loaders no_convert no_random) as H1 by member.
  assert (steady ∅ schema schema_state) as H2.
  { repeat split; evaluated. }
  assert (schema !! ld_table users_loader = Some (declared users_loader []))
    as H3 by evaluated.
  assert (well_formed_file users_loader [user_a]) as H4 by well_formed_batch.
  assert (has_required users_loader user_null_email = true) as H5
    by evaluated.
  assert (Forall (fun f => scalar (field_read
                      [("id", PInt 2); ("name", PStr "C"); ("email", PNone)]
                      f) = true)
                 (ld_fields users_loader)) as H6
    by (repeat constructor).
  assert (is_Some (record_id user_null_email)) as H7 by (by exists 2).
  assert (Required "email" ∈ ld_fields users_loader) as H8
    by (simpl; member).
  split; [exact H1|]. split; [exact H2|]. split; [exact H3|].
  split; [exact H4|]. split; [exact H5|]. split; [exact H7|].
  split; [exact H8|].
  assert ("email" <> "id") as H9 by discriminate.
  exact (null_required_field_raises no_convert no_random users_loader
           (insert_users no_convert no_random) ∅ schema [user_a]
           [("id", PInt 2); ("name", PStr "C"); ("email", PNone)] "email" []
           schema_state H1 H2 H3 H4 H5 H6 H7 H8 H9 eq_refl (Forall_nil_2 _)).
Defined.

(** A name with a lone surrogate has one character and cannot be passed to
    SQLite: the loader raises UnicodeEncodeError and stores nothing. *)
Lemma surrogate_name_raises :
  (name ← getitem user_surrogate "name"; len name) = Ok 1%nat
  /\ forall convert random_rowid,
       insert_users convert random_rowid (PList [user_surrogate]) schema_state
       = (Raise UnicodeEncodeError,
          State (env schema_state)
                (called (ExecuteMany
                           (InsertInto "users"
                              ["id"; "name"; "email"; "phone"; "address";
                               "created_at"]) 1)
                        (set_view schema true (conn schema_state)))).
Proof.
  split; [evaluated|]. intros convert random_rowid. evaluated.
Qed.

(** The price -0.0 is stored as 0.0. *)
Lemma minus_zero_stored_as_zero :
  (t ← view (conn (snd (insert_products no_convert no_random
                           (PList [widget_minus_zero]) schema_state)))
         !! "products";
   row ← head (tbl_rows t);
   cell_at products_columns (snd row) "price")
  = Some (SReal (S754_zero false)).
Proof. evaluated. Qed.
